(** * Sun & Light: the simulation core of [src/App.tsx]

    A shallow embedding of the missile-command game loop: the three entity
    classes ([EnemyRocket], [InterceptorMissile], [Explosion]), the React
    state cells of the [App] component, the mutable [stateRef] object, the
    command handlers ([startGame], [nextRound], [handleCanvasClick]), the
    animation-frame callback [loop] and the win/loss effect.

    Numbers.  Counters that only ever hold integers ([score], [round],
    [ammo], [enemiesToSpawn], [enemiesDestroyed]) are [Z]; array indices are
    [nat]; coordinates, times, radii and speeds are exact rationals [Q], so
    the rounding of IEEE doubles is not part of the model.  [Math.sqrt] has
    no rational counterpart: it is an operation of the class [MathLib], of
    which only non-negativity of the result is assumed.  [Math.random()] is
    an input of the frame, of a type whose values lie in [0,1).  Drawing is
    omitted: [draw] changes no state.

    React.  A handler or a frame reads the cells of the render that created
    its closure and queues its updates; the updates are rendered, and the
    effects run, before the next handler or frame is called. *)

From Stdlib Require Import ZArith QArith Qround Qabs Qminmax List Bool Lia Lqa.
From Stdlib Require String.
Import ListNotations.
Local Open Scope Q_scope.

(** ** Numbers *)

(** [a < b] on numbers, as a boolean. *)
Definition Qltb (a b : Q) : bool := negb (Qle_bool b a).

Class MathLib := {
  Math_sqrt : Q -> Q;
  Math_sqrt_nonneg : forall v, 0 <= Math_sqrt v
}.

(** An executable instance: the integer square root of [n*d] over [d], which
    is exact on the squares of integers. *)
Definition Zsqrt_Q (v : Q) : Q := Z.sqrt (Qnum v * Zpos (Qden v)) # Qden v.

(** A result of [Math.random()]: a number in [0,1). *)
Definition in_unit (r : Q) : bool := Qle_bool 0 r && Qltb r 1.

Record Random := { rnd_val :> Q; rnd_range : in_unit rnd_val = true }.

(** The three calls of [Math.random()] a spawning frame makes, in the order
    of the calls: the target choice, the launch abscissa (in the
    [EnemyRocket] constructor) and the jitter of the spawn timer. *)
Record Dice := { pick : Random; launch : Random; jitter : Random }.

(** ** Arrays *)

(** [l[i] = v] on a copy of [l].  Past the end JavaScript extends the array;
    the holes read as [undefined], for which [hole] stands. *)
Definition array_set {A : Type} (hole : A) (l : list A) (i : nat) (v : A) : list A :=
  if (i <? length l)%nat then firstn i l ++ v :: skipn (S i) l
  else l ++ repeat hole (i - length l) ++ [v].

(** [l.forEach((v, i) => ...)] visits the pairs of an index and its element. *)
Definition indexed {A : Type} (l : list A) : list (nat * A) :=
  combine (seq 0 (length l)) l.

(** ** Types and constants *)

Module Point.
Record t := mk { x : Q; y : Q }.
End Point.

Inductive GameStatus := START | PLAYING | ROUND_END | GAME_OVER | WIN.

Definition GameStatus_eqb (a b : GameStatus) : bool :=
  match a, b with
  | START, START | PLAYING, PLAYING | ROUND_END, ROUND_END
  | GAME_OVER, GAME_OVER | WIN, WIN => true
  | _, _ => false
  end.

Definition WIN_SCORE : Z := 1000.
Definition INITIAL_AMMO : list Z := [20; 40; 20]%Z.

(** [Math.sqrt(dx*dx + dy*dy)] for [dx = a.x - b.x], [dy = a.y - b.y]. *)
Definition dist `{MathLib} (a b : Point.t) : Q :=
  let dx := Point.x a - Point.x b in
  let dy := Point.y a - Point.y b in
  Math_sqrt (dx * dx + dy * dy).

(** ** Game classes *)

Module EnemyRocket.
Record t := mk {
  start : Point.t;
  end_ : Point.t;
  pos : Point.t;
  speed : Q;
  targetIndex : nat
}.

Definition new (width height targetX : Q) (targetIndex : nat) (speed : Q)
    (r : Random) : t :=
  let start := Point.mk (r * width) 0 in
  {| start := start;
     end_ := Point.mk targetX (height - 40);
     pos := start;
     targetIndex := targetIndex;
     speed := speed * (2 / 3) |}.

Definition update `{MathLib} (e : t) (dt : Q) : t * bool :=
  let dx := Point.x (end_ e) - Point.x (pos e) in
  let dy := Point.y (end_ e) - Point.y (pos e) in
  let dist := Math_sqrt (dx * dx + dy * dy) in
  if Qltb dist 2 then (e, false)
  else
    let vx := (dx / dist) * speed e * dt in
    let vy := (dy / dist) * speed e * dt in
    ({| start := start e;
        end_ := end_ e;
        pos := Point.mk (Point.x (pos e) + vx) (Point.y (pos e) + vy);
        speed := speed e;
        targetIndex := targetIndex e |}, true).
End EnemyRocket.

Module InterceptorMissile.
Record t := mk {
  start : Point.t;
  target : Point.t;
  pos : Point.t;
  speed : Q
}.

Definition new (start target : Point.t) : t :=
  {| start := start; target := target; pos := start; speed := 400 |}.

Definition update `{MathLib} (m : t) (dt : Q) : t * bool :=
  let dx := Point.x (target m) - Point.x (pos m) in
  let dy := Point.y (target m) - Point.y (pos m) in
  let dist := Math_sqrt (dx * dx + dy * dy) in
  if Qltb dist 5 then (m, false)
  else
    let vx := (dx / dist) * speed m * dt in
    let vy := (dy / dist) * speed m * dt in
    ({| start := start m;
        target := target m;
        pos := Point.mk (Point.x (pos m) + vx) (Point.y (pos m) + vy);
        speed := speed m |}, true).
End InterceptorMissile.

Module Explosion.
Record t := mk {
  pos : Point.t;
  radius : Q;
  maxRadius : Q;
  growing : bool;
  speed : Q
}.

Definition new (pos : Point.t) : t :=
  {| pos := pos; radius := 0; maxRadius := 45; growing := true; speed := 60 |}.

Definition update (e : t) (dt : Q) : t * bool :=
  let e' :=
    if growing e then
      let radius' := radius e + speed e * dt in
      {| pos := pos e;
         radius := radius';
         maxRadius := maxRadius e;
         growing := if Qle_bool (maxRadius e) radius' then false else true;
         speed := speed e |}
    else
      {| pos := pos e;
         radius := radius e - (speed e * 0.6) * dt;
         maxRadius := maxRadius e;
         growing := false;
         speed := speed e |} in
  (e', Qltb 0 (radius e')).

(** A blast after the successive updates [dts], whatever they return. *)
Definition run (e : t) (dts : list Q) : t :=
  fold_left (fun e dt => fst (update e dt)) dts e.
End Explosion.

(** ** The component's state *)

(** The [useState] cells of [App] that the simulation reads or writes. *)
Record Hooks := {
  status : GameStatus;
  score : Z;
  round : Z;
  ammo : list Z;
  cities : list bool;
  batteries : list bool
}.

(** The object behind [stateRef.current]. *)
Record StateRef := {
  enemies : list EnemyRocket.t;
  interceptors : list InterceptorMissile.t;
  explosions : list Explosion.t;
  lastTime : Q;
  spawnTimer : Q;
  enemiesToSpawn : Z;
  enemiesDestroyed : Z;
  roundActive : bool;
  width : Q;
  height : Q
}.

(** A rendered component: the committed cells, which every closure of that
    render reads, and the ref object, which is shared and mutated in place. *)
Record App := { hooks : Hooks; stateRef : StateRef }.

Definition setStatus (v : GameStatus) (h : Hooks) : Hooks :=
  {| status := v; score := score h; round := round h; ammo := ammo h;
     cities := cities h; batteries := batteries h |}.

Definition setScore (f : Z -> Z) (h : Hooks) : Hooks :=
  {| status := status h; score := f (score h); round := round h; ammo := ammo h;
     cities := cities h; batteries := batteries h |}.

Definition setRound (f : Z -> Z) (h : Hooks) : Hooks :=
  {| status := status h; score := score h; round := f (round h); ammo := ammo h;
     cities := cities h; batteries := batteries h |}.

Definition setAmmo (v : list Z) (h : Hooks) : Hooks :=
  {| status := status h; score := score h; round := round h; ammo := v;
     cities := cities h; batteries := batteries h |}.

Definition setCities (f : list bool -> list bool) (h : Hooks) : Hooks :=
  {| status := status h; score := score h; round := round h; ammo := ammo h;
     cities := f (cities h); batteries := batteries h |}.

Definition setBatteries (f : list bool -> list bool) (h : Hooks) : Hooks :=
  {| status := status h; score := score h; round := round h; ammo := ammo h;
     cities := cities h; batteries := f (batteries h) |}.

Definition initialHooks : Hooks :=
  {| status := START; score := 0; round := 1; ammo := INITIAL_AMMO;
     cities := repeat true 6; batteries := repeat true 3 |}.

Definition initialRef : StateRef :=
  {| enemies := []; interceptors := []; explosions := [];
     lastTime := 0; spawnTimer := 0; enemiesToSpawn := 10;
     enemiesDestroyed := 0; roundActive := false; width := 0; height := 0 |}.

Definition initialApp : App := {| hooks := initialHooks; stateRef := initialRef |}.

(** ** Commands *)

(** [initRound] is a [useCallback] closure over [round]: it reads the value
    of the render that created it, which is its first argument here. *)
Definition initRound (round : Z) (a : StateRef * Hooks) : StateRef * Hooks :=
  let (s, h) := a in
  ({| enemies := []; interceptors := []; explosions := [];
      lastTime := lastTime s;
      spawnTimer := 0;
      enemiesToSpawn := 10 + round * 5;
      enemiesDestroyed := 0;
      roundActive := true;
      width := width s; height := height s |},
   setAmmo INITIAL_AMMO h).

Definition startGame (a : App) : App :=
  let h := setScore (fun _ => 0%Z) (hooks a) in
  let h := setRound (fun _ => 1%Z) h in
  let h := setCities (fun _ => repeat true 6) h in
  let h := setBatteries (fun _ => repeat true 3) h in
  let h := setStatus PLAYING h in
  let (s, h) := initRound (round (hooks a)) (stateRef a, h) in
  {| hooks := h; stateRef := s |}.

Definition nextRound (a : App) : App :=
  let ammoBonus := (fold_left (fun a b => a + b) (ammo (hooks a)) 0 * 5)%Z in
  let h := setScore (fun s => s + ammoBonus)%Z (hooks a) in
  let h := setRound (fun r => r + 1)%Z h in
  let h := setStatus PLAYING h in
  let (s, h) := initRound (round (hooks a)) (stateRef a, h) in
  {| hooks := h; stateRef := s |}.

Record BatteryPosition := { bx : Q; index : nat }.

Definition batteryPositions (width : Q) : list BatteryPosition :=
  [ {| bx := 40; index := 0 |};
    {| bx := width / 2; index := 1 |};
    {| bx := width - 40; index := 2 |} ].

(** [d < minDist], where [minDist] starts as [Infinity] ([None]). *)
Definition below (d : Q) (minDist : option Q) : bool :=
  match minDist with
  | None => true
  | Some m => Qltb d m
  end.

(** The body of the [forEach] of [handleCanvasClick] on the pair
    [(bestBattery, minDist)]; [bestBattery = -1] is [None]. *)
Definition consider (batteries : list bool) (ammo : list Z) (x : Q)
    (acc : option nat * option Q) (ibp : nat * BatteryPosition)
    : option nat * option Q :=
  let (i, bp) := ibp in
  if nth i batteries false && (0 <? nth i ammo 0)%Z then
    let d := Qabs (x - bx bp) in
    if below d (snd acc) then (Some i, Some d) else acc
  else acc.

Definition bestBattery (a : App) (x : Q) : option nat :=
  fst (fold_left (consider (batteries (hooks a)) (ammo (hooks a)) x)
                 (indexed (batteryPositions (width (stateRef a))))
                 (None, None)).

(** [newAmmo[i]--] on a copy of [ammo]; [i] is an index whose entry was read
    as positive, hence in range. *)
Definition decrement (i : nat) (ammo : list Z) : list Z :=
  firstn i ammo ++ match skipn i ammo with
                   | [] => []
                   | v :: rest => (v - 1)%Z :: rest
                   end.

Definition pushInterceptor (m : InterceptorMissile.t) (s : StateRef) : StateRef :=
  {| enemies := enemies s; interceptors := interceptors s ++ [m];
     explosions := explosions s; lastTime := lastTime s;
     spawnTimer := spawnTimer s; enemiesToSpawn := enemiesToSpawn s;
     enemiesDestroyed := enemiesDestroyed s; roundActive := roundActive s;
     width := width s; height := height s |}.

(** [handleCanvasClick] at the point [(x, y)] of the canvas. *)
Definition handleCanvasClick (x y : Q) (a : App) : App :=
  if negb (GameStatus_eqb (status (hooks a)) PLAYING) then a
  else if Qltb (height (stateRef a) - 60) y then a
  else
    match bestBattery a x with
    | None => a
    | Some b =>
        let startPos :=
          Point.mk (bx (nth b (batteryPositions (width (stateRef a)))
                              {| bx := 0; index := b |}))
                   (height (stateRef a) - 40) in
        {| hooks := setAmmo (decrement b (ammo (hooks a))) (hooks a);
           stateRef :=
             pushInterceptor (InterceptorMissile.new startPos (Point.mk x y))
                             (stateRef a) |}
    end.

(** [resize]: the canvas takes the size of its container. *)
Definition resize (w h : Q) (a : App) : App :=
  let s := stateRef a in
  {| hooks := hooks a;
     stateRef :=
       {| enemies := enemies s; interceptors := interceptors s;
          explosions := explosions s; lastTime := lastTime s;
          spawnTimer := spawnTimer s; enemiesToSpawn := enemiesToSpawn s;
          enemiesDestroyed := enemiesDestroyed s; roundActive := roundActive s;
          width := w; height := h |} |}.

(** ** Win/loss effect *)

(** The body of the effect on [score], [batteries], [status]: both tests read
    the cells of the render, and a later [setStatus] overrides an earlier. *)
Definition winLossEffect (h : Hooks) : Hooks :=
  if GameStatus_eqb (status h) PLAYING then
    let h1 := if (WIN_SCORE <=? score h)%Z then setStatus WIN h else h in
    if forallb negb (batteries h) then setStatus GAME_OVER h1 else h1
  else h.

(** ** The animation frame *)

(** The collision test of a blast against an enemy rocket. *)
Definition hits `{MathLib} (e : Explosion.t) (enemy : EnemyRocket.t) : bool :=
  Qltb (dist (EnemyRocket.pos enemy) (Explosion.pos e)) (Explosion.radius e).

(** The [filter] over the interceptors: a dead one leaves a blast at its
    target.  The blasts are pushed on the array the next filter reads. *)
Fixpoint updateInterceptors `{MathLib} (dt : Q) (ms : list InterceptorMissile.t)
    (exps : list Explosion.t) : list InterceptorMissile.t * list Explosion.t :=
  match ms with
  | [] => ([], exps)
  | m :: rest =>
      let (m', alive) := InterceptorMissile.update m dt in
      let exps :=
        if alive then exps
        else exps ++ [Explosion.new (InterceptorMissile.target m')] in
      let (kept, exps) := updateInterceptors dt rest exps in
      (if alive then m' :: kept else kept, exps)
  end.

(** The inner [filter] of one blast over the enemies. *)
Fixpoint collide `{MathLib} (e : Explosion.t) (es : list EnemyRocket.t)
    (h : Hooks) (destroyed : Z) : list EnemyRocket.t * Hooks * Z :=
  match es with
  | [] => ([], h, destroyed)
  | enemy :: rest =>
      if hits e enemy then
        collide e rest (setScore (fun s => s + 20)%Z h) (destroyed + 1)%Z
      else
        let '(kept, h, destroyed) := collide e rest h destroyed in
        (enemy :: kept, h, destroyed)
  end.

(** The [filter] over the blasts, each updated and then tested against the
    enemies that the blasts before it have left. *)
Fixpoint updateExplosions `{MathLib} (dt : Q) (exps : list Explosion.t)
    (es : list EnemyRocket.t) (h : Hooks) (destroyed : Z)
    : list Explosion.t * list EnemyRocket.t * Hooks * Z :=
  match exps with
  | [] => ([], es, h, destroyed)
  | e :: rest =>
      let (e', alive) := Explosion.update e dt in
      let '(es, h, destroyed) := collide e' es h destroyed in
      let '(kept, es, h, destroyed) := updateExplosions dt rest es h destroyed in
      (if alive then e' :: kept else kept, es, h, destroyed)
  end.

(** What the frame does with an enemy whose [update] returned [false]. *)
Definition resolveHit (enemy : EnemyRocket.t) (h : Hooks) : Hooks :=
  let idx := EnemyRocket.targetIndex enemy in
  if (idx <? 6)%nat then
    setCities (fun prev => array_set false prev idx false) h
  else
    let bIdx := (idx - 6)%nat in
    setBatteries (fun prev => array_set false prev bIdx false) h.

(** The [filter] over the enemies. *)
Fixpoint updateEnemies `{MathLib} (dt : Q) (es : list EnemyRocket.t)
    (h : Hooks) (exps : list Explosion.t)
    : list EnemyRocket.t * Hooks * list Explosion.t :=
  match es with
  | [] => ([], h, exps)
  | enemy :: rest =>
      let (enemy', alive) := EnemyRocket.update enemy dt in
      let h := if alive then h else resolveHit enemy' h in
      let exps :=
        if alive then exps
        else exps ++ [Explosion.new (EnemyRocket.pos enemy')] in
      let '(kept, h, exps) := updateEnemies dt rest h exps in
      (if alive then enemy' :: kept else kept, h, exps)
  end.

(** The indices [i] with [l[i]] true, in increasing order. *)
Definition aliveIndices (l : list bool) : list nat :=
  map fst (filter snd (indexed l)).

Definition availableTargets (cities batteries : list bool) : list nat :=
  aliveIndices cities ++ map (fun i => i + 6)%nat (aliveIndices batteries).

Definition cityPositions (width : Q) : list Q :=
  let spacing := width / 9 in
  [spacing * 1.5; spacing * 2.5; spacing * 3.5;
   spacing * 5.5; spacing * 6.5; spacing * 7.5].

Definition bPos (width : Q) : list Q := [40; width / 2; width - 40].

(** [Math.floor(Math.random() * n)]. *)
Definition floorIndex (r : Random) (n : nat) : nat :=
  Z.to_nat (Qfloor (r * inject_Z (Z.of_nat n))).

(** The spawning block.  [snap] holds the cells of the render whose effect
    started the loop; the canvas has the width and height of [stateRef]. *)
Definition spawn (snap : Hooks) (dt : Q) (d : Dice) (s : StateRef) : StateRef :=
  if GameStatus_eqb (status snap) PLAYING && (0 <? enemiesToSpawn s)%Z then
    let timer := spawnTimer s - dt in
    if Qle_bool timer 0 then
      let targets := availableTargets (cities snap) (batteries snap) in
      if (0 <? length targets)%nat then
        let targetIdx := nth (floorIndex (pick d) (length targets)) targets 0%nat in
        let targetX :=
          if (targetIdx <? 6)%nat then nth targetIdx (cityPositions (width s)) 0
          else let bIdx := (targetIdx - 6)%nat in nth bIdx (bPos (width s)) 0 in
        let speed := inject_Z (40 + round snap * 10) in
        {| enemies :=
             enemies s ++ [EnemyRocket.new (width s) (height s) targetX targetIdx
                                           speed (launch d)];
           interceptors := interceptors s; explosions := explosions s;
           lastTime := lastTime s;
           spawnTimer := 1.5 - Qmin 1 (inject_Z (round snap) * 0.1) + jitter d;
           enemiesToSpawn := enemiesToSpawn s - 1;
           enemiesDestroyed := enemiesDestroyed s; roundActive := roundActive s;
           width := width s; height := height s |}
      else
        {| enemies := enemies s; interceptors := interceptors s;
           explosions := explosions s; lastTime := lastTime s;
           spawnTimer := timer; enemiesToSpawn := enemiesToSpawn s;
           enemiesDestroyed := enemiesDestroyed s; roundActive := roundActive s;
           width := width s; height := height s |}
    else
      {| enemies := enemies s; interceptors := interceptors s;
         explosions := explosions s; lastTime := lastTime s;
         spawnTimer := timer; enemiesToSpawn := enemiesToSpawn s;
         enemiesDestroyed := enemiesDestroyed s; roundActive := roundActive s;
         width := width s; height := height s |}
  else s.

(** The round-end test at the end of the frame. *)
Definition roundEnded (snap : Hooks) (s : StateRef) : bool :=
  GameStatus_eqb (status snap) PLAYING && (enemiesToSpawn s =? 0)%Z
  && (length (enemies s) =? 0)%nat.

(** The callback of [requestAnimationFrame] at timestamp [time]. *)
Definition loop `{MathLib} (time : Q) (d : Dice) (a : App) : App :=
  let snap := hooks a in
  let s := stateRef a in
  let dt := Qmin 0.1 ((time - lastTime s) / 1000) in
  if GameStatus_eqb (status snap) PLAYING || GameStatus_eqb (status snap) ROUND_END
  then
    let (ms, exps) := updateInterceptors dt (interceptors s) (explosions s) in
    let '(exps, es, h, destroyed) :=
      updateExplosions dt exps (enemies s) snap (enemiesDestroyed s) in
    let '(es, h, exps) := updateEnemies dt es h exps in
    let s :=
      spawn snap dt d
        {| enemies := es; interceptors := ms; explosions := exps;
           lastTime := time; spawnTimer := spawnTimer s;
           enemiesToSpawn := enemiesToSpawn s; enemiesDestroyed := destroyed;
           roundActive := roundActive s; width := width s; height := height s |} in
    {| hooks := if roundEnded snap s then setStatus ROUND_END h else h;
       stateRef := s |}
  else
    {| hooks := snap;
       stateRef :=
         {| enemies := enemies s; interceptors := interceptors s;
            explosions := explosions s; lastTime := time;
            spawnTimer := spawnTimer s; enemiesToSpawn := enemiesToSpawn s;
            enemiesDestroyed := enemiesDestroyed s; roundActive := roundActive s;
            width := width s; height := height s |} |}.

(** ** Runs of the component *)

(** React renders the queued updates and then runs the win/loss effect, whose
    [setStatus] is rendered in turn.  The effect is run after every command:
    where none of [score], [batteries], [status] changed it changes nothing,
    having run on the same values before. *)
Definition commit (a : App) : App :=
  {| hooks := winLossEffect (hooks a); stateRef := stateRef a |}.

(** The start button is shown on the START, GAME_OVER and WIN overlays and
    the next-round button on the ROUND_END overlay. *)
Definition startShown (st : GameStatus) : bool :=
  match st with START | GAME_OVER | WIN => true | _ => false end.

Inductive step `{MathLib} : App -> App -> Prop :=
| step_resize w h a : step a (resize w h a)
| step_startGame a :
    startShown (status (hooks a)) = true -> step a (commit (startGame a))
| step_nextRound a :
    status (hooks a) = ROUND_END -> step a (commit (nextRound a))
| step_click x y a : step a (commit (handleCanvasClick x y a))
| step_frame time d a : step a (commit (loop time d a)).

Inductive reachable `{MathLib} : App -> Prop :=
| reachable_initial : reachable initialApp
| reachable_step a a' : reachable a -> step a a' -> reachable a'.

(** ** Pixel art *)

(** The calls a drawing function makes on the 2D context, in order. *)
Inductive CanvasCall :=
| FillStyle (color : String.string)
| FillRect (x y w h : Q).

(** [drawPixelArt]: one square per cell of [grid] that holds 1, row by row. *)
Definition drawPixelArt (x y size : Q) (grid : list (list Z))
    (color : String.string) : list CanvasCall :=
  let pixelSize := size / inject_Z (Z.of_nat (length grid)) in
  FillStyle color ::
  flat_map
    (fun rrow : nat * list Z =>
       let (r, row) := rrow in
       flat_map
         (fun cv : nat * Z =>
            let (c, v) := cv in
            if (v =? 1)%Z then
              [FillRect (x + inject_Z (Z.of_nat c) * pixelSize - size / 2)
                        (y + inject_Z (Z.of_nat r) * pixelSize - size / 2)
                        pixelSize pixelSize]
            else [])
         (indexed row))
    (indexed grid).

Import String.StringSyntax.
Local Open Scope string_scope.
(** [COLORS.enemy]. *)
Definition COLORS_enemy : String.string := "#ffffff".
Local Close Scope string_scope.

Definition DOG_GRID : list (list Z) :=
  [ [0; 1; 0; 1; 0];
    [1; 1; 1; 1; 1];
    [1; 0; 1; 0; 1];
    [1; 1; 1; 1; 1];
    [0; 1; 0; 1; 0] ]%Z.

(** * Vocabulary of the properties *)

Lemma Zsqrt_Q_nonneg (v : Q) : 0 <= Zsqrt_Q v.
Proof.
  unfold Zsqrt_Q, Qle. simpl.
  pose proof (Z.sqrt_nonneg (Qnum v * Z.pos (Qden v))). lia.
Qed.

(** The square root used to run the model on concrete inputs. *)
Definition IntegerSqrt : MathLib :=
  {| Math_sqrt := Zsqrt_Q; Math_sqrt_nonneg := Zsqrt_Q_nonneg |}.

(** What holds of a blast built by [new] and updated with steps in (0, D]. *)
Definition blast_inv (D : Q) (e : Explosion.t) : Prop :=
  Explosion.maxRadius e = 45 /\ Explosion.speed e = 60 /\
  (Explosion.growing e = true -> 0 <= Explosion.radius e /\ Explosion.radius e < 45) /\
  Explosion.radius e < 45 + 60 * D.

(** A round that has just ended: round 1, ammunition [5, 10, 5] left. *)
Definition roundEndApp : App :=
  {| hooks := {| status := ROUND_END; score := 300; round := 1;
                 ammo := [5; 10; 5]%Z;
                 cities := repeat true 6; batteries := repeat true 3 |};
     stateRef := {| enemies := []; interceptors := []; explosions := [];
                    lastTime := 1000; spawnTimer := 0.5; enemiesToSpawn := 0;
                    enemiesDestroyed := 15; roundActive := true;
                    width := 800; height := 600 |} |}.

(** Score 1000 with the last battery just destroyed. *)
Definition wonAndLost : Hooks :=
  {| status := PLAYING; score := 1000; round := 3; ammo := [0; 12; 0]%Z;
     cities := repeat true 6; batteries := repeat false 3 |}.

(** A battery the [forEach] of [handleCanvasClick] looks at: alive, with
    ammunition left. *)
Definition canFire (batteries : list bool) (ammo : list Z) (i : nat) : bool :=
  nth i batteries false && (0 <? nth i ammo 0)%Z.

(** The abscissa of battery [i], as [handleCanvasClick] reads it. *)
Definition batteryX (width : Q) (i : nat) : Q :=
  bx (nth i (batteryPositions width) {| bx := 0; index := i |}).

(** All batteries alive, ammunition [0, 5, 0], an 800 by 600 canvas. *)
Definition centreOnlyApp : App :=
  {| hooks := {| status := PLAYING; score := 0; round := 1;
                 ammo := [0; 5; 0]%Z;
                 cities := repeat true 6; batteries := repeat true 3 |};
     stateRef := {| enemies := []; interceptors := []; explosions := [];
                    lastTime := 0; spawnTimer := 0; enemiesToSpawn := 15;
                    enemiesDestroyed := 0; roundActive := true;
                    width := 800; height := 600 |} |}.

(** An enemy is caught in a frame of step [dt] when it lies within the
    updated radius of a blast of [exps] that is alive after its update. *)
Definition caught `{MathLib} (dt : Q) (exps : list Explosion.t)
    (enemy : EnemyRocket.t) : bool :=
  existsb (fun e => snd (Explosion.update e dt)
                    && hits (fst (Explosion.update e dt)) enemy) exps.

(** The step of the frame at timestamp [time]. *)
Definition frameStep (time : Q) (a : App) : Q :=
  Qmin 0.1 ((time - lastTime (stateRef a)) / 1000).

(** The blasts the frame updates: those of [stateRef] and then those of
    the interceptors that die in the frame. *)
Definition frameBlasts `{MathLib} (dt : Q) (a : App) : list Explosion.t :=
  explosions (stateRef a)
  ++ map (fun m => Explosion.new (InterceptorMissile.target m))
         (filter (fun m => negb (snd (InterceptorMissile.update m dt)))
                 (interceptors (stateRef a))).

(** The enemies that the blasts of the frame leave. *)
Definition frameEnemies `{MathLib} (dt : Q) (a : App) : list EnemyRocket.t :=
  filter (fun enemy => negb (caught dt (frameBlasts dt a) enemy))
         (enemies (stateRef a)).

(** The number of enemies the blasts of the frame catch. *)
Definition frameKills `{MathLib} (dt : Q) (a : App) : Z :=
  Z.of_nat (length (filter (caught dt (frameBlasts dt a)) (enemies (stateRef a)))).

(** The enemies of [frameEnemies] that arrive in the frame. *)
Definition frameArrivals `{MathLib} (dt : Q) (a : App) : list EnemyRocket.t :=
  filter (fun e => negb (snd (EnemyRocket.update e dt))) (frameEnemies dt a).

(** The ref object before the spawning block of the frame. *)
Definition frameRef `{MathLib} (time : Q) (a : App) : StateRef :=
  let dt := frameStep time a in
  let s := stateRef a in
  {| enemies := map (fun e => fst (EnemyRocket.update e dt))
                    (filter (fun e => snd (EnemyRocket.update e dt))
                            (frameEnemies dt a));
     interceptors := map (fun m => fst (InterceptorMissile.update m dt))
                         (filter (fun m => snd (InterceptorMissile.update m dt))
                                 (interceptors s));
     explosions := map (fun e => fst (Explosion.update e dt))
                       (filter (fun e => snd (Explosion.update e dt))
                               (frameBlasts dt a))
                   ++ map (fun e => Explosion.new (EnemyRocket.pos e))
                          (frameArrivals dt a);
     lastTime := time; spawnTimer := spawnTimer s;
     enemiesToSpawn := enemiesToSpawn s;
     enemiesDestroyed := (enemiesDestroyed s + frameKills dt a)%Z;
     roundActive := roundActive s; width := width s; height := height s |}.

(** The cells the frame queues, before the round-end test. *)
Definition frameHooks `{MathLib} (time : Q) (a : App) : Hooks :=
  let dt := frameStep time a in
  fold_left (fun h e => resolveHit e h) (frameArrivals dt a)
            (setScore (fun s => s + 20 * frameKills dt a)%Z (hooks a)).

(** The abscissa of the structure of index [targetIdx]. *)
Definition targetXOf (width : Q) (targetIdx : nat) : Q :=
  if (targetIdx <? 6)%nat then nth targetIdx (cityPositions width) 0
  else nth (targetIdx - 6) (bPos width) 0.

(** The index the spawning block draws. *)
Definition drawnTarget (snap : Hooks) (d : Dice) : nat :=
  nth (floorIndex (pick d) (length (availableTargets (cities snap) (batteries snap))))
      (availableTargets (cities snap) (batteries snap)) 0%nat.

(** Results of [Math.random()] for the examples. *)
Definition half : Random := {| rnd_val := 0.5; rnd_range := eq_refl |}.
Definition quarter : Random := {| rnd_val := 0.25; rnd_range := eq_refl |}.
Definition someDice : Dice := {| pick := half; launch := quarter; jitter := quarter |}.

(** A blast at the origin, an enemy 5 units from it and one 500 units away. *)
Definition blastApp : App :=
  {| hooks := {| status := PLAYING; score := 40; round := 1;
                 ammo := [19; 40; 20]%Z;
                 cities := repeat true 6; batteries := repeat true 3 |};
     stateRef :=
       {| enemies :=
            [ {| EnemyRocket.start := Point.mk 3 0;
                 EnemyRocket.end_ := Point.mk 3 560;
                 EnemyRocket.pos := Point.mk 3 4;
                 EnemyRocket.speed := 100 / 3;
                 EnemyRocket.targetIndex := 0 |};
              {| EnemyRocket.start := Point.mk 300 0;
                 EnemyRocket.end_ := Point.mk 300 560;
                 EnemyRocket.pos := Point.mk 300 400;
                 EnemyRocket.speed := 100 / 3;
                 EnemyRocket.targetIndex := 7 |} ];
          interceptors := [];
          explosions := [Explosion.new (Point.mk 0 0)];
          lastTime := 0; spawnTimer := 1; enemiesToSpawn := 3;
          enemiesDestroyed := 2; roundActive := true;
          width := 800; height := 600 |} |}.

(** An enemy one unit above battery 1, which it is aimed at. *)
Definition arrivalApp : App :=
  {| hooks := {| status := PLAYING; score := 0; round := 1;
                 ammo := [20; 40; 20]%Z;
                 cities := repeat true 6; batteries := repeat true 3 |};
     stateRef :=
       {| enemies :=
            [ {| EnemyRocket.start := Point.mk 400 0;
                 EnemyRocket.end_ := Point.mk 400 560;
                 EnemyRocket.pos := Point.mk 400 559;
                 EnemyRocket.speed := 100 / 3;
                 EnemyRocket.targetIndex := 7 |} ];
          interceptors := []; explosions := [];
          lastTime := 0; spawnTimer := 1; enemiesToSpawn := 3;
          enemiesDestroyed := 0; roundActive := true;
          width := 800; height := 600 |} |}.

(** Three counts, none negative. *)
Definition ammo_ok (h : Hooks) : Prop :=
  length (ammo h) = 3%nat /\ Forall (fun n => 0 <= n)%Z (ammo h).

(** A rocket 1 unit above its end point and an interceptor 2 units to the
    right of the click. *)
Definition arrivingRocket : EnemyRocket.t :=
  EnemyRocket.mk (Point.mk 400 0) (Point.mk 400 560) (Point.mk 400 559) (100 / 3) 7.

Definition arrivingInterceptor : InterceptorMissile.t :=
  InterceptorMissile.mk (Point.mk 400 560) (Point.mk 10 100) (Point.mk 12 100) 400.

(** Six cities, three batteries, and every rocket in flight aimed at one
    of the nine. *)
Definition layout_ok (a : App) : Prop :=
  length (cities (hooks a)) = 6%nat /\ length (batteries (hooks a)) = 3%nat /\
  Forall (fun e => (EnemyRocket.targetIndex e < 9)%nat) (enemies (stateRef a)).

(** The counters of a game in their ranges. *)
Definition counters_ok (a : App) : Prop :=
  (1 <= round (hooks a))%Z /\ (0 <= score (hooks a))%Z /\
  (0 <= enemiesToSpawn (stateRef a))%Z /\ (0 <= enemiesDestroyed (stateRef a))%Z.

(** What each status other than START and PLAYING tells of the state. *)
Definition status_ok (a : App) : Prop :=
  (status (hooks a) = ROUND_END ->
     enemiesToSpawn (stateRef a) = 0%Z /\ enemies (stateRef a) = []) /\
  (status (hooks a) = WIN -> (1000 <= score (hooks a))%Z) /\
  (status (hooks a) = GAME_OVER -> forallb negb (batteries (hooks a)) = true).

(** The sum of an array of numbers, as [reduce((a, b) => a + b, 0)]. *)
Definition sumZ (l : list Z) : Z := fold_left Z.add l 0%Z.

(** Every update of the blast along the steps [dts] returns [true]. *)
Fixpoint survives (e : Explosion.t) (dts : list Q) : bool :=
  match dts with
  | [] => true
  | dt :: rest =>
      snd (Explosion.update e dt) && survives (fst (Explosion.update e dt)) rest
  end.

(** The time that the steps [dts] span. *)
Definition elapsed (dts : list Q) : Q := fold_right Qplus 0 dts.

(** A measure of the age of a blast whose steps are at most [D]: 0.6 times
    the radius while it grows, and afterwards what it has shrunk by from
    45 + 60 D, on top of 0.6 times that bound. *)
Definition blast_age (D : Q) (e : Explosion.t) : Q :=
  if Explosion.growing e then 0.6 * Explosion.radius e
  else 0.6 * (45 + 60 * D) + (45 + 60 * D - Explosion.radius e).

(** The squares that a list of canvas calls fills. *)
Definition filled (calls : list CanvasCall) : list (Q * Q * Q * Q) :=
  flat_map (fun call => match call with
                        | FillRect x y w h => [(x, y, w, h)]
                        | FillStyle _ => []
                        end) calls.

(** The number of cells of a grid that hold 1. *)
Definition inked (grid : list (list Z)) : nat :=
  length (filter (fun v => (v =? 1)%Z) (concat grid)).

(** Dice that aim at the last alive battery and launch from mid-width. *)
Definition nineTenths : Random := {| rnd_val := 0.9; rnd_range := eq_refl |}.
Definition lastBatteryDice : Dice :=
  {| pick := nineTenths; launch := half; jitter := nineTenths |}.

(** [n] frames, 100 ms apart, each followed by the effects. *)
Definition runFrames `{MathLib} (n : nat) (d : Dice) (a : App) : App :=
  fold_left (fun a k => commit (loop (inject_Z (Z.of_nat k) * 100) d a)) (seq 1 n) a.

(** A game on a canvas 80 wide and 40 high, where the three batteries stand
    at abscissa 40 and the rockets end at the height they start from. *)
Definition tinyGame : App := commit (startGame (resize 80 40 initialApp)).

(** A round that has ended with a score of 900 and ammunition [5, 10, 5]. *)
Definition bonusWinsApp : App :=
  {| hooks := {| status := ROUND_END; score := 900; round := 2;
                 ammo := [5; 10; 5]%Z;
                 cities := repeat true 6; batteries := [true; false; true] |};
     stateRef := {| enemies := []; interceptors := []; explosions := [];
                    lastTime := 1000; spawnTimer := 0.5; enemiesToSpawn := 0;
                    enemiesDestroyed := 15; roundActive := true;
                    width := 800; height := 600 |} |}.

(** A rocket 560 units above its end point. *)
Definition fallingRocket : EnemyRocket.t :=
  EnemyRocket.mk (Point.mk 400 0) (Point.mk 400 560) (Point.mk 400 0) (100 / 3) 7.

(** The ammunition within the allocation of a round, and no more
    interceptors in flight than have been paid for. *)
Definition ammo_capped (a : App) : Prop :=
  (exists a0 a1 a2, ammo (hooks a) = [a0; a1; a2] /\
                    (a0 <= 20)%Z /\ (a1 <= 40)%Z /\ (a2 <= 20)%Z) /\
  (sumZ (ammo (hooks a)) + Z.of_nat (length (interceptors (stateRef a))) <= 80)%Z.

(** The constants of the entities in flight. *)
Definition entities_ok (s : StateRef) : Prop :=
  Forall (fun m => InterceptorMissile.speed m = 400) (interceptors s) /\
  Forall (fun e => Explosion.maxRadius e = 45 /\ Explosion.speed e = 60 /\
                   (Explosion.growing e = true -> Explosion.radius e < 45))
         (explosions s) /\
  Forall (fun e => exists r, (1 <= r)%Z /\
                             EnemyRocket.speed e = inject_Z (40 + r * 10) * (2 / 3))
         (enemies s).

(** A score of 980 and one battery left: a rocket within reach of a blast
    and a rocket one unit above battery 0, with three enemies left to spawn. *)
Definition lastStandApp : App :=
  {| hooks := {| status := PLAYING; score := 980; round := 3;
                 ammo := [4; 0; 0]%Z;
                 cities := repeat true 6; batteries := [true; false; false] |};
     stateRef :=
       {| enemies :=
            [ {| EnemyRocket.start := Point.mk 3 0;
                 EnemyRocket.end_ := Point.mk 3 560;
                 EnemyRocket.pos := Point.mk 3 4;
                 EnemyRocket.speed := 140 / 3;
                 EnemyRocket.targetIndex := 0 |};
              {| EnemyRocket.start := Point.mk 40 0;
                 EnemyRocket.end_ := Point.mk 40 560;
                 EnemyRocket.pos := Point.mk 40 559;
                 EnemyRocket.speed := 140 / 3;
                 EnemyRocket.targetIndex := 6 |} ];
          interceptors := [];
          explosions := [Explosion.new (Point.mk 0 0)];
          lastTime := 0; spawnTimer := 1; enemiesToSpawn := 3;
          enemiesDestroyed := 2; roundActive := true;
          width := 800; height := 600 |} |}.

(** An interceptor two units from the click it was fired at, and a rocket
    far from that click. *)
Definition interceptApp : App :=
  {| hooks := {| status := PLAYING; score := 0; round := 1;
                 ammo := [20; 39; 20]%Z;
                 cities := repeat true 6; batteries := repeat true 3 |};
     stateRef :=
       {| enemies := [fallingRocket];
          interceptors := [arrivingInterceptor];
          explosions := [];
          lastTime := 0; spawnTimer := 1; enemiesToSpawn := 3;
          enemiesDestroyed := 0; roundActive := true;
          width := 800; height := 600 |} |}.

(** ** Scripted runs *)

(** The frame [ms] milliseconds after the last one, followed by the
    effects. *)
Definition frameAfter `{MathLib} (ms : Q) (d : Dice) (a : App) : App :=
  commit (loop (lastTime (stateRef a) + ms) d a).

Definition nextFrame `{MathLib} (d : Dice) (a : App) : App := frameAfter 100 d a.

(** Fourteen frames, 100 ms apart, with the same dice: in round 1, with a
    jitter of 0, the time from one spawn to the next. *)
Definition volley `{MathLib} (a : App) (d : Dice) : App :=
  Nat.iter 14 (nextFrame d) a.

(** Dice with a jitter of 0. *)
Definition noChance : Random := {| rnd_val := 0; rnd_range := eq_refl |}.
Definition aimed (pick launch : Random) : Dice :=
  {| pick := pick; launch := launch; jitter := noChance |}.

(** The abscissas of the six cities of a canvas 80 wide, as fractions of
    the width; its three batteries stand at one half. *)
Definition overCity0 : Random := {| rnd_val := 3 # 18; rnd_range := eq_refl |}.
Definition overCity1 : Random := {| rnd_val := 5 # 18; rnd_range := eq_refl |}.
Definition overCity2 : Random := {| rnd_val := 7 # 18; rnd_range := eq_refl |}.
Definition overCity3 : Random := {| rnd_val := 11 # 18; rnd_range := eq_refl |}.
Definition overCity4 : Random := {| rnd_val := 13 # 18; rnd_range := eq_refl |}.
Definition overCity5 : Random := {| rnd_val := 15 # 18; rnd_range := eq_refl |}.
Definition third : Random := {| rnd_val := 1 # 3; rnd_range := eq_refl |}.

(** Fourteen rockets of the tiny game, each launched right above the place
    of its target, so that it lands in the frame after its spawn, or above
    the blast of the rocket before it, which catches it: the odd ones
    destroy the six cities and battery 0, the even ones are caught. *)
Definition cityWave : list Dice :=
  [ aimed noChance overCity0; aimed noChance overCity0;
    aimed noChance overCity1; aimed noChance overCity1;
    aimed noChance overCity2; aimed noChance overCity2;
    aimed noChance overCity3; aimed noChance overCity3;
    aimed noChance overCity4; aimed noChance overCity4;
    aimed noChance overCity5; aimed noChance overCity5;
    aimed noChance half; aimed noChance half ].

(** The tiny game after those fourteen rockets and the spawn of the
    fifteenth and last, right above battery 1; and one frame later. *)
Definition lastRocketApp : App :=
  @nextFrame IntegerSqrt (aimed noChance half)
    (fold_left (@volley IntegerSqrt) cityWave tinyGame).

Definition roundOverApp : App :=
  @nextFrame IntegerSqrt (aimed noChance half) lastRocketApp.

(** The same with five cities and then the batteries 0 and 1 destroyed. *)
Definition batteryWave : list Dice :=
  [ aimed noChance overCity0; aimed noChance overCity0;
    aimed noChance overCity1; aimed noChance overCity1;
    aimed noChance overCity2; aimed noChance overCity2;
    aimed noChance overCity3; aimed noChance overCity3;
    aimed noChance overCity4; aimed noChance overCity4;
    aimed quarter half; aimed noChance half;
    aimed third half; aimed noChance half ].

(** The tiny game after those fourteen rockets and the spawn of the
    fifteenth and last, right above battery 2, the last one alive. *)
Definition lastBatteryApp : App :=
  @nextFrame IntegerSqrt (aimed half half)
    (fold_left (@volley IntegerSqrt) batteryWave tinyGame).

(** A game on a canvas 80 wide and 64 high: the batteries stand at (40, 24)
    and a click at (40, 4) is the lowest that fires. *)
Definition smallGame : App := commit (startGame (resize 80 64 initialApp)).

Definition click (a : App) : App := commit (handleCanvasClick 40 4 a).

(** Rockets launched at (40, 0). *)
Definition overhead : Dice := aimed noChance half.

(** One period of the spawns for a player who defends: [n] clicks at
    (40, 4); a frame of 50 ms, in which the interceptors reach the click and
    the rocket that is due is spawned; a frame of 100 ms, in which they
    leave their blasts, which catch the rocket; then [k] frames of 100 ms
    and one of 50 ms, up to the next spawn. *)
Definition period `{MathLib} (k : nat) (a : App) (n : nat) : App :=
  frameAfter 50 overhead
    (Nat.iter k (frameAfter 100 overhead)
       (frameAfter 100 overhead (frameAfter 50 overhead (Nat.iter n click a)))).

(** A round of such periods, the numbers of clicks being [clicks], up to
    the frame that spawns its last rocket, after [last] clicks. *)
Definition defence `{MathLib} (k : nat) (clicks : list nat) (last : nat)
    (a : App) : App :=
  frameAfter 50 overhead (Nat.iter last click (fold_left (period k) clicks a)).

(** Clicks that, with five more, spend the 80 interceptors of a round over
    its fifteen rockets. *)
Definition allAmmo : list nat := [6; 6; 6; 6; 6; 5; 5; 5; 5; 5; 5; 5; 5; 5]%nat.

(** The end of round 1: fifteen rockets caught, no ammunition left. *)
Definition firstRoundApp : App :=
  @frameAfter IntegerSqrt 100 overhead (@defence IntegerSqrt 12 allAmmo 5 smallGame).

(** The end of round 2, its last rocket caught after [last] clicks. *)
Definition secondRoundApp (last : nat) : App :=
  @frameAfter IntegerSqrt 100 overhead
    (@defence IntegerSqrt 11 allAmmo last (commit (nextRound firstRoundApp))).

(** Round 3, after two rounds without a bonus: nineteen of its twenty
    rockets caught, the twentieth spawned and its blast on the way. *)
Definition lastKillApp : App :=
  @defence IntegerSqrt 10 (repeat 1%nat 19) 1 (commit (nextRound (secondRoundApp 5))).

(** Round 3, after a bonus of 20 for round 2: eighteen of its twenty
    rockets caught, the nineteenth spawned and its blast on the way. *)
Definition matchPointApp : App :=
  @defence IntegerSqrt 10 (repeat 1%nat 18) 1 (commit (nextRound (secondRoundApp 1))).

(** * Properties *)

(** ** Numbers and arrays *)

Lemma Qltb_lt (a b : Q) : Qltb a b = true <-> a < b.
Proof.
  unfold Qltb. rewrite negb_true_iff. split; intro Hab.
  - apply Qnot_le_lt. intro Hle. apply Qle_bool_iff in Hle. congruence.
  - destruct (Qle_bool b a) eqn:E; [|reflexivity].
    apply Qle_bool_iff in E. lra.
Qed.

Lemma Qltb_ge (a b : Q) : Qltb a b = false <-> b <= a.
Proof.
  unfold Qltb. rewrite negb_false_iff. apply Qle_bool_iff.
Qed.

Lemma Random_range (r : Random) : 0 <= r /\ r < 1.
Proof.
  pose proof (rnd_range r) as Hr. unfold in_unit in Hr.
  apply andb_true_iff in Hr. destruct Hr as [H0 H1].
  split; [apply Qle_bool_iff, H0 | apply Qltb_lt, H1].
Qed.

Lemma array_set_inside {A : Type} (hole : A) (l : list A) (i : nat) (v d : A) :
  (i < length l)%nat ->
  length (array_set hole l i v) = length l /\
  nth i (array_set hole l i v) d = v /\
  forall j, j <> i -> nth j (array_set hole l i v) d = nth j l d.
Proof.
  intro Hi. unfold array_set.
  destruct (Nat.ltb_spec i (length l)) as [_|Hge]; [|lia].
  revert i Hi. induction l as [|a l IH]; intros i Hi; simpl in Hi; [lia|].
  destruct i as [|i].
  - simpl. split; [|split].
    + reflexivity.
    + reflexivity.
    + intros [|j] Hj; [congruence|reflexivity].
  - destruct (IH i ltac:(lia)) as (Hlen & Hnth & Hother).
    simpl. split; [|split].
    + simpl in Hlen. now rewrite Hlen.
    + exact Hnth.
    + intros [|j] Hj; [reflexivity|]. apply Hother. congruence.
Qed.

(** ** Running the model *)

(** An interceptor fired from battery 0 at the click (10, 100) is, after a
    frame of 0.1 s, 40 units along its way. *)
Example interceptor_first_frame :
  map (fun m => (Qred (Point.x (InterceptorMissile.pos m)),
                 Qred (Point.y (InterceptorMissile.pos m))))
      (interceptors (stateRef
         (@loop IntegerSqrt 100 someDice
            (handleCanvasClick 10 100
               (commit (startGame (resize 800 600 initialApp)))))))
    = [(860 # 23, 520)].
Proof. vm_compute. reflexivity. Qed.

(** The first frame of a game spawns a rocket aimed at the drawn city. *)
Example first_frame_spawns :
  let a := @loop IntegerSqrt 16 someDice
             (commit (startGame (resize 800 600 initialApp))) in
  map EnemyRocket.targetIndex (enemies (stateRef a)) = [4%nat] /\
  enemiesToSpawn (stateRef a) = 14%Z /\ status (hooks a) = PLAYING /\
  Qred (spawnTimer (stateRef a)) = 33 # 20.
Proof. vm_compute. repeat split. Qed.

(** A game starts with 15 enemies to spawn, and a round that ends is
    followed by one with 15 again. *)
Example enemies_per_round :
  enemiesToSpawn (stateRef (startGame initialApp)) = 15%Z /\
  enemiesToSpawn (stateRef (nextRound roundEndApp)) = 15%Z.
Proof. split; reflexivity. Qed.

(** ** Projectiles *)

Section Projectiles.
Context `{MathLib}.

Lemma EnemyRocket_update_dead (e : EnemyRocket.t) (dt : Q) :
  snd (EnemyRocket.update e dt) = false <->
  dist (EnemyRocket.end_ e) (EnemyRocket.pos e) < 2.
Proof.
  unfold EnemyRocket.update, dist. rewrite <- Qltb_lt.
  destruct (Qltb _ 2); simpl; split; congruence.
Qed.

Lemma EnemyRocket_update_dead_same (e : EnemyRocket.t) (dt : Q) :
  snd (EnemyRocket.update e dt) = false -> fst (EnemyRocket.update e dt) = e.
Proof.
  unfold EnemyRocket.update. destruct (Qltb _ 2); simpl; congruence.
Qed.

Lemma InterceptorMissile_update_dead (m : InterceptorMissile.t) (dt : Q) :
  snd (InterceptorMissile.update m dt) = false <->
  dist (InterceptorMissile.target m) (InterceptorMissile.pos m) < 5.
Proof.
  unfold InterceptorMissile.update, dist. rewrite <- Qltb_lt.
  destruct (Qltb _ 5); simpl; split; congruence.
Qed.

Lemma InterceptorMissile_update_dead_same (m : InterceptorMissile.t) (dt : Q) :
  snd (InterceptorMissile.update m dt) = false ->
  fst (InterceptorMissile.update m dt) = m.
Proof.
  unfold InterceptorMissile.update. destruct (Qltb _ 5); simpl; congruence.
Qed.

Lemma InterceptorMissile_update_fields (m : InterceptorMissile.t) (dt : Q) :
  InterceptorMissile.speed (fst (InterceptorMissile.update m dt))
    = InterceptorMissile.speed m /\
  InterceptorMissile.target (fst (InterceptorMissile.update m dt))
    = InterceptorMissile.target m.
Proof.
  unfold InterceptorMissile.update. destruct (Qltb _ 5); simpl; auto.
Qed.

(** The interceptor filter in closed form: the survivors, updated, and one
    new blast per dead interceptor, in the order of the array. *)
Lemma updateInterceptors_spec (dt : Q) (ms : list InterceptorMissile.t)
    (exps : list Explosion.t) :
  updateInterceptors dt ms exps =
    (map (fun m => fst (InterceptorMissile.update m dt))
         (filter (fun m => snd (InterceptorMissile.update m dt)) ms),
     exps ++ map (fun m => Explosion.new (InterceptorMissile.target m))
                 (filter (fun m => negb (snd (InterceptorMissile.update m dt))) ms)).
Proof.
  revert exps. induction ms as [|m ms IH]; intro exps; simpl.
  - now rewrite app_nil_r.
  - pose proof (InterceptorMissile_update_fields m dt) as [_ Htarget].
    destruct (InterceptorMissile.update m dt) as [m' alive] eqn:E.
    simpl in *. rewrite IH. destruct alive; simpl; rewrite ?E; simpl.
    + reflexivity.
    + now rewrite <- app_assoc, Htarget.
Qed.
End Projectiles.

(** C10: an [update] of an enemy rocket or of an interceptor that returns
    [false] returns the projectile as it was, all fields and the position
    included, so that a dead rocket lies strictly within 2 units of its end
    point and a dead interceptor strictly within 5 units of its target. *)
Theorem update_false_leaves_projectile `{MathLib} :
  (forall (e : EnemyRocket.t) (dt : Q),
      snd (EnemyRocket.update e dt) = false ->
      fst (EnemyRocket.update e dt) = e /\
      dist (EnemyRocket.end_ e) (EnemyRocket.pos (fst (EnemyRocket.update e dt))) < 2) /\
  (forall (m : InterceptorMissile.t) (dt : Q),
      snd (InterceptorMissile.update m dt) = false ->
      fst (InterceptorMissile.update m dt) = m /\
      dist (InterceptorMissile.target m)
           (InterceptorMissile.pos (fst (InterceptorMissile.update m dt))) < 5).
Proof.
  split.
  - intros e dt Hdead.
    rewrite (EnemyRocket_update_dead_same e dt Hdead).
    split; [reflexivity|]. now apply (EnemyRocket_update_dead e dt).
  - intros m dt Hdead.
    rewrite (InterceptorMissile_update_dead_same m dt Hdead).
    split; [reflexivity|]. now apply (InterceptorMissile_update_dead m dt).
Qed.

(** ** Blasts *)

Lemma blast_inv_new (D : Q) (p : Point.t) : 0 < D -> blast_inv D (Explosion.new p).
Proof.
  intro HD. unfold blast_inv. simpl.
  split; [reflexivity|]. split; [reflexivity|]. split; [intros _; lra | lra].
Qed.

Lemma blast_inv_update (D : Q) (e : Explosion.t) (dt : Q) :
  0 < dt -> dt <= D -> blast_inv D e -> blast_inv D (fst (Explosion.update e dt)).
Proof.
  intros Hdt HD (Hmax & Hspeed & Hgrow & Hbound).
  unfold blast_inv, Explosion.update. simpl.
  destruct (Explosion.growing e) eqn:G; simpl; rewrite Hmax, Hspeed.
  - destruct (Hgrow eq_refl) as [H0 H45].
    split; [reflexivity|]. split; [reflexivity|]. split; [|lra].
    destruct (Qle_bool 45 (Explosion.radius e + 60 * dt)) eqn:E; [discriminate|].
    intros _. split; [lra|].
    apply Qltb_lt. unfold Qltb. now rewrite E.
  - split; [reflexivity|]. split; [reflexivity|]. split; [discriminate|lra].
Qed.

Lemma blast_inv_run (D : Q) (dts : list Q) (e : Explosion.t) :
  Forall (fun d => 0 < d /\ d <= D) dts ->
  blast_inv D e -> blast_inv D (Explosion.run e dts).
Proof.
  intro Hdts. revert e. induction Hdts as [|d dts [Hd HD] _ IH]; intros e He.
  - exact He.
  - apply IH. now apply blast_inv_update.
Qed.

Lemma Explosion_update_alive (e : Explosion.t) (dt : Q) :
  snd (Explosion.update e dt) = Qltb 0 (Explosion.radius (fst (Explosion.update e dt))).
Proof. reflexivity. Qed.




(** ** Commands and the win/loss effect *)

(** C1, what the code does: [nextRound] adds five times the sum of the
    ammunition to the score, increments the round, sets the status to
    PLAYING, empties the three collections and resets the ammunition and the
    counters, but the number of enemies to spawn is 10 + 5 r for the round r
    before the increment: [initRound] reads the [round] of the render that
    created it.  From round 1 the next round has 15 enemies, not 20. *)
Theorem nextRound_reads_round_of_render :
  (forall a : App,
      score (hooks (nextRound a))
        = (score (hooks a) + fold_left Z.add (ammo (hooks a)) 0 * 5)%Z /\
      round (hooks (nextRound a)) = (round (hooks a) + 1)%Z /\
      status (hooks (nextRound a)) = PLAYING /\
      ammo (hooks (nextRound a)) = [20; 40; 20]%Z /\
      enemies (stateRef (nextRound a)) = [] /\
      interceptors (stateRef (nextRound a)) = [] /\
      explosions (stateRef (nextRound a)) = [] /\
      enemiesDestroyed (stateRef (nextRound a)) = 0%Z /\
      spawnTimer (stateRef (nextRound a)) = 0 /\
      enemiesToSpawn (stateRef (nextRound a)) = (10 + round (hooks a) * 5)%Z) /\
  (status (hooks roundEndApp) = ROUND_END /\
   round (hooks (nextRound roundEndApp)) = 2%Z /\
   score (hooks (nextRound roundEndApp)) = 400%Z /\
   enemiesToSpawn (stateRef (nextRound roundEndApp)) = 15%Z /\
   enemiesToSpawn (stateRef (nextRound roundEndApp))
     <> (10 + round (hooks (nextRound roundEndApp)) * 5)%Z).
Proof.
  split.
  - intro a. unfold nextRound, initRound. simpl. repeat split.
  - repeat split. vm_compute. discriminate.
Qed.

Lemma winLossEffect_fields (h : Hooks) :
  score (winLossEffect h) = score h /\ round (winLossEffect h) = round h /\
  ammo (winLossEffect h) = ammo h /\ cities (winLossEffect h) = cities h /\
  batteries (winLossEffect h) = batteries h.
Proof.
  unfold winLossEffect.
  destruct (GameStatus_eqb (status h) PLAYING), (WIN_SCORE <=? score h)%Z,
           (forallb negb (batteries h)); simpl; auto.
Qed.

Lemma winLossEffect_idempotent (h : Hooks) :
  winLossEffect (winLossEffect h) = winLossEffect h.
Proof.
  unfold winLossEffect.
  destruct (GameStatus_eqb (status h) PLAYING) eqn:S,
           (WIN_SCORE <=? score h)%Z eqn:W,
           (forallb negb (batteries h)) eqn:B;
    simpl; rewrite ?S, ?W, ?B; reflexivity.
Qed.

Lemma GameStatus_eqb_eq (a b : GameStatus) : GameStatus_eqb a b = true <-> a = b.
Proof. destruct a, b; simpl; split; congruence. Qed.

Section Runs.
Context `{MathLib}.

(** After every step the win/loss effect has run on the cells as they are. *)
Lemma reachable_effect_done (a : App) :
  reachable a -> winLossEffect (hooks a) = hooks a.
Proof.
  induction 1 as [|a a' _ IH Hstep]; [reflexivity|].
  destruct Hstep; simpl; auto using winLossEffect_idempotent.
Qed.
End Runs.

(** ** Firing *)

Lemma consider_keeps (batteries : list bool) (ammo : list Z) (x : Q)
    (l : list (nat * BatteryPosition)) (acc : option nat * option Q) :
  (forall ibp, In ibp l -> canFire batteries ammo (fst ibp) = false) ->
  fold_left (consider batteries ammo x) l acc = acc.
Proof.
  revert acc. induction l as [|[i bp] l IH]; intros acc Hl; [reflexivity|].
  simpl. pose proof (Hl (i, bp) (or_introl eq_refl)) as Hi.
  unfold canFire in Hi. simpl in Hi. rewrite Hi.
  apply IH. intros ibp Hin. apply Hl. now right.
Qed.

Lemma consider_selects (batteries : list bool) (ammo : list Z) (x : Q)
    (l : list (nat * BatteryPosition)) (acc : option nat * option Q) (i : nat) :
  (forall j, fst acc = Some j ->
             canFire batteries ammo j = true /\ (In j (map fst l) \/ fst acc = Some j)) ->
  fst (fold_left (consider batteries ammo x) l acc) = Some i ->
  canFire batteries ammo i = true /\ (In i (map fst l) \/ fst acc = Some i).
Proof.
  revert acc. induction l as [|[k bp] l IH]; intros acc Hacc Hsel.
  - simpl in Hsel. now apply Hacc.
  - simpl in Hsel. apply IH in Hsel.
    + destruct Hsel as [Hfire [Hin|Hhere]]; split; trivial.
      * left. now right.
      * unfold consider in Hhere. fold (canFire batteries ammo k) in Hhere.
        destruct (canFire batteries ammo k) eqn:Hk; [|now right].
        destruct (below _ _); [|now right].
        simpl in Hhere. injection Hhere as ->. left. now left.
    + intros j Hj. unfold consider in Hj |- *.
      fold (canFire batteries ammo k) in Hj |- *.
      destruct (canFire batteries ammo k) eqn:Hk.
      * destruct (below _ _).
        -- simpl in Hj. injection Hj as <-. simpl. auto.
        -- destruct (Hacc j Hj) as [Hfire _]. auto.
      * destruct (Hacc j Hj) as [Hfire _]. auto.
Qed.

(** The battery chosen is alive, has ammunition left and is one of the three. *)
Lemma bestBattery_canFire (a : App) (x : Q) (i : nat) :
  bestBattery a x = Some i ->
  canFire (batteries (hooks a)) (ammo (hooks a)) i = true /\ (i < 3)%nat.
Proof.
  intro Hsel. unfold bestBattery in Hsel.
  apply consider_selects in Hsel.
  - destruct Hsel as [Hfire [Hin|Hnone]]; [|discriminate].
    split; [exact Hfire|]. simpl in Hin. lia.
  - simpl. discriminate.
Qed.

(** With no battery that can fire, none is chosen. *)
Lemma bestBattery_none (a : App) (x : Q) :
  (forall i, canFire (batteries (hooks a)) (ammo (hooks a)) i = false) ->
  bestBattery a x = None.
Proof.
  intro Hnone. unfold bestBattery. now rewrite consider_keeps.
Qed.

Lemma decrement_length (i : nat) (l : list Z) :
  length (decrement i l) = length l.
Proof.
  revert i. induction l as [|v l IH]; intros [|i]; try reflexivity.
  unfold decrement in *. simpl. f_equal. apply IH.
Qed.


Lemma decrement_nonneg (i : nat) (l : list Z) :
  (0 < nth i l 0)%Z -> Forall (fun n => 0 <= n)%Z l ->
  Forall (fun n => 0 <= n)%Z (decrement i l).
Proof.
  revert i. induction l as [|v l IH]; intros i Hpos Hl.
  - destruct i; constructor.
  - inversion Hl as [|? ? Hv Hl']; subst. destruct i as [|i].
    + unfold decrement. simpl in *. constructor; [lia|assumption].
    + unfold decrement in *. simpl in *. constructor; [assumption|].
      now apply IH.
Qed.

(** The battery chosen is a nearest one among those that can fire. *)
Lemma bestBattery_nearest (a : App) (x : Q) (i j : nat) :
  bestBattery a x = Some i -> (j < 3)%nat ->
  canFire (batteries (hooks a)) (ammo (hooks a)) j = true ->
  Qabs (x - batteryX (width (stateRef a)) i)
    <= Qabs (x - batteryX (width (stateRef a)) j).
Proof.
  unfold bestBattery, indexed, batteryPositions, batteryX. simpl.
  unfold consider. simpl.
  fold (canFire (batteries (hooks a)) (ammo (hooks a)) 0).
  fold (canFire (batteries (hooks a)) (ammo (hooks a)) 1).
  fold (canFire (batteries (hooks a)) (ammo (hooks a)) 2).
  set (w := width (stateRef a)).
  set (d0 := Qabs (x - 40)). set (d1 := Qabs (x - w / 2)).
  set (d2 := Qabs (x - (w - 40))).
  intros Hsel Hj Hfire.
  destruct (canFire _ _ 0) eqn:F0, (canFire _ _ 1) eqn:F1, (canFire _ _ 2) eqn:F2;
    simpl in Hsel;
    repeat match type of Hsel with
           | context [Qltb ?u ?v] =>
               let E := fresh "E" in
               destruct (Qltb u v) eqn:E;
               [apply Qltb_lt in E | apply Qltb_ge in E]; simpl in Hsel
           end;
    try discriminate; injection Hsel as <-;
    destruct j as [|[|[|j]]]; try lia; try congruence; simpl;
    fold d0 d1 d2; lra.
Qed.

Lemma handleCanvasClick_playing (a : App) (x y : Q) :
  status (hooks a) = PLAYING -> y <= height (stateRef a) - 60 ->
  handleCanvasClick x y a =
    match bestBattery a x with
    | None => a
    | Some b =>
        {| hooks := setAmmo (decrement b (ammo (hooks a))) (hooks a);
           stateRef :=
             pushInterceptor
               (InterceptorMissile.new
                  (Point.mk (batteryX (width (stateRef a)) b)
                            (height (stateRef a) - 40))
                  (Point.mk x y))
               (stateRef a) |}
    end.
Proof.
  intros Hs Hy. unfold handleCanvasClick. rewrite Hs. simpl.
  apply Qltb_ge in Hy. rewrite Hy. reflexivity.
Qed.

(** C3, as the code has it: while PLAYING, for a click in the playable band,
    (1) with all batteries alive and ammunition [0, 5, 0], wherever the
    click is, battery 1 fires: one interceptor is pushed, from
    (width/2, height - 40) to the click, and the ammunition becomes
    [0, 4, 0]; (2) a battery that is chosen is alive, has ammunition above 0
    and is a nearest one among such batteries, and it is the one that fires;
    (3) when no battery is alive with ammunition above 0, the click changes
    nothing. *)
Theorem fire_picks_nearest_loaded_battery (a : App) (x y : Q) :
  status (hooks a) = PLAYING -> y <= height (stateRef a) - 60 ->
  (batteries (hooks a) = [true; true; true] -> ammo (hooks a) = [0; 5; 0]%Z ->
     handleCanvasClick x y a =
       {| hooks := setAmmo [0; 4; 0]%Z (hooks a);
          stateRef :=
            pushInterceptor
              (InterceptorMissile.new
                 (Point.mk (width (stateRef a) / 2) (height (stateRef a) - 40))
                 (Point.mk x y))
              (stateRef a) |}) /\
  (forall i, bestBattery a x = Some i ->
     nth i (batteries (hooks a)) false = true /\
     (0 < nth i (ammo (hooks a)) 0)%Z /\
     (forall j, (j < 3)%nat ->
        nth j (batteries (hooks a)) false = true ->
        (0 < nth j (ammo (hooks a)) 0)%Z ->
        Qabs (x - batteryX (width (stateRef a)) i)
          <= Qabs (x - batteryX (width (stateRef a)) j)) /\
     handleCanvasClick x y a =
       {| hooks := setAmmo (decrement i (ammo (hooks a))) (hooks a);
          stateRef :=
            pushInterceptor
              (InterceptorMissile.new
                 (Point.mk (batteryX (width (stateRef a)) i)
                           (height (stateRef a) - 40))
                 (Point.mk x y))
              (stateRef a) |}) /\
  ((forall i, nth i (batteries (hooks a)) false = false
              \/ (nth i (ammo (hooks a)) 0 <= 0)%Z) ->
     handleCanvasClick x y a = a).
Proof.
  intros Hs Hy. rewrite (handleCanvasClick_playing a x y Hs Hy).
  split; [|split].
  - intros Hb Ha. unfold bestBattery, batteryX. rewrite Hb, Ha. reflexivity.
  - intros i Hsel. rewrite Hsel.
    destruct (bestBattery_canFire a x i Hsel) as [Hfire _].
    unfold canFire in Hfire. apply andb_true_iff in Hfire.
    destruct Hfire as [Halive Hammo]. apply Z.ltb_lt in Hammo.
    repeat split; trivial.
    intros j Hj Hbj Haj. apply (bestBattery_nearest a x i j Hsel Hj).
    unfold canFire. rewrite Hbj. now apply Z.ltb_lt in Haj as ->.
  - intro Hnone. rewrite bestBattery_none; [reflexivity|].
    intro i. unfold canFire. destruct (Hnone i) as [-> | Hle]; [reflexivity|].
    apply andb_false_iff. right. now apply Z.ltb_ge.
Qed.

Lemma fire_picks_nearest_loaded_battery_witness :
  handleCanvasClick 10 100 centreOnlyApp =
    {| hooks := setAmmo [0; 4; 0]%Z (hooks centreOnlyApp);
       stateRef :=
         pushInterceptor
           (InterceptorMissile.new (Point.mk (800 / 2) (600 - 40)) (Point.mk 10 100))
           (stateRef centreOnlyApp) |}.
Proof.
  refine (proj1 (fire_picks_nearest_loaded_battery centreOnlyApp 10 100
                   eq_refl _) eq_refl eq_refl).
  unfold Qle. simpl. lia.
Defined.

(** C3, as stated, fails: the click at (10, 100) is nearest to battery 0,
    which is empty; battery 1 fires, an interceptor is pushed and the
    ammunition becomes [0, 4, 0]. *)
Lemma click_near_empty_battery_fires_centre :
  status (hooks centreOnlyApp) = PLAYING /\
  10 - 40 == -30 /\ Qabs (10 - 40) < Qabs (10 - 800 / 2) /\
  Qabs (10 - 40) < Qabs (10 - (800 - 40)) /\
  length (interceptors (stateRef (handleCanvasClick 10 100 centreOnlyApp))) = 1%nat /\
  interceptors (stateRef (handleCanvasClick 10 100 centreOnlyApp))
    <> interceptors (stateRef centreOnlyApp) /\
  ammo (hooks (handleCanvasClick 10 100 centreOnlyApp)) = [0; 4; 0]%Z /\
  ammo (hooks (handleCanvasClick 10 100 centreOnlyApp))
    <> ammo (hooks centreOnlyApp).
Proof.
  repeat split; try discriminate.
Qed.

(** ** The frame: blasts against enemies *)

Section Collisions.
Context `{MathLib}.

Lemma dist_nonneg (a b : Point.t) : 0 <= dist a b.
Proof. apply Math_sqrt_nonneg. Qed.

Lemma hits_iff (e : Explosion.t) (enemy : EnemyRocket.t) :
  hits e enemy = true <->
  dist (EnemyRocket.pos enemy) (Explosion.pos e) < Explosion.radius e.
Proof. apply Qltb_lt. Qed.

(** A blast that its update removes has a radius of at most 0 and hits
    nothing. *)
Lemma hits_alive (e : Explosion.t) (dt : Q) (enemy : EnemyRocket.t) :
  hits (fst (Explosion.update e dt)) enemy = true ->
  snd (Explosion.update e dt) = true.
Proof.
  intro Hhit. rewrite Explosion_update_alive. apply Qltb_lt.
  apply hits_iff in Hhit.
  pose proof (dist_nonneg (EnemyRocket.pos enemy)
                          (Explosion.pos (fst (Explosion.update e dt)))).
  lra.
Qed.

Lemma caught_cons (dt : Q) (e : Explosion.t) (exps : list Explosion.t)
    (enemy : EnemyRocket.t) :
  caught dt (e :: exps) enemy
    = hits (fst (Explosion.update e dt)) enemy || caught dt exps enemy.
Proof.
  unfold caught. cbn [existsb]. f_equal.
  destruct (hits _ enemy) eqn:Hhit.
  - now rewrite (hits_alive e dt enemy Hhit).
  - apply andb_false_r.
Qed.

(** One blast against the enemies, in closed form. *)
Lemma collide_spec (e : Explosion.t) (es : list EnemyRocket.t) (h : Hooks)
    (destroyed : Z) :
  collide e es h destroyed =
    (filter (fun enemy => negb (hits e enemy)) es,
     setScore (fun s => s + 20 * Z.of_nat (length (filter (hits e) es)))%Z h,
     (destroyed + Z.of_nat (length (filter (hits e) es)))%Z).
Proof.
  revert h destroyed. induction es as [|enemy es IH]; intros h destroyed.
  - cbn [collide filter length]. f_equal; [f_equal|lia].
    destruct h. unfold setScore. cbn [score]. f_equal. lia.
  - cbn [collide filter]. destruct (hits e enemy) eqn:Hhit; cbn [negb]; rewrite IH.
    + cbn [length]. f_equal; [f_equal|lia].
      unfold setScore. cbn [status score round ammo cities batteries].
      f_equal. lia.
    + reflexivity.
Qed.

Lemma filter_caught_split (dt : Q) (e : Explosion.t) (exps : list Explosion.t)
    (es : list EnemyRocket.t) :
  filter (fun enemy => negb (caught dt (e :: exps) enemy)) es
    = filter (fun enemy => negb (caught dt exps enemy))
             (filter (fun enemy => negb (hits (fst (Explosion.update e dt)) enemy)) es)
  /\
  length (filter (caught dt (e :: exps)) es)
    = (length (filter (hits (fst (Explosion.update e dt))) es)
       + length (filter (caught dt exps)
                   (filter (fun enemy => negb (hits (fst (Explosion.update e dt)) enemy)) es)))%nat.
Proof.
  induction es as [|enemy es [IHl IHn]]; [split; reflexivity|].
  cbn [filter]. rewrite caught_cons.
  destruct (hits _ enemy) eqn:Hhit; cbn [orb negb filter length].
  - split; [exact IHl | now rewrite IHn].
  - destruct (caught dt exps enemy); cbn [negb length].
    + split; [exact IHl | rewrite IHn; lia].
    + split; [now rewrite IHl | exact IHn].
Qed.

(** The blast filter in closed form. *)
Lemma updateExplosions_spec (dt : Q) (exps : list Explosion.t)
    (es : list EnemyRocket.t) (h : Hooks) (destroyed : Z) :
  updateExplosions dt exps es h destroyed =
    (map (fun e => fst (Explosion.update e dt))
         (filter (fun e => snd (Explosion.update e dt)) exps),
     filter (fun enemy => negb (caught dt exps enemy)) es,
     setScore (fun s => s + 20 * Z.of_nat (length (filter (caught dt exps) es)))%Z h,
     (destroyed + Z.of_nat (length (filter (caught dt exps) es)))%Z).
Proof.
  revert es h destroyed.
  induction exps as [|e exps IH]; intros es h destroyed.
  - assert (Hnone : filter (caught dt []) es = []) by (induction es; auto).
    assert (Hall : filter (fun enemy => negb (caught dt [] enemy)) es = es)
      by (induction es as [|? ? IHes]; [reflexivity | cbn [filter]; now rewrite IHes]).
    cbn [updateExplosions filter map]. rewrite Hnone, Hall. cbn [length].
    f_equal; [f_equal|lia].
    destruct h. unfold setScore. cbn [score]. f_equal. lia.
  - cbn [updateExplosions filter].
    destruct (filter_caught_split dt e exps es) as [Hl Hn].
    destruct (Explosion.update e dt) as [e' alive] eqn:E.
    cbn [fst snd] in Hl, Hn.
    rewrite collide_spec, IH, Hl, Hn.
    f_equal; [f_equal; [f_equal|]|lia].
    + destruct alive; cbn [snd map]; [now rewrite E|reflexivity].
    + unfold setScore. cbn [status score round ammo cities batteries].
      f_equal. lia.
Qed.
End Collisions.

(** ** The frame: enemies that arrive *)

Section Arrivals.
Context `{MathLib}.

(** The enemy filter in closed form: the survivors, updated; the hits of
    the dead ones resolved in the order of the array; one new blast per
    dead enemy, at its position. *)
Lemma updateEnemies_spec (dt : Q) (es : list EnemyRocket.t) (h : Hooks)
    (exps : list Explosion.t) :
  updateEnemies dt es h exps =
    (map (fun e => fst (EnemyRocket.update e dt))
         (filter (fun e => snd (EnemyRocket.update e dt)) es),
     fold_left (fun h e => resolveHit e h)
               (filter (fun e => negb (snd (EnemyRocket.update e dt))) es) h,
     exps ++ map (fun e => Explosion.new (EnemyRocket.pos e))
                 (filter (fun e => negb (snd (EnemyRocket.update e dt))) es)).
Proof.
  revert h exps. induction es as [|e es IH]; intros h exps.
  - cbn [updateEnemies filter map fold_left]. now rewrite app_nil_r.
  - cbn [updateEnemies filter].
    pose proof (EnemyRocket_update_dead_same e dt) as Hsame.
    destruct (EnemyRocket.update e dt) as [e' alive] eqn:E.
    rewrite IH. destruct alive; cbn [snd negb map fold_left].
    + now rewrite E.
    + cbn [fst snd] in Hsame. rewrite (Hsame eq_refl).
      now rewrite <- app_assoc.
Qed.

Lemma resolveHit_fields (e : EnemyRocket.t) (h : Hooks) :
  status (resolveHit e h) = status h /\ score (resolveHit e h) = score h /\
  round (resolveHit e h) = round h /\ ammo (resolveHit e h) = ammo h.
Proof.
  unfold resolveHit. destruct (EnemyRocket.targetIndex e <? 6)%nat; simpl; auto.
Qed.

Lemma resolveHits_fields (es : list EnemyRocket.t) (h : Hooks) :
  let h' := fold_left (fun h e => resolveHit e h) es h in
  status h' = status h /\ score h' = score h /\
  round h' = round h /\ ammo h' = ammo h.
Proof.
  revert h. induction es as [|e es IH]; intro h; simpl; [auto|].
  destruct (IH (resolveHit e h)) as (Hs & Hsc & Hr & Ha).
  destruct (resolveHit_fields e h) as (Hs' & Hsc' & Hr' & Ha').
  repeat split; congruence.
Qed.

(** A frame while PLAYING or in ROUND_END, in closed form. *)
Lemma loop_active (time : Q) (d : Dice) (a : App) :
  status (hooks a) = PLAYING \/ status (hooks a) = ROUND_END ->
  loop time d a =
    {| hooks :=
         if roundEnded (hooks a) (spawn (hooks a) (frameStep time a) d (frameRef time a))
         then setStatus ROUND_END (frameHooks time a)
         else frameHooks time a;
       stateRef := spawn (hooks a) (frameStep time a) d (frameRef time a) |}.
Proof.
  intro Hs. unfold loop.
  assert (Hactive : GameStatus_eqb (status (hooks a)) PLAYING
                    || GameStatus_eqb (status (hooks a)) ROUND_END = true)
    by (destruct Hs as [-> | ->]; reflexivity).
  rewrite Hactive, updateInterceptors_spec, updateExplosions_spec,
          updateEnemies_spec.
  reflexivity.
Qed.

(** A frame in any other status only records the timestamp. *)
Lemma loop_idle (time : Q) (d : Dice) (a : App) :
  status (hooks a) <> PLAYING -> status (hooks a) <> ROUND_END ->
  hooks (loop time d a) = hooks a /\
  enemies (stateRef (loop time d a)) = enemies (stateRef a) /\
  interceptors (stateRef (loop time d a)) = interceptors (stateRef a) /\
  explosions (stateRef (loop time d a)) = explosions (stateRef a).
Proof.
  intros Hp Hr. unfold loop.
  destruct (status (hooks a)); try contradiction; simpl; auto.
Qed.
End Arrivals.

(** ** The frame: spawning *)

Lemma aliveFrom_In (k i : nat) (l : list bool) :
  In i (map fst (filter snd (combine (seq k (length l)) l))) <->
  (k <= i)%nat /\ nth (i - k) l false = true.
Proof.
  revert k. induction l as [|b l IH]; intro k.
  - simpl. split; [contradiction|]. intros [_ Hnth]. destruct (i - k)%nat; discriminate.
  - cbn [length seq combine filter]. destruct b; cbn [snd map fst In]; rewrite IH.
    + split.
      * intros [<- | [Hk Hnth]].
        -- split; [lia|]. now rewrite Nat.sub_diag.
        -- split; [lia|]. replace (i - k)%nat with (S (i - S k)) by lia. exact Hnth.
      * intros [Hk Hnth]. destruct (Nat.eq_dec k i) as [->|Hne]; [now left|].
        right. split; [lia|].
        replace (i - k)%nat with (S (i - S k)) in Hnth by lia. exact Hnth.
    + split.
      * intros [Hk Hnth]. split; [lia|].
        replace (i - k)%nat with (S (i - S k)) by lia. exact Hnth.
      * intros [Hk Hnth]. destruct (Nat.eq_dec k i) as [->|Hne].
        -- rewrite Nat.sub_diag in Hnth. discriminate.
        -- split; [lia|].
           replace (i - k)%nat with (S (i - S k)) in Hnth by lia. exact Hnth.
Qed.

(** The alive indices of an array are the indices of its true entries. *)
Lemma aliveIndices_In (i : nat) (l : list bool) :
  In i (aliveIndices l) <-> nth i l false = true.
Proof.
  unfold aliveIndices, indexed. rewrite aliveFrom_In, Nat.sub_0_r.
  split; [now intros [_ Hnth] | intro Hnth; split; [lia|exact Hnth]].
Qed.

Lemma nth_true_In (l : list bool) :
  In true l <-> exists i, nth i l false = true.
Proof.
  split.
  - intro Hin. destruct (In_nth l true false Hin) as (i & _ & Hnth). now exists i.
  - intros [i Hnth]. destruct (Nat.lt_ge_cases i (length l)) as [Hlt|Hge].
    + rewrite <- Hnth. now apply nth_In.
    + rewrite nth_overflow in Hnth by exact Hge. discriminate.
Qed.

(** The targets are the alive cities and, shifted by 6, the alive batteries. *)
Lemma availableTargets_In (cities batteries : list bool) (t : nat) :
  In t (availableTargets cities batteries) <->
  nth t cities false = true \/ ((6 <= t)%nat /\ nth (t - 6) batteries false = true).
Proof.
  unfold availableTargets. rewrite in_app_iff, in_map_iff, aliveIndices_In.
  split.
  - intros [Hc | (i & <- & Hi)]; [now left|]. right.
    apply aliveIndices_In in Hi. split; [lia|].
    now replace (i + 6 - 6)%nat with i by lia.
  - intros [Hc | [Ht Hb]]; [now left|]. right. exists (t - 6)%nat.
    split; [lia|]. now apply aliveIndices_In.
Qed.

Lemma availableTargets_some (cities batteries : list bool) :
  In true cities \/ In true batteries ->
  (0 < length (availableTargets cities batteries))%nat.
Proof.
  intro Halive.
  assert (Hin : exists t, In t (availableTargets cities batteries)).
  { destruct Halive as [Hc | Hb].
    - apply nth_true_In in Hc. destruct Hc as [i Hi]. exists i.
      apply availableTargets_In. now left.
    - apply nth_true_In in Hb. destruct Hb as [i Hi]. exists (i + 6)%nat.
      apply availableTargets_In. right. split; [lia|].
      now replace (i + 6 - 6)%nat with i by lia. }
  destruct Hin as [t Ht]. destruct (availableTargets cities batteries); [contradiction|].
  simpl. lia.
Qed.

Lemma availableTargets_none (cities batteries : list bool) :
  ~ In true cities -> ~ In true batteries ->
  availableTargets cities batteries = [].
Proof.
  intros Hc Hb. destruct (availableTargets cities batteries) as [|t l] eqn:E;
    [reflexivity|].
  assert (Hin : In t (availableTargets cities batteries)) by (rewrite E; now left).
  apply availableTargets_In in Hin. exfalso.
  destruct Hin as [Ht | [_ Ht]].
  - apply Hc, nth_true_In. now exists t.
  - apply Hb, nth_true_In. now exists (t - 6)%nat.
Qed.

(** [Math.floor(Math.random() * n)] is an index below [n]. *)
Lemma floorIndex_lt (r : Random) (n : nat) : (0 < n)%nat -> (floorIndex r n < n)%nat.
Proof.
  intro Hn. unfold floorIndex.
  destruct (Random_range r) as [H0 H1].
  set (q := inject_Z (Z.of_nat n)).
  assert (Hq : 0 < q) by (unfold q, Qlt; simpl; lia).
  assert (Hlo : (0 <= Qfloor (r * q))%Z).
  { change 0%Z with (Qfloor 0). apply Qfloor_resp_le. nra. }
  assert (Hhi : (Qfloor (r * q) < Z.of_nat n)%Z).
  { rewrite Zlt_Qlt. apply Qle_lt_trans with (r * q); [apply Qfloor_le|].
    fold q. nra. }
  lia.
Qed.

Lemma spawn_fields (snap : Hooks) (dt : Q) (d : Dice) (s : StateRef) :
  interceptors (spawn snap dt d s) = interceptors s /\
  explosions (spawn snap dt d s) = explosions s /\
  enemiesDestroyed (spawn snap dt d s) = enemiesDestroyed s /\
  lastTime (spawn snap dt d s) = lastTime s.
Proof.
  unfold spawn.
  destruct (GameStatus_eqb (status snap) PLAYING && (0 <? enemiesToSpawn s)%Z);
    [|auto].
  destruct (Qle_bool (spawnTimer s - dt) 0); [|simpl; auto].
  destruct (0 <? length _)%nat; simpl; auto.
Qed.

Lemma spawn_due (snap : Hooks) (dt : Q) (d : Dice) (s : StateRef) :
  status snap = PLAYING -> (0 < enemiesToSpawn s)%Z -> spawnTimer s - dt <= 0 ->
  (In true (cities snap) \/ In true (batteries snap) ->
     enemies (spawn snap dt d s)
       = enemies s ++ [EnemyRocket.new (width s) (height s)
                         (targetXOf (width s) (drawnTarget snap d))
                         (drawnTarget snap d)
                         (inject_Z (40 + round snap * 10)) (launch d)] /\
     enemiesToSpawn (spawn snap dt d s) = (enemiesToSpawn s - 1)%Z /\
     spawnTimer (spawn snap dt d s)
       = 1.5 - Qmin 1 (inject_Z (round snap) * 0.1) + jitter d) /\
  (~ In true (cities snap) -> ~ In true (batteries snap) ->
     enemies (spawn snap dt d s) = enemies s /\
     enemiesToSpawn (spawn snap dt d s) = enemiesToSpawn s /\
     spawnTimer (spawn snap dt d s) = spawnTimer s - dt).
Proof.
  intros Hs Hn Ht. unfold spawn. rewrite Hs.
  apply Z.ltb_lt in Hn. rewrite Hn. apply Qle_bool_iff in Ht. rewrite Ht.
  cbn [GameStatus_eqb andb]. split.
  - intro Halive. apply availableTargets_some, Nat.ltb_lt in Halive.
    rewrite Halive. repeat split.
  - intros Hc Hb. rewrite (availableTargets_none _ _ Hc Hb). repeat split.
Qed.

(** C7: in a frame while PLAYING with enemies left to spawn and a spawn
    timer that the step of the frame brings to 0 or below, if a city or a
    battery is alive then one enemy is pushed, aimed at an alive city
    (index below 6) or battery (index minus 6), built with the nominal speed
    40 + 10 round, of which it stores two thirds; [enemiesToSpawn] decreases
    by one and [spawnTimer] becomes 1.5 - min(1, 0.1 round) + r with r, the
    result of [Math.random()], in [0,1).  If neither a city nor a battery is
    alive the frame completes without a spawn: the enemies are those the
    frame left, [enemiesToSpawn] is unchanged and the timer is only
    decremented. *)
Theorem spawn_event `{MathLib} (time : Q) (d : Dice) (a : App) :
  status (hooks a) = PLAYING ->
  (0 < enemiesToSpawn (stateRef a))%Z ->
  spawnTimer (stateRef a) - frameStep time a <= 0 ->
  (In true (cities (hooks a)) \/ In true (batteries (hooks a)) ->
     let t := drawnTarget (hooks a) d in
     let rocket :=
       EnemyRocket.new (width (stateRef a)) (height (stateRef a))
                       (targetXOf (width (stateRef a)) t) t
                       (inject_Z (40 + round (hooks a) * 10)) (launch d) in
     (nth t (cities (hooks a)) false = true
      \/ ((6 <= t)%nat /\ nth (t - 6) (batteries (hooks a)) false = true)) /\
     enemies (stateRef (loop time d a))
       = enemies (frameRef time a) ++ [rocket] /\
     EnemyRocket.targetIndex rocket = t /\
     EnemyRocket.speed rocket = inject_Z (40 + round (hooks a) * 10) * (2 / 3) /\
     enemiesToSpawn (stateRef (loop time d a))
       = (enemiesToSpawn (stateRef a) - 1)%Z /\
     spawnTimer (stateRef (loop time d a))
       = 1.5 - Qmin 1 (inject_Z (round (hooks a)) * 0.1) + jitter d /\
     0 <= jitter d /\ jitter d < 1) /\
  (~ In true (cities (hooks a)) -> ~ In true (batteries (hooks a)) ->
     enemies (stateRef (loop time d a)) = enemies (frameRef time a) /\
     enemiesToSpawn (stateRef (loop time d a)) = enemiesToSpawn (stateRef a) /\
     spawnTimer (stateRef (loop time d a))
       = spawnTimer (stateRef a) - frameStep time a).
Proof.
  intros Hs Hn Ht.
  rewrite (loop_active time d a (or_introl Hs)). cbn [stateRef].
  destruct (spawn_due (hooks a) (frameStep time a) d (frameRef time a) Hs Hn Ht)
    as [Hsome Hnone].
  split.
  - intro Halive. destruct (Hsome Halive) as (He & Hc & Htimer).
    cbv zeta. split; [|split; [exact He|]].
    + apply availableTargets_In. unfold drawnTarget. apply nth_In.
      now apply floorIndex_lt, availableTargets_some.
    + split; [reflexivity|]. split; [reflexivity|].
      split; [exact Hc|]. split; [exact Htimer|]. apply Random_range.
  - intros Hc Hb. exact (Hnone Hc Hb).
Qed.

Lemma spawn_event_witness :
  enemiesToSpawn (stateRef (@loop IntegerSqrt 16 someDice centreOnlyApp)) = 14%Z /\
  spawnTimer (stateRef (@loop IntegerSqrt 16 someDice centreOnlyApp))
    = 1.5 - Qmin 1 (inject_Z 1 * 0.1) + 0.25 /\
  map EnemyRocket.targetIndex
      (enemies (stateRef (@loop IntegerSqrt 16 someDice centreOnlyApp))) = [4%nat].
Proof.
  assert (Hdue : spawnTimer (stateRef centreOnlyApp) - frameStep 16 centreOnlyApp <= 0)
    by (apply Qle_bool_iff; reflexivity).
  destruct (@spawn_event IntegerSqrt 16 someDice centreOnlyApp eq_refl eq_refl Hdue)
    as [Hsome _].
  destruct (Hsome (or_introl (or_introl eq_refl)))
    as (_ & He & _ & _ & Hn & Ht & _).
  split; [exact Hn|]. split; [exact Ht|]. rewrite He. reflexivity.
Defined.

(** ** The frame as a whole *)

Section Frames.
Context `{MathLib}.

Lemma frameHooks_fields (time : Q) (a : App) :
  status (frameHooks time a) = status (hooks a) /\
  score (frameHooks time a)
    = (score (hooks a) + 20 * frameKills (frameStep time a) a)%Z /\
  round (frameHooks time a) = round (hooks a) /\
  ammo (frameHooks time a) = ammo (hooks a).
Proof.
  unfold frameHooks.
  destruct (resolveHits_fields (frameArrivals (frameStep time a) a)
              (setScore (fun s => s + 20 * frameKills (frameStep time a) a)%Z (hooks a)))
    as (Hs & Hsc & Hr & Ha).
  repeat split; assumption.
Qed.

(** No frame changes the ammunition or the round. *)
Lemma loop_ammo (time : Q) (d : Dice) (a : App) :
  ammo (hooks (loop time d a)) = ammo (hooks a) /\
  round (hooks (loop time d a)) = round (hooks a).
Proof.
  destruct (status (hooks a)) eqn:Hs.
  1, 4, 5: unfold loop; rewrite Hs; simpl; auto.
  - rewrite (loop_active time d a (or_introl Hs)). cbn [hooks].
    destruct (frameHooks_fields time a) as (_ & _ & Hr & Ha).
    destruct (roundEnded _ _); simpl; auto.
  - rewrite (loop_active time d a (or_intror Hs)). cbn [hooks].
    destruct (frameHooks_fields time a) as (_ & _ & Hr & Ha).
    destruct (roundEnded _ _); simpl; auto.
Qed.

(** What a frame does to the score and to the count of destroyed enemies. *)
Lemma loop_score (time : Q) (d : Dice) (a : App) :
  status (hooks a) = PLAYING \/ status (hooks a) = ROUND_END ->
  score (hooks (loop time d a))
    = (score (hooks a) + 20 * frameKills (frameStep time a) a)%Z /\
  enemiesDestroyed (stateRef (loop time d a))
    = (enemiesDestroyed (stateRef a) + frameKills (frameStep time a) a)%Z.
Proof.
  intro Hs. rewrite (loop_active time d a Hs). cbn [hooks stateRef].
  destruct (frameHooks_fields time a) as (_ & Hsc & _ & _).
  destruct (spawn_fields (hooks a) (frameStep time a) d (frameRef time a))
    as (_ & _ & Hd & _).
  split; [destruct (roundEnded _ _); simpl; exact Hsc | exact Hd].
Qed.

Lemma caught_iff (dt : Q) (exps : list Explosion.t) (enemy : EnemyRocket.t) :
  caught dt exps enemy = true <->
  exists e, In e exps /\ snd (Explosion.update e dt) = true /\
            dist (EnemyRocket.pos enemy) (Explosion.pos (fst (Explosion.update e dt)))
              < Explosion.radius (fst (Explosion.update e dt)).
Proof.
  unfold caught. rewrite existsb_exists. split.
  - intros (e & Hin & Hboth). apply andb_true_iff in Hboth.
    destruct Hboth as [Halive Hhit]. exists e. repeat split; trivial.
    now apply hits_iff.
  - intros (e & Hin & Halive & Hhit). exists e. split; [exact Hin|].
    apply andb_true_iff. split; [exact Halive | now apply hits_iff].
Qed.
End Frames.

Section Resolution.
Context `{MathLib}.

Lemma resolveHit_setScore (e : EnemyRocket.t) (f : Z -> Z) (h : Hooks) :
  resolveHit e (setScore f h) = setScore f (resolveHit e h).
Proof.
  unfold resolveHit. destruct (EnemyRocket.targetIndex e <? 6)%nat; reflexivity.
Qed.

Lemma resolveHits_setScore (es : list EnemyRocket.t) (f : Z -> Z) (h : Hooks) :
  fold_left (fun h e => resolveHit e h) es (setScore f h)
    = setScore f (fold_left (fun h e => resolveHit e h) es h).
Proof.
  revert h. induction es as [|e es IH]; intro h; [reflexivity|].
  simpl. now rewrite resolveHit_setScore, IH.
Qed.

Lemma resolveHit_cases (e : EnemyRocket.t) (h : Hooks) :
  ((EnemyRocket.targetIndex e < 6)%nat ->
     cities (resolveHit e h)
       = array_set false (cities h) (EnemyRocket.targetIndex e) false /\
     batteries (resolveHit e h) = batteries h) /\
  ((6 <= EnemyRocket.targetIndex e)%nat ->
     batteries (resolveHit e h)
       = array_set false (batteries h) (EnemyRocket.targetIndex e - 6) false /\
     cities (resolveHit e h) = cities h).
Proof.
  unfold resolveHit.
  destruct (Nat.ltb_spec (EnemyRocket.targetIndex e) 6); split; intro;
    try lia; split; reflexivity.
Qed.

(** The structures and the blasts after a frame. *)
Lemma loop_arrivals (time : Q) (d : Dice) (a : App) :
  status (hooks a) = PLAYING \/ status (hooks a) = ROUND_END ->
  cities (hooks (loop time d a))
    = cities (fold_left (fun h e => resolveHit e h)
                        (frameArrivals (frameStep time a) a) (hooks a)) /\
  batteries (hooks (loop time d a))
    = batteries (fold_left (fun h e => resolveHit e h)
                           (frameArrivals (frameStep time a) a) (hooks a)) /\
  explosions (stateRef (loop time d a))
    = map (fun e => fst (Explosion.update e (frameStep time a)))
          (filter (fun e => snd (Explosion.update e (frameStep time a)))
                  (frameBlasts (frameStep time a) a))
      ++ map (fun e => Explosion.new (EnemyRocket.pos e))
             (frameArrivals (frameStep time a) a).
Proof.
  intro Hs. rewrite (loop_active time d a Hs). cbn [hooks stateRef].
  destruct (spawn_fields (hooks a) (frameStep time a) d (frameRef time a))
    as (_ & He & _ & _).
  rewrite He. unfold frameHooks. rewrite resolveHits_setScore.
  destruct (roundEnded _ _); repeat split.
Qed.
End Resolution.

(** C6: an enemy's update returns [false] exactly when its distance to its
    end point is below 2; for such an enemy the frame marks one structure:
    the city of index [targetIndex] when that is below 6, the batteries
    being left as they are, and otherwise the battery of index
    [targetIndex - 6], the cities being left as they are; the mark sets that
    one entry to false and keeps the others; the enemy is dropped from the
    collection, so that it is resolved once, and a fresh blast is pushed at
    its position. *)
Theorem enemy_arrival_marks_its_target `{MathLib} :
  (forall (e : EnemyRocket.t) (dt : Q),
      snd (EnemyRocket.update e dt) = false <->
      dist (EnemyRocket.end_ e) (EnemyRocket.pos e) < 2) /\
  (forall (e : EnemyRocket.t) (h : Hooks),
      ((EnemyRocket.targetIndex e < 6)%nat ->
         cities (resolveHit e h)
           = array_set false (cities h) (EnemyRocket.targetIndex e) false /\
         batteries (resolveHit e h) = batteries h) /\
      ((6 <= EnemyRocket.targetIndex e)%nat ->
         batteries (resolveHit e h)
           = array_set false (batteries h) (EnemyRocket.targetIndex e - 6) false /\
         cities (resolveHit e h) = cities h)) /\
  (forall (l : list bool) (i : nat),
      (i < length l)%nat ->
      length (array_set false l i false) = length l /\
      nth i (array_set false l i false) true = false /\
      forall j, j <> i -> nth j (array_set false l i false) true = nth j l true) /\
  (forall (dt : Q) (es : list EnemyRocket.t) (h : Hooks) (exps : list Explosion.t),
      let dead := filter (fun e => negb (snd (EnemyRocket.update e dt))) es in
      let alive := filter (fun e => snd (EnemyRocket.update e dt)) es in
      updateEnemies dt es h exps =
        (map (fun e => fst (EnemyRocket.update e dt)) alive,
         fold_left (fun h e => resolveHit e h) dead h,
         exps ++ map (fun e => {| Explosion.pos := EnemyRocket.pos e;
                                  Explosion.radius := 0;
                                  Explosion.maxRadius := 45;
                                  Explosion.growing := true;
                                  Explosion.speed := 60 |}) dead)) /\
  (forall (time : Q) (d : Dice) (a : App),
      status (hooks a) = PLAYING \/ status (hooks a) = ROUND_END ->
      cities (hooks (loop time d a))
        = cities (fold_left (fun h e => resolveHit e h)
                            (frameArrivals (frameStep time a) a) (hooks a)) /\
      batteries (hooks (loop time d a))
        = batteries (fold_left (fun h e => resolveHit e h)
                               (frameArrivals (frameStep time a) a) (hooks a)) /\
      explosions (stateRef (loop time d a))
        = map (fun e => fst (Explosion.update e (frameStep time a)))
              (filter (fun e => snd (Explosion.update e (frameStep time a)))
                      (frameBlasts (frameStep time a) a))
          ++ map (fun e => Explosion.new (EnemyRocket.pos e))
                 (frameArrivals (frameStep time a) a)).
Proof.
  split; [exact EnemyRocket_update_dead|]. split; [exact resolveHit_cases|].
  split; [intros l i; apply array_set_inside|].
  split; [exact updateEnemies_spec | exact loop_arrivals].
Qed.

Lemma enemy_arrival_marks_its_target_witness :
  cities (hooks (@loop IntegerSqrt 100 someDice arrivalApp)) = repeat true 6 /\
  batteries (hooks (@loop IntegerSqrt 100 someDice arrivalApp)) = [true; false; true] /\
  explosions (stateRef (@loop IntegerSqrt 100 someDice arrivalApp))
    = [Explosion.new (Point.mk 400 559)] /\
  enemies (stateRef (@loop IntegerSqrt 100 someDice arrivalApp)) = [].
Proof.
  destruct (proj2 (proj2 (proj2 (proj2 (@enemy_arrival_marks_its_target IntegerSqrt))))
              100 someDice arrivalApp (or_introl eq_refl)) as (Hc & Hb & He).
  split; [exact Hc|]. split; [exact Hb|]. split; [exact He | reflexivity].
Defined.

(** ** Ammunition *)

(** What a click does to the ammunition: nothing, or one unit less for the
    battery chosen, whose count was positive. *)
Lemma handleCanvasClick_ammo (x y : Q) (a : App) :
  ammo (hooks (handleCanvasClick x y a)) = ammo (hooks a) \/
  exists i, (i < 3)%nat /\ bestBattery a x = Some i /\
            nth i (batteries (hooks a)) false = true /\
            (0 < nth i (ammo (hooks a)) 0)%Z /\
            ammo (hooks (handleCanvasClick x y a)) = decrement i (ammo (hooks a)).
Proof.
  unfold handleCanvasClick.
  destruct (negb (GameStatus_eqb (status (hooks a)) PLAYING)); [now left|].
  destruct (Qltb (height (stateRef a) - 60) y); [now left|].
  destruct (bestBattery a x) as [i|] eqn:Hsel; [|now left].
  right. exists i. destruct (bestBattery_canFire a x i Hsel) as [Hfire Hi].
  unfold canFire in Hfire. apply andb_true_iff in Hfire.
  destruct Hfire as [Halive Hammo]. apply Z.ltb_lt in Hammo.
  repeat split; trivial.
Qed.

Lemma handleCanvasClick_ammo_ok (x y : Q) (a : App) :
  ammo_ok (hooks a) -> ammo_ok (hooks (handleCanvasClick x y a)).
Proof.
  intros [Hlen Hpos]. unfold ammo_ok.
  destruct (handleCanvasClick_ammo x y a) as [-> | (i & _ & _ & _ & Hi & ->)];
    [now split|].
  split; [now rewrite decrement_length | now apply decrement_nonneg].
Qed.

Lemma initial_ammo_ok (h : Hooks) : ammo h = INITIAL_AMMO -> ammo_ok h.
Proof.
  intro Ha. unfold ammo_ok. rewrite Ha. split; [reflexivity|].
  repeat constructor; discriminate.
Qed.

Lemma commit_ammo (a : App) : ammo (hooks (commit a)) = ammo (hooks a).
Proof. apply winLossEffect_fields. Qed.

Section Ammunition.
Context `{MathLib}.

Lemma step_ammo_ok (a a' : App) :
  step a a' -> ammo_ok (hooks a) -> ammo_ok (hooks a').
Proof.
  intros Hstep Hok. unfold ammo_ok in *.
  destruct Hstep; try rewrite commit_ammo.
  - exact Hok.
  - now apply initial_ammo_ok.
  - now apply initial_ammo_ok.
  - now apply handleCanvasClick_ammo_ok.
  - now rewrite (proj1 (loop_ammo time d a)).
Qed.

Lemma reachable_ammo_ok (a : App) : reachable a -> ammo_ok (hooks a).
Proof.
  induction 1 as [|a a' _ IH Hstep].
  - now apply initial_ammo_ok.
  - exact (step_ammo_ok a a' Hstep IH).
Qed.
End Ammunition.


(** A game that has been started on an 800 by 600 canvas. *)
Lemma started_reachable :
  @reachable IntegerSqrt (commit (startGame (resize 800 600 initialApp))).
Proof.
  eapply reachable_step; [eapply reachable_step; [apply reachable_initial|]|].
  - apply (step_resize 800 600).
  - now apply step_startGame.
Defined.


Lemma update_false_leaves_projectile_witness :
  fst (@EnemyRocket.update IntegerSqrt arrivingRocket 0.1) = arrivingRocket /\
  fst (@InterceptorMissile.update IntegerSqrt arrivingInterceptor 0.1)
    = arrivingInterceptor.
Proof.
  split.
  - exact (proj1 (proj1 (@update_false_leaves_projectile IntegerSqrt)
                        arrivingRocket 0.1 eq_refl)).
  - exact (proj1 (proj2 (@update_false_leaves_projectile IntegerSqrt)
                        arrivingInterceptor 0.1 eq_refl)).
Defined.

(** * Further properties of the component *)

(** ** What a click leaves alone *)

Lemma sumZ_from (l : list Z) (k : Z) : fold_left Z.add l k = (k + sumZ l)%Z.
Proof.
  unfold sumZ. revert k. induction l as [|v l IH]; intro k; simpl; [lia|].
  rewrite IH, (IH v). lia.
Qed.

Lemma sumZ_cons (v : Z) (l : list Z) : sumZ (v :: l) = (v + sumZ l)%Z.
Proof. unfold sumZ at 1. simpl. apply sumZ_from. Qed.

Lemma sumZ_decrement (i : nat) (l : list Z) :
  (i < length l)%nat -> sumZ (decrement i l) = (sumZ l - 1)%Z.
Proof.
  revert i. induction l as [|v l IH]; intros i Hi; simpl in Hi; [lia|].
  destruct i as [|i].
  - unfold decrement. simpl. rewrite !sumZ_cons. lia.
  - assert (Hd : decrement (S i) (v :: l) = v :: decrement i l) by reflexivity.
    rewrite Hd, !sumZ_cons, IH by lia. lia.
Qed.

Lemma sumZ_nonneg (l : list Z) :
  Forall (fun n => 0 <= n)%Z l -> (0 <= sumZ l)%Z.
Proof.
  induction 1 as [|v l Hv _ IH]; [reflexivity|]. rewrite sumZ_cons. lia.
Qed.

(** A click in closed form: the state as it was, or one interceptor more and
    one unit of ammunition less. *)
Lemma handleCanvasClick_cases (x y : Q) (a : App) :
  handleCanvasClick x y a = a \/
  exists i, (i < 3)%nat /\ bestBattery a x = Some i /\
            status (hooks a) = PLAYING /\ y <= height (stateRef a) - 60 /\
            (0 < nth i (ammo (hooks a)) 0)%Z /\
            handleCanvasClick x y a =
              {| hooks := setAmmo (decrement i (ammo (hooks a))) (hooks a);
                 stateRef :=
                   pushInterceptor
                     (InterceptorMissile.new
                        (Point.mk (batteryX (width (stateRef a)) i)
                                  (height (stateRef a) - 40))
                        (Point.mk x y))
                     (stateRef a) |}.
Proof.
  unfold handleCanvasClick.
  destruct (GameStatus_eqb (status (hooks a)) PLAYING) eqn:Hs; [|now left].
  apply GameStatus_eqb_eq in Hs. cbn [negb].
  destruct (Qltb (height (stateRef a) - 60) y) eqn:Hy; [now left|].
  apply Qltb_ge in Hy.
  destruct (bestBattery a x) as [i|] eqn:Hsel; [|now left].
  right. exists i. destruct (bestBattery_canFire a x i Hsel) as [Hfire Hi].
  unfold canFire in Hfire. apply andb_true_iff in Hfire.
  destruct Hfire as [_ Hammo]. apply Z.ltb_lt in Hammo.
  repeat split; trivial.
Qed.

Lemma nth_positive_inside (i : nat) (l : list Z) :
  (0 < nth i l 0)%Z -> (i < length l)%nat.
Proof.
  intro Hpos. destruct (Nat.lt_ge_cases i (length l)) as [Hlt|Hge]; [exact Hlt|].
  rewrite nth_overflow in Hpos by exact Hge. lia.
Qed.

(** X1: a click keeps the sum of the ammunition plus the number of
    interceptors in flight: either nothing changes, or one interceptor is
    appended, built from the chosen battery to the click with speed 400, and
    the ammunition sums to one less.  A click below the playable band, or in
    a status other than PLAYING, changes nothing.  No click changes the
    status, the score, the round, the cities, the batteries, the enemies or
    the blasts. *)
Theorem click_trades_ammo_for_interceptor (x y : Q) (a : App) :
  (sumZ (ammo (hooks (handleCanvasClick x y a)))
   + Z.of_nat (length (interceptors (stateRef (handleCanvasClick x y a)))))%Z
    = (sumZ (ammo (hooks a)) + Z.of_nat (length (interceptors (stateRef a))))%Z /\
  (interceptors (stateRef (handleCanvasClick x y a)) = interceptors (stateRef a)
   \/ exists m,
        interceptors (stateRef (handleCanvasClick x y a))
          = interceptors (stateRef a) ++ [m] /\
        InterceptorMissile.target m = Point.mk x y /\
        InterceptorMissile.pos m = InterceptorMissile.start m /\
        InterceptorMissile.speed m = 400 /\
        sumZ (ammo (hooks (handleCanvasClick x y a))) = (sumZ (ammo (hooks a)) - 1)%Z) /\
  (status (hooks a) <> PLAYING \/ height (stateRef a) - 60 < y ->
     handleCanvasClick x y a = a) /\
  status (hooks (handleCanvasClick x y a)) = status (hooks a) /\
  score (hooks (handleCanvasClick x y a)) = score (hooks a) /\
  round (hooks (handleCanvasClick x y a)) = round (hooks a) /\
  cities (hooks (handleCanvasClick x y a)) = cities (hooks a) /\
  batteries (hooks (handleCanvasClick x y a)) = batteries (hooks a) /\
  enemies (stateRef (handleCanvasClick x y a)) = enemies (stateRef a) /\
  explosions (stateRef (handleCanvasClick x y a)) = explosions (stateRef a).
Proof.
  destruct (handleCanvasClick_cases x y a)
    as [Hsame | (i & Hi & Hsel & Hs & Hy & Hpos & Hfire)].
  - rewrite Hsame. repeat split; auto.
  - assert (Hsum : sumZ (decrement i (ammo (hooks a))) = (sumZ (ammo (hooks a)) - 1)%Z)
      by (apply sumZ_decrement, nth_positive_inside, Hpos).
    rewrite Hfire. cbn [hooks stateRef setAmmo pushInterceptor ammo interceptors
                        status score round cities batteries enemies explosions].
    split; [rewrite Hsum, length_app; simpl; lia|].
    split; [right; eexists; repeat split; exact Hsum|].
    split; [|repeat split].
    intros [Hns | Hlow]; [contradiction | lra].
Qed.

Lemma click_trades_ammo_for_interceptor_witness :
  handleCanvasClick 10 590 centreOnlyApp = centreOnlyApp.
Proof.
  refine (proj1 (proj2 (proj2 (click_trades_ammo_for_interceptor 10 590 centreOnlyApp)))
                (or_intror _)).
  reflexivity.
Defined.

(** X2: a frame in a status other than PLAYING and ROUND_END records its
    timestamp and changes nothing else, a click in such a status changes
    nothing, and the win/loss effect changes nothing in any status other
    than PLAYING: START, GAME_OVER and WIN are left only by [startGame]. *)
Theorem idle_statuses_are_frozen `{MathLib} (time : Q) (d : Dice) (x y : Q) (a : App) :
  status (hooks a) <> PLAYING -> status (hooks a) <> ROUND_END ->
  loop time d a =
    {| hooks := hooks a;
       stateRef :=
         {| enemies := enemies (stateRef a);
            interceptors := interceptors (stateRef a);
            explosions := explosions (stateRef a);
            lastTime := time;
            spawnTimer := spawnTimer (stateRef a);
            enemiesToSpawn := enemiesToSpawn (stateRef a);
            enemiesDestroyed := enemiesDestroyed (stateRef a);
            roundActive := roundActive (stateRef a);
            width := width (stateRef a); height := height (stateRef a) |} |} /\
  handleCanvasClick x y a = a /\
  hooks (commit (loop time d a)) = hooks a /\
  commit a = a.
Proof.
  intros Hp Hr.
  assert (Hloop : loop time d a =
    {| hooks := hooks a;
       stateRef :=
         {| enemies := enemies (stateRef a);
            interceptors := interceptors (stateRef a);
            explosions := explosions (stateRef a);
            lastTime := time;
            spawnTimer := spawnTimer (stateRef a);
            enemiesToSpawn := enemiesToSpawn (stateRef a);
            enemiesDestroyed := enemiesDestroyed (stateRef a);
            roundActive := roundActive (stateRef a);
            width := width (stateRef a); height := height (stateRef a) |} |}).
  { unfold loop. destruct (status (hooks a)); try contradiction; reflexivity. }
  assert (Heff : winLossEffect (hooks a) = hooks a).
  { unfold winLossEffect. destruct (status (hooks a)); try contradiction; reflexivity. }
  split; [exact Hloop|]. split; [|split].
  - unfold handleCanvasClick. destruct (status (hooks a)); try contradiction; reflexivity.
  - rewrite Hloop. exact Heff.
  - destruct a as [h s]. unfold commit. cbn [hooks stateRef] in *. now rewrite Heff.
Qed.

Lemma idle_statuses_are_frozen_witness :
  handleCanvasClick 10 100 initialApp = initialApp /\
  hooks (commit (@loop IntegerSqrt 16 someDice initialApp)) = hooks initialApp.
Proof.
  destruct (@idle_statuses_are_frozen IntegerSqrt 16 someDice 10 100 initialApp)
    as (_ & Hclick & Hframe & _); [discriminate | discriminate |].
  split; [exact Hclick | exact Hframe].
Defined.

(** X3: an interceptor leaves from the point that enemy rockets aimed at its
    battery fly to: for a click that battery [i] answers, the start of the
    new interceptor is the end point of a rocket built by the spawning block
    for the target index [i + 6], on the same canvas. *)
Theorem interceptor_leaves_from_rocket_end_point (x y : Q) (a : App) (i : nat)
    (speed : Q) (r : Random) :
  status (hooks a) = PLAYING -> y <= height (stateRef a) - 60 ->
  bestBattery a x = Some i ->
  exists m,
    interceptors (stateRef (handleCanvasClick x y a))
      = interceptors (stateRef a) ++ [m] /\
    InterceptorMissile.start m
      = EnemyRocket.end_
          (EnemyRocket.new (width (stateRef a)) (height (stateRef a))
                           (targetXOf (width (stateRef a)) (i + 6)) (i + 6) speed r).
Proof.
  intros Hs Hy Hsel. rewrite (handleCanvasClick_playing a x y Hs Hy), Hsel.
  destruct (bestBattery_canFire a x i Hsel) as [_ Hi].
  eexists. split; [reflexivity|].
  destruct i as [|[|[|i]]]; try lia; reflexivity.
Qed.

Lemma interceptor_leaves_from_rocket_end_point_witness :
  exists m,
    interceptors (stateRef (handleCanvasClick 10 100 centreOnlyApp)) = [m] /\
    InterceptorMissile.start m
      = EnemyRocket.end_ (EnemyRocket.new 800 600 (targetXOf 800 7) 7 50 half).
Proof.
  refine (interceptor_leaves_from_rocket_end_point 10 100 centreOnlyApp 1 50 half
            eq_refl _ eq_refl).
  apply Qle_bool_iff. reflexivity.
Defined.

(** ** Invariants of the runs *)

Lemma spawn_cases (snap : Hooks) (dt : Q) (d : Dice) (s : StateRef) :
  (enemies (spawn snap dt d s) = enemies s /\
   enemiesToSpawn (spawn snap dt d s) = enemiesToSpawn s) \/
  (status snap = PLAYING /\ (0 < enemiesToSpawn s)%Z /\
   In (drawnTarget snap d) (availableTargets (cities snap) (batteries snap)) /\
   enemies (spawn snap dt d s)
     = enemies s ++ [EnemyRocket.new (width s) (height s)
                       (targetXOf (width s) (drawnTarget snap d))
                       (drawnTarget snap d)
                       (inject_Z (40 + round snap * 10)) (launch d)] /\
   enemiesToSpawn (spawn snap dt d s) = (enemiesToSpawn s - 1)%Z).
Proof.
  unfold spawn.
  destruct (GameStatus_eqb (status snap) PLAYING) eqn:Hs; [|now left].
  destruct (Z.ltb_spec 0 (enemiesToSpawn s)) as [Hn|Hn]; [|now left].
  cbn [andb]. destruct (Qle_bool (spawnTimer s - dt) 0); [|now left].
  destruct (Nat.ltb_spec 0 (length (availableTargets (cities snap) (batteries snap))))
    as [Hlen|Hlen]; [|now left].
  right. apply GameStatus_eqb_eq in Hs. repeat split; trivial.
  unfold drawnTarget. apply nth_In. now apply floorIndex_lt.
Qed.

Lemma spawn_idle (snap : Hooks) (dt : Q) (d : Dice) (s : StateRef) :
  status snap <> PLAYING -> spawn snap dt d s = s.
Proof.
  intro Hs. unfold spawn.
  destruct (GameStatus_eqb (status snap) PLAYING) eqn:E; [|reflexivity].
  apply GameStatus_eqb_eq in E. contradiction.
Qed.

Lemma array_set_length_inside {A : Type} (hole : A) (l : list A) (i : nat) (v : A) :
  (i < length l)%nat -> length (array_set hole l i v) = length l.
Proof. intro Hi. now destruct (array_set_inside hole l i v v Hi). Qed.

(** A write of [false] never turns an entry to true, in range or past the
    end, where the holes read as false. *)
Lemma array_set_false_mono (l : list bool) (i j : nat) :
  nth j (array_set false l i false) false = true -> nth j l false = true.
Proof.
  unfold array_set. destruct (Nat.ltb_spec i (length l)) as [Hi|Hi].
  - destruct (Nat.eq_dec j i) as [->|Hne].
    + destruct (array_set_inside false l i false false Hi) as (_ & Hnth & _).
      unfold array_set in Hnth. destruct (Nat.ltb_spec i (length l)); [|lia].
      rewrite Hnth. discriminate.
    + destruct (array_set_inside false l i false false Hi) as (_ & _ & Hother).
      unfold array_set in Hother. destruct (Nat.ltb_spec i (length l)); [|lia].
      now rewrite (Hother j Hne).
  - intro Hnth. destruct (Nat.lt_ge_cases j (length l)) as [Hj|Hj].
    + now rewrite app_nth1 in Hnth by exact Hj.
    + rewrite app_nth2 in Hnth by exact Hj. exfalso.
      assert (Hall : forall k, nth k (repeat false (i - length l) ++ [false]) false = false).
      { intro k. induction (i - length l)%nat as [|n IHn] in k |- *; simpl.
        - destruct k as [|[|k]]; reflexivity.
        - destruct k; [reflexivity|apply IHn]. }
      rewrite Hall in Hnth. discriminate.
Qed.

Lemma resolveHit_mono (e : EnemyRocket.t) (h : Hooks) (j : nat) :
  (nth j (cities (resolveHit e h)) false = true -> nth j (cities h) false = true) /\
  (nth j (batteries (resolveHit e h)) false = true -> nth j (batteries h) false = true).
Proof.
  unfold resolveHit. destruct (EnemyRocket.targetIndex e <? 6)%nat;
    cbn [setCities setBatteries cities batteries]; split; auto;
    apply array_set_false_mono.
Qed.

Lemma resolveHits_mono (es : list EnemyRocket.t) (h : Hooks) (j : nat) :
  (nth j (cities (fold_left (fun h e => resolveHit e h) es h)) false = true ->
   nth j (cities h) false = true) /\
  (nth j (batteries (fold_left (fun h e => resolveHit e h) es h)) false = true ->
   nth j (batteries h) false = true).
Proof.
  revert h. induction es as [|e es IH]; intro h; [simpl; auto|].
  cbn [fold_left]. destruct (IH (resolveHit e h)) as [Hc Hb].
  destruct (resolveHit_mono e h j) as [Hc' Hb']. split; auto.
Qed.

Lemma resolveHit_lengths (e : EnemyRocket.t) (h : Hooks) :
  (EnemyRocket.targetIndex e < 9)%nat ->
  length (cities h) = 6%nat -> length (batteries h) = 3%nat ->
  length (cities (resolveHit e h)) = 6%nat /\
  length (batteries (resolveHit e h)) = 3%nat.
Proof.
  intros Ht Hc Hb. unfold resolveHit.
  destruct (Nat.ltb_spec (EnemyRocket.targetIndex e) 6) as [Hlt|Hge];
    cbn [setCities setBatteries cities batteries].
  - rewrite array_set_length_inside by lia. auto.
  - rewrite array_set_length_inside by lia. auto.
Qed.

Lemma resolveHits_lengths (es : list EnemyRocket.t) (h : Hooks) :
  Forall (fun e => (EnemyRocket.targetIndex e < 9)%nat) es ->
  length (cities h) = 6%nat -> length (batteries h) = 3%nat ->
  length (cities (fold_left (fun h e => resolveHit e h) es h)) = 6%nat /\
  length (batteries (fold_left (fun h e => resolveHit e h) es h)) = 3%nat.
Proof.
  intro Hes. revert h. induction Hes as [|e es He _ IH]; intros h Hc Hb; [auto|].
  cbn [fold_left]. destruct (resolveHit_lengths e h He Hc Hb) as [Hc' Hb'].
  now apply IH.
Qed.

(** A target drawn among the alive structures of a six-and-three layout is
    one of the nine. *)
Lemma availableTargets_below_9 (cs bs : list bool) (t : nat) :
  length cs = 6%nat -> length bs = 3%nat ->
  In t (availableTargets cs bs) -> (t < 9)%nat.
Proof.
  intros Hc Hb Hin. apply availableTargets_In in Hin.
  destruct Hin as [Ht | [H6 Ht]].
  - destruct (Nat.lt_ge_cases t (length cs)) as [Hlt|Hge]; [lia|].
    rewrite nth_overflow in Ht by exact Hge. discriminate.
  - destruct (Nat.lt_ge_cases (t - 6) (length bs)) as [Hlt|Hge]; [lia|].
    rewrite nth_overflow in Ht by exact Hge. discriminate.
Qed.

Section FrameFacts.
Context `{MathLib}.

Lemma EnemyRocket_update_fields (e : EnemyRocket.t) (dt : Q) :
  EnemyRocket.start (fst (EnemyRocket.update e dt)) = EnemyRocket.start e /\
  EnemyRocket.end_ (fst (EnemyRocket.update e dt)) = EnemyRocket.end_ e /\
  EnemyRocket.speed (fst (EnemyRocket.update e dt)) = EnemyRocket.speed e /\
  EnemyRocket.targetIndex (fst (EnemyRocket.update e dt)) = EnemyRocket.targetIndex e.
Proof.
  unfold EnemyRocket.update. destruct (Qltb _ 2); simpl; auto.
Qed.

Lemma frameEnemies_incl (dt : Q) (a : App) (e : EnemyRocket.t) :
  In e (frameEnemies dt a) -> In e (enemies (stateRef a)).
Proof. unfold frameEnemies. intro Hin. now apply filter_In in Hin. Qed.

Lemma frameArrivals_incl (dt : Q) (a : App) (e : EnemyRocket.t) :
  In e (frameArrivals dt a) -> In e (enemies (stateRef a)).
Proof.
  unfold frameArrivals. intro Hin. apply filter_In in Hin.
  now apply frameEnemies_incl with dt.
Qed.

Lemma frameRef_enemies_targets (time : Q) (a : App) :
  Forall (fun e => (EnemyRocket.targetIndex e < 9)%nat) (enemies (stateRef a)) ->
  Forall (fun e => (EnemyRocket.targetIndex e < 9)%nat) (enemies (frameRef time a)).
Proof.
  intro Hall. cbn [frameRef enemies]. apply Forall_forall. intros e Hin.
  apply in_map_iff in Hin. destruct Hin as (e0 & <- & Hin0).
  apply filter_In in Hin0. destruct Hin0 as [Hin0 _].
  apply frameEnemies_incl in Hin0.
  rewrite (proj2 (proj2 (proj2 (EnemyRocket_update_fields e0 (frameStep time a))))).
  revert e0 Hin0. now apply Forall_forall.
Qed.

Lemma frameRef_enemies_length (time : Q) (a : App) :
  (length (enemies (frameRef time a)) <= length (enemies (stateRef a)))%nat.
Proof.
  cbn [frameRef enemies]. rewrite length_map.
  etransitivity; [apply filter_length_le|]. apply filter_length_le.
Qed.

Lemma loop_layout (time : Q) (d : Dice) (a : App) :
  layout_ok a -> layout_ok (loop time d a).
Proof.
  intros (Hc & Hb & Hes). unfold layout_ok.
  destruct (status (hooks a)) eqn:Hs.
  1, 4, 5: unfold loop; rewrite Hs; cbn; auto.
  all: assert (Hact : status (hooks a) = PLAYING \/ status (hooks a) = ROUND_END)
         by (rewrite Hs; auto).
  all: destruct (loop_arrivals time d a Hact) as (Hc' & Hb' & _);
       rewrite Hc', Hb'.
  all: assert (Harr : Forall (fun e => (EnemyRocket.targetIndex e < 9)%nat)
                             (frameArrivals (frameStep time a) a))
         by (apply Forall_forall; intros e Hin;
             apply frameArrivals_incl in Hin; revert e Hin; now apply Forall_forall).
  all: destruct (resolveHits_lengths _ (hooks a) Harr Hc Hb) as [Hc2 Hb2].
  all: split; [exact Hc2|]; split; [exact Hb2|].
  all: rewrite (loop_active time d a Hact); cbn [stateRef].
  all: pose proof (frameRef_enemies_targets time a Hes) as Hfr.
  all: destruct (spawn_cases (hooks a) (frameStep time a) d (frameRef time a))
         as [[-> _] | (_ & _ & Hin & -> & _)]; [exact Hfr|].
  all: apply Forall_app; split; [exact Hfr|]; constructor; [|constructor].
  all: cbn [EnemyRocket.new EnemyRocket.targetIndex].
  all: exact (availableTargets_below_9 _ _ _ Hc Hb Hin).
Qed.
End FrameFacts.

Section RunInvariants.
Context `{MathLib}.

(** What a frame does to the counters, in any status. *)
Lemma loop_counters (time : Q) (d : Dice) (a : App) :
  round (hooks (loop time d a)) = round (hooks a) /\
  (exists k : nat, score (hooks (loop time d a)) = (score (hooks a) + 20 * Z.of_nat k)%Z /\
                   enemiesDestroyed (stateRef (loop time d a))
                     = (enemiesDestroyed (stateRef a) + Z.of_nat k)%Z /\
                   (k <= length (enemies (stateRef a)))%nat) /\
  (enemiesToSpawn (stateRef (loop time d a)) = enemiesToSpawn (stateRef a) \/
   ((0 < enemiesToSpawn (stateRef a))%Z /\
    enemiesToSpawn (stateRef (loop time d a)) = (enemiesToSpawn (stateRef a) - 1)%Z)).
Proof.
  split; [apply loop_ammo|].
  destruct (status (hooks a)) eqn:Hs.
  1, 4, 5: unfold loop; rewrite Hs; cbn; split; [exists 0%nat; cbn; split; [|split]; lia | now left].
  all: assert (Hact : status (hooks a) = PLAYING \/ status (hooks a) = ROUND_END)
         by (rewrite Hs; auto).
  all: destruct (loop_score time d a Hact) as [Hsc Hd]; split;
       [exists (length (filter (caught (frameStep time a) (frameBlasts (frameStep time a) a))
                               (enemies (stateRef a))));
        split; [exact Hsc|]; split; [exact Hd | apply filter_length_le] |].
  all: rewrite (loop_active time d a Hact); cbn [stateRef].
  all: destruct (spawn_cases (hooks a) (frameStep time a) d (frameRef time a))
         as [[_ Hn] | (_ & Hpos & _ & _ & Hn)]; [left; exact Hn | right; split; assumption].
Qed.

(** What a frame does to the status and to the wave. *)
Lemma loop_status (time : Q) (d : Dice) (a : App) :
  (status (hooks a) = PLAYING ->
     (status (hooks (loop time d a)) = ROUND_END /\
      enemiesToSpawn (stateRef (loop time d a)) = 0%Z /\
      enemies (stateRef (loop time d a)) = [])
     \/ (status (hooks (loop time d a)) = PLAYING /\
         ~ (enemiesToSpawn (stateRef (loop time d a)) = 0%Z /\
            enemies (stateRef (loop time d a)) = []))) /\
  (status (hooks a) = ROUND_END ->
     status (hooks (loop time d a)) = ROUND_END /\
     enemiesToSpawn (stateRef (loop time d a)) = enemiesToSpawn (stateRef a) /\
     (enemies (stateRef a) = [] -> enemies (stateRef (loop time d a)) = [])) /\
  (status (hooks a) <> PLAYING -> status (hooks a) <> ROUND_END ->
     status (hooks (loop time d a)) = status (hooks a)).
Proof.
  split; [|split].
  - intro Hs. rewrite (loop_active time d a (or_introl Hs)). cbn [hooks stateRef].
    destruct (frameHooks_fields time a) as (Hst & _).
    set (s := spawn (hooks a) (frameStep time a) d (frameRef time a)).
    unfold roundEnded. rewrite Hs. cbn [GameStatus_eqb andb].
    destruct (Z.eqb_spec (enemiesToSpawn s) 0) as [Hn|Hn]; cbn [andb].
    + destruct (enemies s) as [|e es] eqn:He; cbn [length Nat.eqb].
      * left. repeat split; assumption.
      * right. split; [congruence|]. intros [_ Hnil]. discriminate.
    + right. split; [congruence|]. intros [Hz _]. contradiction.
  - intro Hs. rewrite (loop_active time d a (or_intror Hs)). cbn [hooks stateRef].
    destruct (frameHooks_fields time a) as (Hst & _).
    rewrite spawn_idle by (rewrite Hs; discriminate).
    unfold roundEnded. rewrite Hs. cbn [GameStatus_eqb andb].
    split; [congruence|]. split; [reflexivity|].
    intro Hnil. cbn [frameRef enemies]. unfold frameEnemies. rewrite Hnil. reflexivity.
  - intros Hp Hr. destruct (loop_idle time d a Hp Hr) as (Hh & _). now rewrite Hh.
Qed.

Lemma commit_fields (a : App) :
  stateRef (commit a) = stateRef a /\
  score (hooks (commit a)) = score (hooks a) /\
  round (hooks (commit a)) = round (hooks a) /\
  ammo (hooks (commit a)) = ammo (hooks a) /\
  cities (hooks (commit a)) = cities (hooks a) /\
  batteries (hooks (commit a)) = batteries (hooks a).
Proof.
  split; [reflexivity|]. apply winLossEffect_fields.
Qed.

(** The status after the effect: as it was, or WIN or GAME_OVER for the
    reason the effect tests, from PLAYING only. *)
Lemma commit_status (a : App) :
  status (hooks (commit a)) = status (hooks a) \/
  (status (hooks a) = PLAYING /\
   ((status (hooks (commit a)) = WIN /\ (1000 <= score (hooks a))%Z) \/
    (status (hooks (commit a)) = GAME_OVER /\
     forallb negb (batteries (hooks a)) = true))).
Proof.
  cbn [commit hooks]. unfold winLossEffect, WIN_SCORE.
  destruct (GameStatus_eqb (status (hooks a)) PLAYING) eqn:Hs; [|now left].
  apply GameStatus_eqb_eq in Hs.
  destruct (forallb negb (batteries (hooks a))) eqn:Hb.
  - right. split; [exact Hs|]. right.
    destruct (1000 <=? score (hooks a))%Z; auto.
  - destruct (Z.leb_spec 1000 (score (hooks a))) as [Hw|Hw]; [|now left].
    right. split; [exact Hs|]. left. auto.
Qed.

Lemma commit_invariants (a : App) :
  layout_ok a -> counters_ok a ->
  (status (hooks a) = ROUND_END ->
     enemiesToSpawn (stateRef a) = 0%Z /\ enemies (stateRef a) = []) ->
  (status (hooks a) = WIN -> (1000 <= score (hooks a))%Z) ->
  (status (hooks a) = GAME_OVER -> forallb negb (batteries (hooks a)) = true) ->
  layout_ok (commit a) /\ counters_ok (commit a) /\ status_ok (commit a).
Proof.
  intros Hl Hc Hre Hwin Hover.
  destruct (commit_fields a) as (Hs & Hsc & Hr & _ & Hci & Hb).
  unfold layout_ok, counters_ok, status_ok. rewrite Hs, Hsc, Hr, Hci, Hb.
  split; [exact Hl|]. split; [exact Hc|].
  destruct (commit_status a) as [Hsame | (Hp & [[Hw Hsw] | [Hg Hbg]])].
  - rewrite Hsame. auto.
  - rewrite Hw. repeat split; try discriminate. auto.
  - rewrite Hg. repeat split; try discriminate. auto.
Qed.

Lemma startGame_fields (a : App) :
  hooks (startGame a)
    = {| status := PLAYING; score := 0; round := 1; ammo := INITIAL_AMMO;
         cities := repeat true 6; batteries := repeat true 3 |} /\
  enemies (stateRef (startGame a)) = [] /\
  interceptors (stateRef (startGame a)) = [] /\
  explosions (stateRef (startGame a)) = [] /\
  enemiesToSpawn (stateRef (startGame a)) = (10 + round (hooks a) * 5)%Z /\
  enemiesDestroyed (stateRef (startGame a)) = 0%Z /\
  spawnTimer (stateRef (startGame a)) = 0.
Proof. repeat split. Qed.

Lemma nextRound_fields (a : App) :
  hooks (nextRound a)
    = {| status := PLAYING;
         score := score (hooks a) + sumZ (ammo (hooks a)) * 5;
         round := round (hooks a) + 1; ammo := INITIAL_AMMO;
         cities := cities (hooks a); batteries := batteries (hooks a) |} /\
  enemies (stateRef (nextRound a)) = [] /\
  enemiesToSpawn (stateRef (nextRound a)) = (10 + round (hooks a) * 5)%Z /\
  enemiesDestroyed (stateRef (nextRound a)) = 0%Z.
Proof. repeat split. Qed.

(** Every state of a run has its six cities and three batteries, rockets
    aimed at them only, counters in range, and a status that tells the
    truth. *)
Lemma reachable_invariants (a : App) :
  reachable a -> layout_ok a /\ counters_ok a /\ status_ok a.
Proof.
  induction 1 as [|a a' Hreach (Hl & Hc & Hst) Hstep].
  - unfold layout_ok, counters_ok, status_ok. cbn.
    repeat split; try discriminate; try lia. constructor.
  - pose proof (reachable_ammo_ok a Hreach) as [_ Hammo].
    destruct Hl as (Hci & Hb & Hes). destruct Hc as (Hr & Hsc & Hn & Hd).
    destruct Hst as (Hre & Hwin & Hover).
    destruct Hstep as [w h a | a Hshown | a Hround | x y a | time d a].
    + unfold layout_ok, counters_ok, status_ok. cbn.
      repeat split; auto; now apply Hre.
    + destruct (startGame_fields a) as (Hh & He & _ & _ & Hn' & Hd' & _).
      apply commit_invariants; try (rewrite Hh; cbn; discriminate).
      * unfold layout_ok. rewrite Hh, He. cbn. repeat split. constructor.
      * unfold counters_ok. rewrite Hh, Hn', Hd'. cbn [round score].
        repeat split; lia.
    + destruct (nextRound_fields a) as (Hh & He & Hn' & Hd').
      apply commit_invariants; try (rewrite Hh; cbn; discriminate).
      * unfold layout_ok. rewrite Hh, He. cbn [cities batteries].
        repeat split; auto.
      * unfold counters_ok. rewrite Hh, Hn', Hd'. cbn [round score].
        pose proof (sumZ_nonneg _ Hammo). repeat split; lia.
    + destruct (handleCanvasClick_cases x y a)
        as [-> | (i & _ & _ & Hs & _ & _ & ->)].
      * apply commit_invariants; unfold layout_ok, counters_ok; auto.
      * apply commit_invariants; unfold layout_ok, counters_ok; cbn; auto;
          rewrite Hs; discriminate.
    + destruct (loop_counters time d a) as (Hr' & (k & Hsc' & Hd' & _) & Hn').
      destruct (loop_status time d a) as (Hplay & Hend & Hidle).
      apply commit_invariants.
      * apply loop_layout. unfold layout_ok. auto.
      * unfold counters_ok. rewrite Hr', Hsc', Hd'.
        repeat split; lia.
      * intro Hs'. destruct (status (hooks a)) eqn:Hs.
        -- rewrite Hidle in Hs' by discriminate. discriminate.
        -- destruct (Hplay eq_refl) as [(_ & Hz & Hnil) | (Hp & _)]; [auto|congruence].
        -- destruct (Hend eq_refl) as (_ & Hz & Hnil).
           destruct (Hre eq_refl) as [Hz0 Hnil0]. rewrite Hz. auto.
        -- rewrite Hidle in Hs' by discriminate. discriminate.
        -- rewrite Hidle in Hs' by discriminate. discriminate.
      * intro Hs'. rewrite Hsc'. destruct (status (hooks a)) eqn:Hs.
        -- rewrite Hidle in Hs' by discriminate. discriminate.
        -- destruct (Hplay eq_refl) as [(Hp & _) | (Hp & _)]; congruence.
        -- destruct (Hend eq_refl) as (Hp & _). congruence.
        -- rewrite Hidle in Hs' by discriminate. discriminate.
        -- specialize (Hwin eq_refl). lia.
      * intro Hs'. destruct (status (hooks a)) eqn:Hs.
        -- rewrite Hidle in Hs' by discriminate. discriminate.
        -- destruct (Hplay eq_refl) as [(Hp & _) | (Hp & _)]; congruence.
        -- destruct (Hend eq_refl) as (Hp & _). congruence.
        -- assert (Hh : hooks (loop time d a) = hooks a)
             by (unfold loop; rewrite Hs; reflexivity).
           rewrite Hh. auto.
        -- rewrite Hidle in Hs' by discriminate. discriminate.
Qed.
End RunInvariants.

(** X4: in every state of a run there are six cities and three batteries
    and every rocket in flight is aimed at one of the nine indices, so that
    resolving the hit of any rocket in flight writes inside the arrays and
    never extends them. *)
Theorem structures_keep_their_layout `{MathLib} (a : App) :
  reachable a ->
  length (cities (hooks a)) = 6%nat /\
  length (batteries (hooks a)) = 3%nat /\
  Forall (fun e => (EnemyRocket.targetIndex e < 9)%nat) (enemies (stateRef a)) /\
  forall e, In e (enemies (stateRef a)) ->
    length (cities (resolveHit e (hooks a))) = 6%nat /\
    length (batteries (resolveHit e (hooks a))) = 3%nat.
Proof.
  intro Hreach. destruct (reachable_invariants a Hreach) as ((Hc & Hb & Hes) & _).
  repeat split; trivial;
    apply resolveHit_lengths; trivial; revert e H0; now apply Forall_forall.
Qed.

Lemma structures_keep_their_layout_witness :
  length (cities (hooks (commit (startGame (resize 800 600 initialApp))))) = 6%nat /\
  length (batteries (hooks (commit (startGame (resize 800 600 initialApp))))) = 3%nat.
Proof.
  destruct (@structures_keep_their_layout IntegerSqrt _ started_reachable)
    as (Hc & Hb & _).
  split; [exact Hc | exact Hb].
Defined.

(** X5: in every state of a run the round is at least 1 and the score, the
    number of enemies left to spawn and the number of enemies destroyed are
    not negative. *)
Theorem counters_stay_in_range `{MathLib} (a : App) :
  reachable a ->
  (1 <= round (hooks a))%Z /\ (0 <= score (hooks a))%Z /\
  (0 <= enemiesToSpawn (stateRef a))%Z /\ (0 <= enemiesDestroyed (stateRef a))%Z.
Proof.
  intro Hreach. now destruct (reachable_invariants a Hreach) as (_ & Hc & _).
Qed.

Lemma counters_stay_in_range_witness :
  (0 <= enemiesToSpawn (stateRef (commit (startGame (resize 800 600 initialApp)))))%Z.
Proof.
  exact (proj1 (proj2 (proj2 (@counters_stay_in_range IntegerSqrt _ started_reachable)))).
Defined.

(** X6: a PLAYING frame ends the round exactly when, after it, no enemy is
    left to spawn and none is in flight; in every state of a run whose
    status is ROUND_END both hold, and a frame then changes no cell, spawns
    nothing and leaves the enemies empty. *)
Theorem round_ends_when_the_wave_is_over `{MathLib} (time : Q) (d : Dice) (a : App) :
  reachable a ->
  (status (hooks a) = PLAYING ->
     (status (hooks (loop time d a)) = ROUND_END <->
      enemiesToSpawn (stateRef (loop time d a)) = 0%Z /\
      enemies (stateRef (loop time d a)) = [])) /\
  (status (hooks a) = ROUND_END ->
     enemiesToSpawn (stateRef a) = 0%Z /\ enemies (stateRef a) = [] /\
     hooks (commit (loop time d a)) = hooks a /\
     enemiesToSpawn (stateRef (loop time d a)) = 0%Z /\
     enemies (stateRef (loop time d a)) = []).
Proof.
  intro Hreach. destruct (reachable_invariants a Hreach) as (_ & _ & Hre & _).
  destruct (loop_status time d a) as (Hplay & Hend & _).
  split.
  - intro Hs. destruct (Hplay Hs) as [(Hst & Hz & Hnil) | (Hst & Hnot)].
    + split; auto.
    + split; [congruence | contradiction].
  - intro Hs. destruct (Hre Hs) as [Hz Hnil]. destruct (Hend Hs) as (Hst & Hz' & Hnil').
    split; [exact Hz|]. split; [exact Hnil|].
    split; [|split; [congruence | auto]].
    rewrite (loop_active time d a (or_intror Hs)). cbn [commit hooks].
    rewrite spawn_idle by (rewrite Hs; discriminate).
    assert (Hend' : roundEnded (hooks a) (frameRef time a) = false)
      by (unfold roundEnded; now rewrite Hs).
    rewrite Hend'. unfold frameHooks, frameArrivals, frameKills, frameEnemies.
    rewrite Hnil. cbn [filter length fold_left Z.of_nat].
    unfold winLossEffect, setScore. cbn [status]. rewrite Hs. cbn [GameStatus_eqb].
    rewrite Z.mul_0_r, Z.add_0_r. rewrite <- Hs. now destruct (hooks a).
Qed.

(** X7: in every state of a run, the status WIN comes with a score of at
    least 1000 and the status GAME_OVER with three destroyed batteries. *)
Theorem terminal_statuses_tell_why `{MathLib} (a : App) :
  reachable a ->
  (status (hooks a) = WIN -> (1000 <= score (hooks a))%Z) /\
  (status (hooks a) = GAME_OVER ->
     batteries (hooks a) = [false; false; false]).
Proof.
  intro Hreach.
  destruct (reachable_invariants a Hreach) as ((_ & Hb & _) & _ & _ & Hwin & Hover).
  split; [exact Hwin|]. intro Hs. specialize (Hover Hs).
  destruct (batteries (hooks a)) as [|b0 [|b1 [|b2 [|b3 bs]]]]; try discriminate.
  cbn in Hover. destruct b0, b1, b2; try discriminate. reflexivity.
Qed.

Lemma reachable_runFrames `{MathLib} (n : nat) (d : Dice) (a : App) :
  reachable a -> reachable (runFrames n d a).
Proof.
  unfold runFrames. generalize (seq 1 n) as ks. intro ks. revert a.
  induction ks as [|k ks IH]; intros a Ha; [exact Ha|].
  cbn [fold_left]. apply IH. eapply reachable_step; [exact Ha|]. apply step_frame.
Qed.

Lemma tinyGame_reachable : @reachable IntegerSqrt tinyGame.
Proof.
  eapply reachable_step; [eapply reachable_step; [apply reachable_initial|]|].
  - apply (step_resize 80 40).
  - now apply step_startGame.
Qed.

(** Three rockets, one per battery, end the tiny game within 48 frames. *)
Lemma tinyGame_over :
  status (hooks (@runFrames IntegerSqrt 48 lastBatteryDice tinyGame)) = GAME_OVER.
Proof. vm_compute. reflexivity. Qed.

Lemma terminal_statuses_tell_why_witness :
  batteries (hooks (@runFrames IntegerSqrt 48 lastBatteryDice tinyGame))
    = [false; false; false].
Proof.
  exact (proj2 (@terminal_statuses_tell_why IntegerSqrt _
                  (@reachable_runFrames IntegerSqrt 48 lastBatteryDice tinyGame
                     tinyGame_reachable))
               tinyGame_over).
Defined.

(** ** Scripted runs *)

Section Scripts.
Context `{MathLib}.

Lemma reachable_frameAfter (ms : Q) (d : Dice) (a : App) :
  reachable a -> reachable (frameAfter ms d a).
Proof. intro Ha. eapply reachable_step; [exact Ha | apply step_frame]. Qed.

Lemma reachable_click (a : App) : reachable a -> reachable (click a).
Proof. intro Ha. eapply reachable_step; [exact Ha | apply step_click]. Qed.

Lemma reachable_iter (f : App -> App) (n : nat) (a : App) :
  (forall b, reachable b -> reachable (f b)) ->
  reachable a -> reachable (Nat.iter n f a).
Proof.
  intros Hf Ha. induction n as [|n IH]; [exact Ha|].
  cbn [Nat.iter nat_rect]. apply Hf, IH.
Qed.

Lemma reachable_volleys (ds : list Dice) (a : App) :
  reachable a -> reachable (fold_left volley ds a).
Proof.
  revert a. induction ds as [|d ds IH]; intros a Ha; [exact Ha|].
  cbn [fold_left]. apply IH. unfold volley, nextFrame.
  apply reachable_iter; [intro b; apply reachable_frameAfter | exact Ha].
Qed.

Lemma reachable_period (k : nat) (a : App) (n : nat) :
  reachable a -> reachable (period k a n).
Proof.
  intro Ha. unfold period. apply reachable_frameAfter.
  apply reachable_iter; [intro b; apply reachable_frameAfter|].
  do 2 apply reachable_frameAfter.
  apply reachable_iter; [exact reachable_click | exact Ha].
Qed.

Lemma reachable_defence (k : nat) (clicks : list nat) (last : nat) (a : App) :
  reachable a -> reachable (defence k clicks last a).
Proof.
  intro Ha. unfold defence. apply reachable_frameAfter.
  apply reachable_iter; [exact reachable_click|].
  revert a Ha. induction clicks as [|n clicks IH]; intros a Ha; [exact Ha|].
  cbn [fold_left]. apply IH. now apply reachable_period.
Qed.
End Scripts.

Lemma lastRocketApp_reachable : @reachable IntegerSqrt lastRocketApp.
Proof.
  unfold lastRocketApp, nextFrame.
  apply reachable_frameAfter, reachable_volleys, tinyGame_reachable.
Qed.

Lemma lastRocketApp_playing : status (hooks lastRocketApp) = PLAYING.
Proof. vm_compute. reflexivity. Qed.

Lemma roundOverApp_reachable : @reachable IntegerSqrt roundOverApp.
Proof.
  unfold roundOverApp, nextFrame.
  apply reachable_frameAfter, lastRocketApp_reachable.
Qed.

Lemma roundOverApp_ended : status (hooks roundOverApp) = ROUND_END.
Proof. vm_compute. reflexivity. Qed.

Lemma lastBatteryApp_reachable : @reachable IntegerSqrt lastBatteryApp.
Proof.
  unfold lastBatteryApp, nextFrame.
  apply reachable_frameAfter, reachable_volleys, tinyGame_reachable.
Qed.

Lemma smallGame_reachable : @reachable IntegerSqrt smallGame.
Proof.
  eapply reachable_step; [eapply reachable_step; [apply reachable_initial|]|].
  - apply (step_resize 80 64).
  - now apply step_startGame.
Qed.

Lemma firstRoundApp_reachable : @reachable IntegerSqrt firstRoundApp.
Proof.
  unfold firstRoundApp.
  apply reachable_frameAfter, reachable_defence, smallGame_reachable.
Qed.

Lemma firstRoundApp_ended : status (hooks firstRoundApp) = ROUND_END.
Proof. vm_compute. reflexivity. Qed.

Lemma secondRoundApp_reachable (last : nat) : @reachable IntegerSqrt (secondRoundApp last).
Proof.
  unfold secondRoundApp. apply reachable_frameAfter, reachable_defence.
  eapply reachable_step; [exact firstRoundApp_reachable|].
  apply step_nextRound, firstRoundApp_ended.
Qed.

Lemma lastKillApp_reachable : @reachable IntegerSqrt lastKillApp.
Proof.
  unfold lastKillApp. apply reachable_defence.
  eapply reachable_step; [exact (secondRoundApp_reachable 5)|].
  apply step_nextRound. vm_compute. reflexivity.
Qed.

Lemma matchPointApp_reachable : @reachable IntegerSqrt matchPointApp.
Proof.
  unfold matchPointApp. apply reachable_defence.
  eapply reachable_step; [exact (secondRoundApp_reachable 1)|].
  apply step_nextRound. vm_compute. reflexivity.
Qed.

Lemma round_ends_when_the_wave_is_over_witness :
  (status (hooks (@loop IntegerSqrt 19800 someDice lastRocketApp)) = ROUND_END /\
   enemiesToSpawn (stateRef (@loop IntegerSqrt 19800 someDice lastRocketApp)) = 0%Z /\
   enemies (stateRef (@loop IntegerSqrt 19800 someDice lastRocketApp)) = []) /\
  (enemiesToSpawn (stateRef roundOverApp) = 0%Z /\
   enemies (stateRef roundOverApp) = [] /\
   hooks (commit (@loop IntegerSqrt 19900 someDice roundOverApp)) = hooks roundOverApp /\
   enemiesToSpawn (stateRef (@loop IntegerSqrt 19900 someDice roundOverApp)) = 0%Z /\
   enemies (stateRef (@loop IntegerSqrt 19900 someDice roundOverApp)) = []).
Proof.
  split.
  - assert (Hover :
      enemiesToSpawn (stateRef (@loop IntegerSqrt 19800 someDice lastRocketApp)) = 0%Z /\
      enemies (stateRef (@loop IntegerSqrt 19800 someDice lastRocketApp)) = [])
      by (vm_compute; split; reflexivity).
    split; [|exact Hover].
    exact (proj2 (proj1 (@round_ends_when_the_wave_is_over IntegerSqrt 19800 someDice _
                           lastRocketApp_reachable) lastRocketApp_playing) Hover).
  - exact (proj2 (@round_ends_when_the_wave_is_over IntegerSqrt 19900 someDice _
                    roundOverApp_reachable) roundOverApp_ended).
Defined.

(** ** What the steps of a run can and cannot do *)

(** X8: along a run the score never decreases, except that the start of a
    game sets it to 0: a frame adds 20 per enemy caught, the next round adds
    the ammunition bonus, which is not negative, and resizes and clicks
    leave the score as it is. *)
Theorem score_only_drops_at_game_start `{MathLib} (a a' : App) :
  reachable a -> step a a' ->
  (score (hooks a) <= score (hooks a'))%Z \/
  (startShown (status (hooks a)) = true /\ score (hooks a') = 0%Z).
Proof.
  intros Hreach Hstep.
  pose proof (reachable_ammo_ok a Hreach) as [_ Hammo].
  destruct Hstep as [w h a | a Hshown | a Hround | x y a | time d a].
  - left. cbn. lia.
  - right. split; [exact Hshown|].
    rewrite (proj1 (proj2 (commit_fields _))). reflexivity.
  - left. rewrite (proj1 (proj2 (commit_fields _))).
    rewrite (proj1 (nextRound_fields a)). cbn [score].
    pose proof (sumZ_nonneg _ Hammo). lia.
  - left. rewrite (proj1 (proj2 (commit_fields _))).
    destruct (handleCanvasClick_cases x y a) as [-> | (i & _ & _ & _ & _ & _ & ->)];
      cbn; lia.
  - left. rewrite (proj1 (proj2 (commit_fields _))).
    destruct (loop_counters time d a) as (_ & (k & -> & _) & _). lia.
Qed.

Lemma score_only_drops_at_game_start_witness :
  (score (hooks tinyGame)
   <= score (hooks (commit (@loop IntegerSqrt 100 lastBatteryDice tinyGame))))%Z \/
  (startShown (status (hooks tinyGame)) = true /\
   score (hooks (commit (@loop IntegerSqrt 100 lastBatteryDice tinyGame))) = 0%Z).
Proof.
  exact (@score_only_drops_at_game_start IntegerSqrt _ _ tinyGame_reachable
           (@step_frame IntegerSqrt 100 lastBatteryDice tinyGame)).
Defined.

Section Steps.
Context `{MathLib}.

Lemma loop_structures_mono (time : Q) (d : Dice) (a : App) (j : nat) :
  (nth j (cities (hooks (loop time d a))) false = true ->
   nth j (cities (hooks a)) false = true) /\
  (nth j (batteries (hooks (loop time d a))) false = true ->
   nth j (batteries (hooks a)) false = true).
Proof.
  destruct (status (hooks a)) eqn:Hs.
  1, 4, 5: unfold loop; rewrite Hs; cbn; auto.
  all: assert (Hact : status (hooks a) = PLAYING \/ status (hooks a) = ROUND_END)
         by (rewrite Hs; auto).
  all: destruct (loop_arrivals time d a Hact) as (-> & -> & _).
  all: apply resolveHits_mono.
Qed.

Lemma loop_wave (time : Q) (d : Dice) (a : App) :
  (enemiesToSpawn (stateRef (loop time d a))
   + Z.of_nat (length (enemies (stateRef (loop time d a))))
   <= enemiesToSpawn (stateRef a) + Z.of_nat (length (enemies (stateRef a))))%Z /\
  (enemiesToSpawn (stateRef (loop time d a)) <= enemiesToSpawn (stateRef a))%Z /\
  (length (interceptors (stateRef (loop time d a)))
   <= length (interceptors (stateRef a)))%nat.
Proof.
  destruct (status (hooks a)) eqn:Hs.
  1, 4, 5: unfold loop; rewrite Hs; cbn; repeat split; lia.
  all: assert (Hact : status (hooks a) = PLAYING \/ status (hooks a) = ROUND_END)
         by (rewrite Hs; auto).
  all: rewrite (loop_active time d a Hact); cbn [stateRef].
  all: pose proof (frameRef_enemies_length time a) as Hlen.
  all: destruct (spawn_fields (hooks a) (frameStep time a) d (frameRef time a))
         as (Hi & _).
  all: rewrite Hi; cbn [frameRef interceptors]; rewrite length_map.
  all: pose proof (filter_length_le
                     (fun m => snd (InterceptorMissile.update m (frameStep time a)))
                     (interceptors (stateRef a))) as Hms.
  all: destruct (spawn_cases (hooks a) (frameStep time a) d (frameRef time a))
         as [[-> ->] | (_ & Hpos & _ & -> & ->)];
       cbn [frameRef enemiesToSpawn] in *; rewrite ?length_app; cbn [length];
       repeat split; lia.
Qed.
End Steps.

(** X9: a destroyed city or battery stays destroyed through every step of a
    run but the start of a game, which rebuilds all nine: no frame, click,
    resize or next round turns an entry of [cities] or [batteries] back to
    true. *)
Theorem destroyed_structures_stay_destroyed `{MathLib} (a a' : App) :
  step a a' ->
  (forall j,
      (nth j (cities (hooks a')) false = true -> nth j (cities (hooks a)) false = true) /\
      (nth j (batteries (hooks a')) false = true ->
       nth j (batteries (hooks a)) false = true)) \/
  (startShown (status (hooks a)) = true /\
   cities (hooks a') = repeat true 6 /\ batteries (hooks a') = repeat true 3).
Proof.
  intro Hstep.
  destruct Hstep as [w h a | a Hshown | a Hround | x y a | time d a].
  - left. intro j. cbn. auto.
  - right. split; [exact Hshown|].
    destruct (commit_fields (startGame a)) as (_ & _ & _ & _ & -> & ->).
    split; reflexivity.
  - left. intro j.
    destruct (commit_fields (nextRound a)) as (_ & _ & _ & _ & -> & ->).
    rewrite (proj1 (nextRound_fields a)). cbn. auto.
  - left. intro j.
    destruct (commit_fields (handleCanvasClick x y a)) as (_ & _ & _ & _ & -> & ->).
    destruct (handleCanvasClick_cases x y a) as [-> | (i & _ & _ & _ & _ & _ & ->)];
      cbn; auto.
  - left. intro j.
    destruct (commit_fields (loop time d a)) as (_ & _ & _ & _ & -> & ->).
    apply loop_structures_mono.
Qed.

Lemma destroyed_structures_stay_destroyed_witness :
  (forall j,
      (nth j (cities (hooks (commit (@loop IntegerSqrt 100 someDice arrivalApp)))) false
         = true -> nth j (cities (hooks arrivalApp)) false = true) /\
      (nth j (batteries (hooks (commit (@loop IntegerSqrt 100 someDice arrivalApp)))) false
         = true -> nth j (batteries (hooks arrivalApp)) false = true)) \/
  (startShown (status (hooks arrivalApp)) = true /\
   cities (hooks (commit (@loop IntegerSqrt 100 someDice arrivalApp))) = repeat true 6 /\
   batteries (hooks (commit (@loop IntegerSqrt 100 someDice arrivalApp))) = repeat true 3).
Proof.
  exact (@destroyed_structures_stay_destroyed IntegerSqrt _ _
           (@step_frame IntegerSqrt 100 someDice arrivalApp)).
Defined.

(** X10: no frame adds to the wave: the number of enemies left to spawn plus
    the number in flight never increases, the number left to spawn never
    increases, and no frame adds an interceptor. *)
Theorem frames_never_grow_the_wave `{MathLib} (time : Q) (d : Dice) (a : App) :
  (enemiesToSpawn (stateRef (loop time d a))
   + Z.of_nat (length (enemies (stateRef (loop time d a))))
   <= enemiesToSpawn (stateRef a) + Z.of_nat (length (enemies (stateRef a))))%Z /\
  (enemiesToSpawn (stateRef (loop time d a)) <= enemiesToSpawn (stateRef a))%Z /\
  (length (interceptors (stateRef (loop time d a)))
   <= length (interceptors (stateRef a)))%nat.
Proof. apply loop_wave. Qed.

(** ** Flight *)

(** X11: on a canvas of positive width an enemy rocket is built on the top
    edge, with an abscissa in [0, width), at rest on its start; it aims at
    the point 40 above the bottom under its target abscissa and stores two
    thirds of the nominal speed. *)
Theorem rocket_starts_on_the_top_edge (width height targetX speed : Q)
    (targetIndex : nat) (r : Random) :
  0 < width ->
  0 <= Point.x (EnemyRocket.start (EnemyRocket.new width height targetX targetIndex speed r)) /\
  Point.x (EnemyRocket.start (EnemyRocket.new width height targetX targetIndex speed r))
    < width /\
  Point.y (EnemyRocket.start (EnemyRocket.new width height targetX targetIndex speed r)) = 0 /\
  EnemyRocket.pos (EnemyRocket.new width height targetX targetIndex speed r)
    = EnemyRocket.start (EnemyRocket.new width height targetX targetIndex speed r) /\
  EnemyRocket.end_ (EnemyRocket.new width height targetX targetIndex speed r)
    = Point.mk targetX (height - 40) /\
  3 * EnemyRocket.speed (EnemyRocket.new width height targetX targetIndex speed r)
    == 2 * speed.
Proof.
  intro Hw. destruct (Random_range r) as [H0 H1].
  cbn [EnemyRocket.new EnemyRocket.start EnemyRocket.pos EnemyRocket.end_
       EnemyRocket.speed Point.x Point.y].
  repeat split; try nra. field.
Qed.

Lemma rocket_starts_on_the_top_edge_witness :
  Point.x (EnemyRocket.start (EnemyRocket.new 800 600 400 7 50 quarter)) < 800.
Proof.
  exact (proj1 (proj2 (rocket_starts_on_the_top_edge 800 600 400 50 7 quarter eq_refl))).
Defined.

(** X12: an update that returns [true] keeps the start, the end point (the
    target), the speed and the target index of a projectile and moves its
    position along the straight line to its end point: the distance [dist]
    that the update measured is at least 2 for a rocket and 5 for an
    interceptor, and the move times [dist] is the vector to the end point
    times [speed * dt]. *)
Theorem projectiles_fly_straight `{MathLib} :
  (forall (e : EnemyRocket.t) (dt : Q),
      snd (EnemyRocket.update e dt) = true ->
      EnemyRocket.start (fst (EnemyRocket.update e dt)) = EnemyRocket.start e /\
      EnemyRocket.end_ (fst (EnemyRocket.update e dt)) = EnemyRocket.end_ e /\
      EnemyRocket.speed (fst (EnemyRocket.update e dt)) = EnemyRocket.speed e /\
      EnemyRocket.targetIndex (fst (EnemyRocket.update e dt)) = EnemyRocket.targetIndex e /\
      2 <= dist (EnemyRocket.end_ e) (EnemyRocket.pos e) /\
      (Point.x (EnemyRocket.pos (fst (EnemyRocket.update e dt))) - Point.x (EnemyRocket.pos e))
        * dist (EnemyRocket.end_ e) (EnemyRocket.pos e)
        == (Point.x (EnemyRocket.end_ e) - Point.x (EnemyRocket.pos e))
           * (EnemyRocket.speed e * dt) /\
      (Point.y (EnemyRocket.pos (fst (EnemyRocket.update e dt))) - Point.y (EnemyRocket.pos e))
        * dist (EnemyRocket.end_ e) (EnemyRocket.pos e)
        == (Point.y (EnemyRocket.end_ e) - Point.y (EnemyRocket.pos e))
           * (EnemyRocket.speed e * dt)) /\
  (forall (m : InterceptorMissile.t) (dt : Q),
      snd (InterceptorMissile.update m dt) = true ->
      InterceptorMissile.start (fst (InterceptorMissile.update m dt))
        = InterceptorMissile.start m /\
      InterceptorMissile.target (fst (InterceptorMissile.update m dt))
        = InterceptorMissile.target m /\
      InterceptorMissile.speed (fst (InterceptorMissile.update m dt))
        = InterceptorMissile.speed m /\
      5 <= dist (InterceptorMissile.target m) (InterceptorMissile.pos m) /\
      (Point.x (InterceptorMissile.pos (fst (InterceptorMissile.update m dt)))
       - Point.x (InterceptorMissile.pos m))
        * dist (InterceptorMissile.target m) (InterceptorMissile.pos m)
        == (Point.x (InterceptorMissile.target m) - Point.x (InterceptorMissile.pos m))
           * (InterceptorMissile.speed m * dt) /\
      (Point.y (InterceptorMissile.pos (fst (InterceptorMissile.update m dt)))
       - Point.y (InterceptorMissile.pos m))
        * dist (InterceptorMissile.target m) (InterceptorMissile.pos m)
        == (Point.y (InterceptorMissile.target m) - Point.y (InterceptorMissile.pos m))
           * (InterceptorMissile.speed m * dt)).
Proof.
  split.
  - intros e dt. unfold EnemyRocket.update.
    fold (dist (EnemyRocket.end_ e) (EnemyRocket.pos e)).
    destruct (Qltb (dist (EnemyRocket.end_ e) (EnemyRocket.pos e)) 2) eqn:Hd;
      [discriminate|].
    intros _. apply Qltb_ge in Hd.
    cbn [fst EnemyRocket.start EnemyRocket.end_ EnemyRocket.speed
         EnemyRocket.targetIndex EnemyRocket.pos Point.x Point.y].
    repeat split; trivial; field; lra.
  - intros m dt. unfold InterceptorMissile.update.
    fold (dist (InterceptorMissile.target m) (InterceptorMissile.pos m)).
    destruct (Qltb (dist (InterceptorMissile.target m) (InterceptorMissile.pos m)) 5) eqn:Hd;
      [discriminate|].
    intros _. apply Qltb_ge in Hd.
    cbn [fst InterceptorMissile.start InterceptorMissile.target InterceptorMissile.speed
         InterceptorMissile.pos Point.x Point.y].
    repeat split; trivial; field; lra.
Qed.

Lemma projectiles_fly_straight_witness :
  (Point.y (EnemyRocket.pos (fst (@EnemyRocket.update IntegerSqrt fallingRocket 0.1))) - 0)
    * @dist IntegerSqrt (Point.mk 400 560) (Point.mk 400 0)
    == (560 - 0) * (100 / 3 * 0.1).
Proof.
  exact (proj2 (proj2 (proj2 (proj2 (proj2 (proj2
           (proj1 (@projectiles_fly_straight IntegerSqrt) fallingRocket 0.1 eq_refl))))))).
Defined.

(** ** The life of a blast *)

Lemma blast_age_update (D : Q) (e : Explosion.t) (dt : Q) :
  0 < dt -> dt <= D -> blast_inv D e ->
  blast_age D e + 36 * dt <= blast_age D (fst (Explosion.update e dt)).
Proof.
  intros Hdt HD (Hmax & Hspeed & Hgrow & Hbound).
  unfold blast_age, Explosion.update.
  destruct (Explosion.growing e) eqn:G;
    cbn [fst Explosion.growing Explosion.radius]; rewrite ?Hmax, ?Hspeed.
  - destruct (Hgrow eq_refl) as [H0 H45].
    destruct (Qle_bool 45 (Explosion.radius e + 60 * dt)); cbv beta iota; lra.
  - lra.
Qed.

Lemma blast_age_alive (D : Q) (e : Explosion.t) :
  0 < D -> blast_inv D e -> 0 < Explosion.radius e ->
  blast_age D e < 1.6 * (45 + 60 * D).
Proof.
  intros HD (_ & _ & Hgrow & _) Hpos. unfold blast_age.
  destruct (Explosion.growing e); [destruct (Hgrow eq_refl)|]; lra.
Qed.

Lemma survives_age (D : Q) (dts : list Q) (e : Explosion.t) :
  0 < D -> Forall (fun d => 0 < d /\ d <= D) dts -> blast_inv D e ->
  survives e dts = true ->
  blast_age D e + 36 * elapsed dts <= blast_age D (Explosion.run e dts) /\
  (dts <> [] -> 0 < Explosion.radius (Explosion.run e dts)).
Proof.
  intros HD Hdts. revert e.
  induction Hdts as [|d dts [Hd HdD] Hdts IH]; intros e He Hs.
  - cbn. split; [lra | congruence].
  - cbn [survives] in Hs. apply andb_true_iff in Hs. destruct Hs as [Halive Hs].
    pose proof (blast_inv_update D e d Hd HdD He) as He'.
    destruct (IH _ He' Hs) as [Hage Hpos].
    pose proof (blast_age_update D e d Hd HdD He) as Hstep.
    change (Explosion.run e (d :: dts))
      with (Explosion.run (fst (Explosion.update e d)) dts).
    cbn [elapsed fold_right] in *. fold (elapsed dts) in *.
    split; [lra|]. intros _. destruct dts as [|d' dts'].
    + cbn. rewrite Explosion_update_alive in Halive. now apply Qltb_lt.
    + apply Hpos. discriminate.
Qed.

Lemma shrinking_stays (dts : list Q) (e : Explosion.t) :
  Explosion.growing e = false -> Explosion.growing (Explosion.run e dts) = false.
Proof.
  revert e. induction dts as [|d dts IH]; intros e G; [exact G|].
  change (Explosion.run e (d :: dts))
    with (Explosion.run (fst (Explosion.update e d)) dts).
  apply IH. unfold Explosion.update. now rewrite G.
Qed.

(** X13: a blast does not outlive 2 + 11 D / 3 seconds: if every update of
    a blast built by the constructor, along steps between a millisecond and
    D, returned [true], then three times the sum of the steps is below
    6 + 11 D (the sum is below 2.37 s for the 0.1 s to which a frame clamps
    its step).  Over exact numbers the sum is below 2 + 8 D / 3, a bound
    that the sums of rounded steps come within a rounding error of; the
    statement leaves one step of margin.  And a blast that has stopped
    growing never grows again. *)
Theorem blast_lifetime_is_bounded (p : Point.t) (dts : list Q) (D : Q) :
  0 < D -> Forall (fun d => 1 # 1000 <= d /\ d <= D) dts ->
  survives (Explosion.new p) dts = true ->
  3 * elapsed dts < 6 + 11 * D /\
  forall (e : Explosion.t) (more : list Q),
    Explosion.growing e = false -> Explosion.growing (Explosion.run e more) = false.
Proof.
  intros HD Hms Hs. split; [|intros e more; apply shrinking_stays].
  assert (Hdts : Forall (fun d => 0 < d /\ d <= D) dts).
  { eapply Forall_impl; [|exact Hms]. cbv beta. intros d [Hd HdD]. split; lra. }
  destruct (survives_age D dts _ HD Hdts (blast_inv_new D p HD) Hs) as [Hage Hpos].
  destruct dts as [|d dts'].
  - change (elapsed []) with 0. lra.
  - pose proof (blast_age_alive D _ HD
                  (blast_inv_run D _ _ Hdts (blast_inv_new D p HD))
                  (Hpos ltac:(discriminate))) as Hbound.
    change (blast_age D (Explosion.new p)) with (0.6 * 0) in Hage. lra.
Qed.

Lemma blast_lifetime_is_bounded_witness :
  3 * elapsed (repeat 0.1 21) < 6 + 11 * 0.1.
Proof.
  assert (Hdts : Forall (fun d => 1 # 1000 <= d /\ d <= 0.1) (repeat 0.1 21)).
  { repeat constructor; unfold Qle; simpl; lia. }
  exact (proj1 (blast_lifetime_is_bounded (Point.mk 0 0) (repeat 0.1 21) 0.1
                  eq_refl Hdts eq_refl)).
Defined.

(** ** Pixel art *)

Lemma indexed_from_In {A : Type} (l : list A) (k i : nat) (v : A) :
  In (i, v) (combine (seq k (length l)) l) <->
  (k <= i)%nat /\ nth_error l (i - k) = Some v.
Proof.
  revert k. induction l as [|a l IH]; intro k.
  - cbn. split; [contradiction|]. intros [_ Hn]. destruct (i - k)%nat; discriminate.
  - cbn [length seq combine In]. rewrite IH. split.
    + intros [Heq | [Hk Hn]].
      * injection Heq as <- <-. split; [lia|]. now rewrite Nat.sub_diag.
      * split; [lia|]. now replace (i - k)%nat with (S (i - S k)) by lia.
    + intros [Hk Hn]. destruct (Nat.eq_dec k i) as [<-|Hne].
      * left. rewrite Nat.sub_diag in Hn. cbn in Hn. congruence.
      * right. split; [lia|].
        now replace (i - k)%nat with (S (i - S k)) in Hn by lia.
Qed.

Lemma indexed_In {A : Type} (l : list A) (i : nat) (v : A) :
  In (i, v) (indexed l) <-> nth_error l i = Some v.
Proof.
  unfold indexed. rewrite indexed_from_In, Nat.sub_0_r.
  split; [now intros [_ Hn] | intro Hn; split; [lia | exact Hn]].
Qed.

Lemma filled_app (l1 l2 : list CanvasCall) : filled (l1 ++ l2) = filled l1 ++ filled l2.
Proof. apply flat_map_app. Qed.

(** The squares of one row are as many as its cells that hold 1, whatever
    the coordinates. *)
Lemma row_squares_count (f : nat -> CanvasCall) (row : list Z) (k : nat) :
  (forall c, exists x y w h, f c = FillRect x y w h) ->
  length (filled (flat_map (fun cv : nat * Z =>
                              let (c, v) := cv in if (v =? 1)%Z then [f c] else [])
                           (combine (seq k (length row)) row)))
    = length (filter (fun v => (v =? 1)%Z) row).
Proof.
  intro Hf. revert k. induction row as [|v row IH]; intro k; [reflexivity|].
  cbn [length seq combine flat_map filter]. rewrite filled_app, length_app, IH.
  destruct (v =? 1)%Z; [|reflexivity].
  destruct (Hf k) as (x & y & w & h & ->). reflexivity.
Qed.

Lemma grid_squares_count (g : nat -> nat -> CanvasCall) (grid : list (list Z)) (k : nat) :
  (forall r c, exists x y w h, g r c = FillRect x y w h) ->
  length (filled (flat_map (fun rrow : nat * list Z =>
                              let (r, row) := rrow in
                              flat_map (fun cv : nat * Z =>
                                          let (c, v) := cv in
                                          if (v =? 1)%Z then [g r c] else [])
                                       (indexed row))
                           (combine (seq k (length grid)) grid)))
    = length (filter (fun v => (v =? 1)%Z) (concat grid)).
Proof.
  intro Hg. revert k. induction grid as [|row grid IH]; intro k; [reflexivity|].
  cbn [length seq combine flat_map concat].
  rewrite filled_app, length_app, filter_app, length_app, IH. f_equal.
  unfold indexed. apply (row_squares_count (g k)). apply Hg.
Qed.

Lemma nat_below_Q (c n : nat) :
  (c < n)%nat ->
  0 <= inject_Z (Z.of_nat c) /\ inject_Z (Z.of_nat c) + 1 <= inject_Z (Z.of_nat n).
Proof.
  intro Hc. unfold Qle, Qplus, inject_Z. cbn. lia.
Qed.

(** X14: [drawPixelArt] fills one square per cell of the grid that holds 1,
    each of side size / n for a grid of n rows; when the size is not
    negative and no row is longer than the grid has rows, every square lies
    within the square of side [size] centred at (x, y). *)
Theorem pixel_art_fits_its_square (x y size : Q) (grid : list (list Z))
    (color : String.string) :
  0 <= size -> (0 < length grid)%nat ->
  Forall (fun row => (length row <= length grid)%nat) grid ->
  length (filled (drawPixelArt x y size grid color)) = inked grid /\
  forall rx ry w h,
    In (rx, ry, w, h) (filled (drawPixelArt x y size grid color)) ->
    w = size / inject_Z (Z.of_nat (length grid)) /\ h = w /\
    x - size / 2 <= rx /\ rx + w <= x + size / 2 /\
    y - size / 2 <= ry /\ ry + h <= y + size / 2.
Proof.
  intros Hsize Hn Hrows. split.
  - unfold drawPixelArt, inked, indexed. cbn [filled flat_map app].
    apply (grid_squares_count
             (fun r c => FillRect
                (x + inject_Z (Z.of_nat c) * (size / inject_Z (Z.of_nat (length grid))) - size / 2)
                (y + inject_Z (Z.of_nat r) * (size / inject_Z (Z.of_nat (length grid))) - size / 2)
                (size / inject_Z (Z.of_nat (length grid)))
                (size / inject_Z (Z.of_nat (length grid))))).
    intros r c. repeat eexists.
  - intros rx ry w h Hin. unfold drawPixelArt, filled in Hin.
    cbn [flat_map app] in Hin.
    apply in_flat_map in Hin. destruct Hin as (call & Hcall & Hsel).
    apply in_flat_map in Hcall. destruct Hcall as ([r row] & Hrow & Hcall).
    apply in_flat_map in Hcall. destruct Hcall as ([c v] & Hcell & Hcall).
    apply indexed_In in Hrow. apply indexed_In in Hcell.
    destruct (v =? 1)%Z; [|contradiction].
    destruct Hcall as [<- | []]. destruct Hsel as [Heq | []].
    injection Heq as <- <- <- <-.
    assert (Hr : (r < length grid)%nat) by (apply nth_error_Some; congruence).
    assert (Hc : (c < length grid)%nat).
    { assert (Hc : (c < length row)%nat) by (apply nth_error_Some; congruence).
      apply nth_error_In in Hrow.
      pose proof (proj1 (Forall_forall _ _) Hrows row Hrow). cbn in H. lia. }
    destruct (nat_below_Q r _ Hr) as [Hr0 Hr1].
    destruct (nat_below_Q c _ Hc) as [Hc0 Hc1].
    assert (Hnq : 0 < inject_Z (Z.of_nat (length grid)))
      by (unfold Qlt, inject_Z; cbn; lia).
    set (n := inject_Z (Z.of_nat (length grid))) in *.
    assert (Hp : size / n * n == size) by (field; lra).
    set (p := size / n) in *. set (s2 := size / 2).
    assert (Hs2 : s2 + s2 == size) by (unfold s2; field).
    assert (Hp0 : 0 <= p) by nra.
    split; [reflexivity|]. split; [reflexivity|].
    repeat split; nra.
Qed.

Lemma pixel_art_fits_its_square_witness :
  length (filled (drawPixelArt 100 50 15 DOG_GRID COLORS_enemy)) = 17%nat.
Proof.
  assert (Hrows : Forall (fun row => (length row <= length DOG_GRID)%nat) DOG_GRID)
    by (repeat constructor).
  exact (proj1 (pixel_art_fits_its_square 100 50 15 DOG_GRID COLORS_enemy
                  ltac:(discriminate) ltac:(cbn; lia) Hrows)).
Defined.

(** ** Starting a game and a round *)

(** X15: whatever the state, [startGame] followed by the effects leaves a
    game in status PLAYING with score 0, round 1, full ammunition, six
    cities and three batteries alive, no entity, and the counters of the
    round reset; the canvas size is kept.  The number of enemies to spawn is
    10 + 5 r for the round r of the state before: 15 from the initial state. *)
Theorem new_game_resets_the_board (a : App) :
  hooks (commit (startGame a))
    = {| status := PLAYING; score := 0; round := 1; ammo := [20; 40; 20]%Z;
         cities := [true; true; true; true; true; true];
         batteries := [true; true; true] |} /\
  enemies (stateRef (commit (startGame a))) = [] /\
  interceptors (stateRef (commit (startGame a))) = [] /\
  explosions (stateRef (commit (startGame a))) = [] /\
  enemiesDestroyed (stateRef (commit (startGame a))) = 0%Z /\
  spawnTimer (stateRef (commit (startGame a))) = 0 /\
  roundActive (stateRef (commit (startGame a))) = true /\
  width (stateRef (commit (startGame a))) = width (stateRef a) /\
  height (stateRef (commit (startGame a))) = height (stateRef a) /\
  enemiesToSpawn (stateRef (commit (startGame a))) = (10 + round (hooks a) * 5)%Z /\
  enemiesToSpawn (stateRef (commit (startGame initialApp))) = 15%Z.
Proof. repeat split. Qed.

(** X16: [nextRound] followed by the effects adds five times the sum of the
    ammunition to the score and one to the round, and the game goes on in
    status PLAYING unless the bonus wins it or no battery is left: the
    status is GAME_OVER when every battery is destroyed, else WIN when the
    new score is at least 1000, else PLAYING. *)
Theorem next_round_bonus_can_end_the_game (a : App) :
  score (hooks (commit (nextRound a)))
    = (score (hooks a) + 5 * sumZ (ammo (hooks a)))%Z /\
  round (hooks (commit (nextRound a))) = (round (hooks a) + 1)%Z /\
  status (hooks (commit (nextRound a)))
    = (if forallb negb (batteries (hooks a)) then GAME_OVER
       else if (1000 <=? score (hooks a) + 5 * sumZ (ammo (hooks a)))%Z then WIN
       else PLAYING).
Proof.
  destruct (commit_fields (nextRound a)) as (_ & -> & -> & _).
  rewrite (proj1 (nextRound_fields a)). cbn [score round].
  split; [lia|]. split; [reflexivity|].
  cbn [commit hooks]. rewrite (proj1 (nextRound_fields a)).
  unfold winLossEffect, WIN_SCORE. cbn [status score batteries GameStatus_eqb].
  replace (score (hooks a) + sumZ (ammo (hooks a)) * 5)%Z
    with (score (hooks a) + 5 * sumZ (ammo (hooks a)))%Z by lia.
  destruct (1000 <=? score (hooks a) + 5 * sumZ (ammo (hooks a)))%Z,
           (forallb negb (batteries (hooks a))); reflexivity.
Qed.

(** ** The rhythm of the spawns *)



(** The bonus of the next round can win the game. *)
Example bonus_wins :
  status (hooks (commit (nextRound bonusWinsApp))) = WIN /\
  score (hooks (commit (nextRound bonusWinsApp))) = 1000%Z.
Proof. split; reflexivity. Qed.

(** ** Ammunition and entities along a run *)

Lemma decrement_capped (i : nat) (a0 a1 a2 : Z) :
  (a0 <= 20)%Z -> (a1 <= 40)%Z -> (a2 <= 20)%Z ->
  exists b0 b1 b2, decrement i [a0; a1; a2] = [b0; b1; b2] /\
                   (b0 <= 20)%Z /\ (b1 <= 40)%Z /\ (b2 <= 20)%Z.
Proof.
  intros H0 H1 H2. destruct i as [|[|[|i]]].
  - exists (a0 - 1)%Z, a1, a2. repeat split; trivial; lia.
  - exists a0, (a1 - 1)%Z, a2. repeat split; trivial; lia.
  - exists a0, a1, (a2 - 1)%Z. repeat split; trivial; lia.
  - exists a0, a1, a2. repeat split; trivial.
    unfold decrement. cbn. destruct i; reflexivity.
Qed.

Section Caps.
Context `{MathLib}.

Lemma step_ammo_capped (a a' : App) :
  step a a' -> ammo_capped a -> ammo_capped a'.
Proof.
  intros Hstep [(a0 & a1 & a2 & Ha & H0 & H1 & H2) Hsum]. unfold ammo_capped.
  destruct Hstep as [w h a | a Hshown | a Hround | x y a | time d a].
  - cbn. split; [exists a0, a1, a2; auto | exact Hsum].
  - destruct (commit_fields (startGame a)) as (-> & _ & _ & -> & _).
    destruct (startGame_fields a) as (-> & _ & -> & _). cbn.
    split; [exists 20%Z, 40%Z, 20%Z; repeat split; lia | lia].
  - destruct (commit_fields (nextRound a)) as (-> & _ & _ & -> & _).
    rewrite (proj1 (nextRound_fields a)). cbn.
    split; [exists 20%Z, 40%Z, 20%Z; repeat split; lia | lia].
  - destruct (commit_fields (handleCanvasClick x y a)) as (-> & _ & _ & -> & _).
    destruct (handleCanvasClick_cases x y a) as [-> | (i & _ & _ & _ & _ & Hpos & ->)].
    + split; [exists a0, a1, a2; auto | exact Hsum].
    + cbn [hooks stateRef setAmmo ammo pushInterceptor interceptors].
      split.
      * rewrite Ha. now apply decrement_capped.
      * rewrite sumZ_decrement by (apply nth_positive_inside, Hpos).
        rewrite length_app. cbn [length]. lia.
  - destruct (commit_fields (loop time d a)) as (-> & _ & _ & -> & _).
    rewrite (proj1 (loop_ammo time d a)).
    split; [exists a0, a1, a2; auto|].
    destruct (loop_wave time d a) as (_ & _ & Hlen). lia.
Qed.

Lemma reachable_ammo_capped (a : App) : reachable a -> ammo_capped a.
Proof.
  induction 1 as [|a a' _ IH Hstep].
  - unfold ammo_capped. cbn. split; [exists 20%Z, 40%Z, 20%Z; repeat split; lia | lia].
  - exact (step_ammo_capped a a' Hstep IH).
Qed.

Lemma Explosion_update_keeps (e : Explosion.t) (dt : Q) :
  Explosion.maxRadius e = 45 /\ Explosion.speed e = 60 /\
  (Explosion.growing e = true -> Explosion.radius e < 45) ->
  Explosion.maxRadius (fst (Explosion.update e dt)) = 45 /\
  Explosion.speed (fst (Explosion.update e dt)) = 60 /\
  (Explosion.growing (fst (Explosion.update e dt)) = true ->
   Explosion.radius (fst (Explosion.update e dt)) < 45).
Proof.
  intros (Hmax & Hspeed & Hgrow). unfold Explosion.update.
  destruct (Explosion.growing e); cbn; rewrite ?Hmax, ?Hspeed.
  - split; [reflexivity|]. split; [reflexivity|].
    destruct (Qle_bool 45 (Explosion.radius e + 60 * dt)) eqn:E; [discriminate|].
    intros _. apply Qltb_lt. unfold Qltb. now rewrite E.
  - split; [reflexivity|]. split; [reflexivity | discriminate].
Qed.

Lemma Explosion_new_keeps (p : Point.t) :
  Explosion.maxRadius (Explosion.new p) = 45 /\
  Explosion.speed (Explosion.new p) = 60 /\
  (Explosion.growing (Explosion.new p) = true -> Explosion.radius (Explosion.new p) < 45).
Proof. cbn. repeat split. Qed.

Lemma loop_entities (time : Q) (d : Dice) (a : App) :
  (1 <= round (hooks a))%Z ->
  entities_ok (stateRef a) -> entities_ok (stateRef (loop time d a)).
Proof.
  intros Hr (Hms & Hexps & Hes). unfold entities_ok.
  destruct (status (hooks a)) eqn:Hs.
  1, 4, 5: unfold loop; rewrite Hs; cbn; auto.
  all: assert (Hact : status (hooks a) = PLAYING \/ status (hooks a) = ROUND_END)
         by (rewrite Hs; auto).
  all: rewrite (loop_active time d a Hact); cbn [stateRef].
  all: destruct (spawn_fields (hooks a) (frameStep time a) d (frameRef time a))
         as (-> & -> & _).
  all: split; [|split].
  1, 4: cbn [frameRef interceptors]; apply Forall_forall; intros m Hin;
        apply in_map_iff in Hin; destruct Hin as (m0 & <- & Hin0);
        apply filter_In in Hin0; destruct Hin0 as [Hin0 _];
        rewrite (proj1 (InterceptorMissile_update_fields m0 (frameStep time a)));
        revert m0 Hin0; now apply Forall_forall.
  1, 3: cbn [frameRef explosions]; apply Forall_app; split;
        [ apply Forall_forall; intros e Hin;
          apply in_map_iff in Hin; destruct Hin as (e0 & <- & Hin0);
          apply filter_In in Hin0; destruct Hin0 as [Hin0 _];
          apply Explosion_update_keeps;
          unfold frameBlasts in Hin0; apply in_app_iff in Hin0;
          destruct Hin0 as [Hin0 | Hin0];
          [ revert e0 Hin0; now apply Forall_forall
          | apply in_map_iff in Hin0; destruct Hin0 as (m & <- & _);
            apply Explosion_new_keeps ]
        | apply Forall_forall; intros e Hin;
          apply in_map_iff in Hin; destruct Hin as (e0 & <- & _);
          apply Explosion_new_keeps ].
  all: assert (Hfr : Forall (fun e => exists r, (1 <= r)%Z /\
                              EnemyRocket.speed e = inject_Z (40 + r * 10) * (2 / 3))
                            (enemies (frameRef time a)))
         by (cbn [frameRef enemies]; apply Forall_forall; intros e Hin;
             apply in_map_iff in Hin; destruct Hin as (e0 & <- & Hin0);
             apply filter_In in Hin0; destruct Hin0 as [Hin0 _];
             apply frameEnemies_incl in Hin0;
             rewrite (proj1 (proj2 (proj2 (EnemyRocket_update_fields e0 (frameStep time a)))));
             revert e0 Hin0; now apply Forall_forall).
  all: destruct (spawn_cases (hooks a) (frameStep time a) d (frameRef time a))
         as [[-> _] | (_ & _ & _ & -> & _)]; [exact Hfr|].
  all: apply Forall_app; split; [exact Hfr|]; constructor; [|constructor].
  all: cbn [EnemyRocket.new EnemyRocket.speed].
  all: exists (round (hooks a)); split; [exact Hr | reflexivity].
Qed.

Lemma reachable_entities (a : App) : reachable a -> entities_ok (stateRef a).
Proof.
  induction 1 as [|a a' Hreach IH Hstep].
  - unfold entities_ok. cbn. repeat split; constructor.
  - destruct (reachable_invariants a Hreach) as (_ & (Hr & _) & _).
    destruct Hstep as [w h a | a Hshown | a Hround | x y a | time d a].
    + exact IH.
    + unfold entities_ok. cbn. repeat split; constructor.
    + unfold entities_ok. cbn. repeat split; constructor.
    + destruct (handleCanvasClick_cases x y a) as [-> | (i & _ & _ & _ & _ & _ & ->)];
        [exact IH|].
      destruct IH as (Hms & Hexps & Hes). unfold entities_ok. cbn.
      repeat split; trivial. apply Forall_app. split; [exact Hms|].
      constructor; [reflexivity | constructor].
    + apply (loop_entities time d a Hr IH).
Qed.
End Caps.

(** X18: in every state of a run each battery holds at most its allocation
    of 20, 40 and 20, and the ammunition left plus the interceptors in
    flight is at most 80, so that a round fires at most 80 interceptors and
    the bonus of a round is at most 400. *)
Theorem ammunition_is_capped `{MathLib} (a : App) :
  reachable a ->
  (nth 0 (ammo (hooks a)) 0 <= 20)%Z /\
  (nth 1 (ammo (hooks a)) 0 <= 40)%Z /\
  (nth 2 (ammo (hooks a)) 0 <= 20)%Z /\
  (sumZ (ammo (hooks a)) + Z.of_nat (length (interceptors (stateRef a))) <= 80)%Z /\
  (score (hooks (nextRound a)) <= score (hooks a) + 400)%Z.
Proof.
  intro Hreach.
  destruct (reachable_ammo_capped a Hreach) as [(a0 & a1 & a2 & Ha & H0 & H1 & H2) Hsum].
  rewrite (proj1 (nextRound_fields a)). rewrite Ha in *. cbn [nth score].
  repeat split; try assumption. lia.
Qed.

Lemma ammunition_is_capped_witness :
  (sumZ (ammo (hooks tinyGame)) + Z.of_nat (length (interceptors (stateRef tinyGame))) <= 80)%Z.
Proof.
  exact (proj1 (proj2 (proj2 (proj2
           (@ammunition_is_capped IntegerSqrt _ tinyGame_reachable))))).
Defined.

(** X19: in every state of a run every interceptor in flight has speed 400,
    every blast has [maxRadius] 45 and growth speed 60 and a radius below 45
    while it grows, and every enemy rocket stores the speed that the
    spawning block and the constructor compute for some round r of at least
    1: (40 + 10 r) * (2 / 3). *)
Theorem entities_keep_their_constants `{MathLib} (a : App) :
  reachable a ->
  Forall (fun m => InterceptorMissile.speed m = 400) (interceptors (stateRef a)) /\
  Forall (fun e => Explosion.maxRadius e = 45 /\ Explosion.speed e = 60 /\
                   (Explosion.growing e = true -> Explosion.radius e < 45))
         (explosions (stateRef a)) /\
  Forall (fun e => exists r, (1 <= r)%Z /\
                             EnemyRocket.speed e = inject_Z (40 + r * 10) * (2 / 3))
         (enemies (stateRef a)).
Proof. intro Hreach. exact (reachable_entities a Hreach). Qed.

Lemma entities_keep_their_constants_witness :
  Forall (fun e => exists r, (1 <= r)%Z /\
                             EnemyRocket.speed e = inject_Z (40 + r * 10) * (2 / 3))
         (enemies (stateRef (@runFrames IntegerSqrt 1 lastBatteryDice tinyGame))).
Proof.
  exact (proj2 (proj2 (@entities_keep_their_constants IntegerSqrt _
                         (@reachable_runFrames IntegerSqrt 1 lastBatteryDice tinyGame
                            tinyGame_reachable)))).
Defined.

(** * Whole frames *)

(** ** What a frame does to the three lists of entities *)

Lemma spawn_enemies (snap : Hooks) (dt : Q) (d : Dice) (s : StateRef) :
  enemies (spawn snap dt d s) = enemies s \/
  (status snap = PLAYING /\ (0 < enemiesToSpawn s)%Z /\ spawnTimer s - dt <= 0 /\
   enemies (spawn snap dt d s)
     = enemies s ++ [EnemyRocket.new (width s) (height s)
                       (targetXOf (width s) (drawnTarget snap d))
                       (drawnTarget snap d)
                       (inject_Z (40 + round snap * 10)) (launch d)]).
Proof.
  unfold spawn.
  destruct (GameStatus_eqb (status snap) PLAYING) eqn:Hs; [|now left].
  destruct (Z.ltb_spec 0 (enemiesToSpawn s)) as [Hn|Hn]; [|now left].
  cbn [andb]. destruct (Qle_bool (spawnTimer s - dt) 0) eqn:Ht; [|now left].
  destruct (0 <? length (availableTargets (cities snap) (batteries snap)))%nat;
    [|now left].
  right. apply GameStatus_eqb_eq in Hs. apply Qle_bool_iff in Ht.
  repeat split; trivial.
Qed.

Section WholeFrames.
Context `{MathLib}.

Lemma InterceptorMissile_update_moves (m : InterceptorMissile.t) (dt : Q) :
  snd (InterceptorMissile.update m dt) = true ->
  5 <= dist (InterceptorMissile.target m) (InterceptorMissile.pos m) /\
  (Point.x (InterceptorMissile.pos (fst (InterceptorMissile.update m dt)))
   - Point.x (InterceptorMissile.pos m))
    * dist (InterceptorMissile.target m) (InterceptorMissile.pos m)
    == (Point.x (InterceptorMissile.target m) - Point.x (InterceptorMissile.pos m))
       * (InterceptorMissile.speed m * dt) /\
  (Point.y (InterceptorMissile.pos (fst (InterceptorMissile.update m dt)))
   - Point.y (InterceptorMissile.pos m))
    * dist (InterceptorMissile.target m) (InterceptorMissile.pos m)
    == (Point.y (InterceptorMissile.target m) - Point.y (InterceptorMissile.pos m))
       * (InterceptorMissile.speed m * dt).
Proof.
  unfold InterceptorMissile.update.
  fold (dist (InterceptorMissile.target m) (InterceptorMissile.pos m)).
  destruct (Qltb (dist (InterceptorMissile.target m) (InterceptorMissile.pos m)) 5) eqn:Hd;
    [discriminate|].
  intros _. apply Qltb_ge in Hd.
  cbn [fst InterceptorMissile.pos Point.x Point.y].
  repeat split; trivial; field; lra.
Qed.

(** The collision test on exact square roots: the squared distance against
    the squared radius. *)
Lemma hits_squares (e : Explosion.t) (enemy : EnemyRocket.t) :
  let dx := Point.x (EnemyRocket.pos enemy) - Point.x (Explosion.pos e) in
  let dy := Point.y (EnemyRocket.pos enemy) - Point.y (Explosion.pos e) in
  (hits e enemy = true <-> Math_sqrt (dx * dx + dy * dy) < Explosion.radius e) /\
  (Math_sqrt (dx * dx + dy * dy) * Math_sqrt (dx * dx + dy * dy) == dx * dx + dy * dy ->
   (hits e enemy = true <->
    0 < Explosion.radius e /\
    dx * dx + dy * dy < Explosion.radius e * Explosion.radius e)).
Proof.
  intros dx dy.
  assert (Hhits : hits e enemy = true <-> Math_sqrt (dx * dx + dy * dy) < Explosion.radius e)
    by (unfold hits, dist; apply Qltb_lt).
  split; [exact Hhits|]. intro Hsq. rewrite Hhits.
  pose proof (Math_sqrt_nonneg (dx * dx + dy * dy)) as Hpos.
  set (r := Math_sqrt (dx * dx + dy * dy)) in *. rewrite <- Hsq.
  split; [intro Hlt; split; nra | intros [H0 Hlt]; nra].
Qed.

Lemma loop_interceptors (time : Q) (d : Dice) (a : App) :
  status (hooks a) = PLAYING \/ status (hooks a) = ROUND_END ->
  interceptors (stateRef (loop time d a))
    = map (fun m => fst (InterceptorMissile.update m (frameStep time a)))
          (filter (fun m => snd (InterceptorMissile.update m (frameStep time a)))
                  (interceptors (stateRef a))).
Proof.
  intro Hs. rewrite (loop_active time d a Hs). cbn [stateRef].
  now rewrite (proj1 (spawn_fields (hooks a) (frameStep time a) d (frameRef time a))).
Qed.

(** The enemies after a frame: those that no blast of the frame caught and
    whose update returned [true], updated and in their order, and then the
    rocket of the spawning block, if its timer ran out. *)
Lemma loop_enemies (time : Q) (d : Dice) (a : App) :
  status (hooks a) = PLAYING \/ status (hooks a) = ROUND_END ->
  exists spawned : list EnemyRocket.t,
    enemies (stateRef (loop time d a))
      = map (fun e => fst (EnemyRocket.update e (frameStep time a)))
            (filter (fun e => snd (EnemyRocket.update e (frameStep time a)))
                    (filter (fun e => negb (caught (frameStep time a)
                                                   (frameBlasts (frameStep time a) a) e))
                            (enemies (stateRef a))))
        ++ spawned /\
    (spawned = [] \/
     (spawned = [EnemyRocket.new (width (stateRef a)) (height (stateRef a))
                   (targetXOf (width (stateRef a)) (drawnTarget (hooks a) d))
                   (drawnTarget (hooks a) d)
                   (inject_Z (40 + round (hooks a) * 10)) (launch d)] /\
      status (hooks a) = PLAYING /\ (0 < enemiesToSpawn (stateRef a))%Z /\
      spawnTimer (stateRef a) - frameStep time a <= 0)).
Proof.
  intro Hs. rewrite (loop_active time d a Hs). cbn [stateRef].
  destruct (spawn_enemies (hooks a) (frameStep time a) d (frameRef time a))
    as [He | (Hp & Hn & Ht & He)]; rewrite He.
  - exists []. split; [now rewrite app_nil_r | now left].
  - eexists. split; [reflexivity|]. right. repeat split; assumption.
Qed.

(** A blast pushed in a frame of positive step is alive after its update of
    that frame. *)
Lemma Explosion_new_alive (p : Point.t) (dt : Q) :
  0 < dt -> snd (Explosion.update (Explosion.new p) dt) = true.
Proof.
  intro Hdt. rewrite Explosion_update_alive. apply Qltb_lt.
  unfold Explosion.update, Explosion.new.
  cbn [fst Explosion.growing Explosion.radius Explosion.speed Explosion.maxRadius].
  lra.
Qed.

Lemma loop_blast_at_target (time : Q) (d : Dice) (a : App) (m : InterceptorMissile.t) :
  status (hooks a) = PLAYING \/ status (hooks a) = ROUND_END ->
  In m (interceptors (stateRef a)) ->
  snd (InterceptorMissile.update m (frameStep time a)) = false ->
  0 < frameStep time a ->
  In (fst (Explosion.update (Explosion.new (InterceptorMissile.target m))
                            (frameStep time a)))
     (explosions (stateRef (loop time d a))).
Proof.
  intros Hs Hin Hdead Hdt.
  rewrite (proj2 (proj2 (loop_arrivals time d a Hs))).
  apply in_or_app. left.
  apply (in_map (fun e => fst (Explosion.update e (frameStep time a)))).
  apply filter_In. split; [|now apply Explosion_new_alive].
  unfold frameBlasts. apply in_or_app. right.
  apply (in_map (fun m => Explosion.new (InterceptorMissile.target m))).
  apply filter_In. split; [exact Hin | now rewrite Hdead].
Qed.

(** The status after a PLAYING frame that leaves an enemy to spawn or in
    flight, and the effects. *)
Lemma loop_verdict (time : Q) (d : Dice) (a : App) :
  status (hooks a) = PLAYING ->
  ~ (enemiesToSpawn (stateRef (loop time d a)) = 0%Z /\
     enemies (stateRef (loop time d a)) = []) ->
  status (hooks (commit (loop time d a)))
    = if forallb negb (batteries (hooks (loop time d a))) then GAME_OVER
      else if (1000 <=? score (hooks (loop time d a)))%Z then WIN else PLAYING.
Proof.
  intros Hs Hnot.
  destruct (proj1 (loop_status time d a) Hs) as [(_ & Hz & Hnil) | (Hst & _)];
    [exfalso; apply Hnot; now split|].
  cbn [commit hooks]. unfold winLossEffect, WIN_SCORE. rewrite Hst.
  cbn [GameStatus_eqb].
  destruct (forallb negb (batteries (hooks (loop time d a))));
    destruct (1000 <=? score (hooks (loop time d a)))%Z; cbn; try reflexivity;
    exact Hst.
Qed.
End WholeFrames.

(** ** Blasts against enemies *)

(** C4: a blast catches an enemy exactly when the square root of the squared
    distance from the enemy's position to the blast's centre is strictly
    below the blast's radius, that is, where the square root is exact, when
    the radius is positive and the squared distance is below its square.
    Within a frame the radius is the one after the blast's update of that
    frame; the test is made for every blast of the frame in turn, on the
    enemies that the blasts before it left, so that an enemy is removed
    exactly when some blast that is alive after its update catches it; each
    removal adds 20 to the score and 1 to [enemiesDestroyed], in the filter
    and in the frame as a whole.  The enemies that a frame leaves are those
    that no blast of the frame caught and that did not arrive, updated and
    in their order, followed by the rocket of the spawning block when its
    timer ran out. *)
Theorem blast_catches_enemies_within_radius `{MathLib} :
  (forall (e : Explosion.t) (enemy : EnemyRocket.t),
      let dx := Point.x (EnemyRocket.pos enemy) - Point.x (Explosion.pos e) in
      let dy := Point.y (EnemyRocket.pos enemy) - Point.y (Explosion.pos e) in
      (hits e enemy = true <-> Math_sqrt (dx * dx + dy * dy) < Explosion.radius e) /\
      (Math_sqrt (dx * dx + dy * dy) * Math_sqrt (dx * dx + dy * dy)
         == dx * dx + dy * dy ->
       (hits e enemy = true <->
        0 < Explosion.radius e /\
        dx * dx + dy * dy < Explosion.radius e * Explosion.radius e))) /\
  (forall (dt : Q) (exps : list Explosion.t) (enemy : EnemyRocket.t),
      caught dt exps enemy = true <->
      exists e, In e exps /\ snd (Explosion.update e dt) = true /\
                dist (EnemyRocket.pos enemy) (Explosion.pos (fst (Explosion.update e dt)))
                  < Explosion.radius (fst (Explosion.update e dt))) /\
  (forall (dt : Q) (exps : list Explosion.t) (es : list EnemyRocket.t)
          (h : Hooks) (destroyed : Z),
      updateExplosions dt exps es h destroyed =
        (map (fun e => fst (Explosion.update e dt))
             (filter (fun e => snd (Explosion.update e dt)) exps),
         filter (fun enemy => negb (caught dt exps enemy)) es,
         setScore (fun s => s + 20 * Z.of_nat (length (filter (caught dt exps) es)))%Z h,
         (destroyed + Z.of_nat (length (filter (caught dt exps) es)))%Z)) /\
  (forall (time : Q) (d : Dice) (a : App),
      status (hooks a) = PLAYING \/ status (hooks a) = ROUND_END ->
      score (hooks (loop time d a))
        = (score (hooks a) + 20 * frameKills (frameStep time a) a)%Z /\
      enemiesDestroyed (stateRef (loop time d a))
        = (enemiesDestroyed (stateRef a) + frameKills (frameStep time a) a)%Z) /\
  (forall (time : Q) (d : Dice) (a : App),
      status (hooks a) = PLAYING \/ status (hooks a) = ROUND_END ->
      exists spawned : list EnemyRocket.t,
        enemies (stateRef (loop time d a))
          = map (fun e => fst (EnemyRocket.update e (frameStep time a)))
                (filter (fun e => snd (EnemyRocket.update e (frameStep time a)))
                        (filter (fun e => negb (caught (frameStep time a)
                                                       (frameBlasts (frameStep time a) a) e))
                                (enemies (stateRef a))))
            ++ spawned /\
        (spawned = [] \/
         (spawned = [EnemyRocket.new (width (stateRef a)) (height (stateRef a))
                       (targetXOf (width (stateRef a)) (drawnTarget (hooks a) d))
                       (drawnTarget (hooks a) d)
                       (inject_Z (40 + round (hooks a) * 10)) (launch d)] /\
          status (hooks a) = PLAYING /\ (0 < enemiesToSpawn (stateRef a))%Z /\
          spawnTimer (stateRef a) - frameStep time a <= 0))).
Proof.
  split; [exact hits_squares|]. split; [exact caught_iff|].
  split; [exact updateExplosions_spec|].
  split; [exact loop_score | exact loop_enemies].
Qed.

Lemma blast_catches_enemies_within_radius_witness :
  score (hooks (@loop IntegerSqrt 100 someDice blastApp)) = 60%Z /\
  enemiesDestroyed (stateRef (@loop IntegerSqrt 100 someDice blastApp)) = 3%Z /\
  map EnemyRocket.targetIndex (enemies (stateRef blastApp)) = [0; 7]%nat /\
  map EnemyRocket.targetIndex
      (enemies (stateRef (@loop IntegerSqrt 100 someDice blastApp))) = [7]%nat.
Proof.
  destruct (@blast_catches_enemies_within_radius IntegerSqrt)
    as (_ & _ & _ & Hscore & Henemies).
  destruct (Hscore 100 someDice blastApp (or_introl eq_refl)) as [Hs Hd].
  destruct (Henemies 100 someDice blastApp (or_introl eq_refl))
    as (spawned & Heq & [Hnil | (_ & _ & _ & Ht)]).
  - split; [exact Hs|]. split; [exact Hd|]. split; [reflexivity|].
    rewrite Heq, Hnil. vm_compute. reflexivity.
  - exfalso. vm_compute in Ht. apply Ht. reflexivity.
Defined.

(** ** Interceptors *)

(** C8: an interceptor is built at rest on its start with speed 400,
    whatever the round, and no update changes its speed or its target; its
    update returns [false] exactly when the distance from its position to
    its target is below 5, and otherwise moves it along the line to its
    target: with speed 400, the move times the distance is the vector to the
    target times 400 dt.  A frame keeps the interceptors whose update
    returned [true], updated, and for each one that died it pushes a fresh
    blast centred at the interceptor's stored target before it updates the
    blasts: when the step of the frame is positive that blast, updated, is
    among the blasts after the frame, centred at the target.  In every state
    of a run every interceptor in flight has speed 400. *)
Theorem interceptor_speed_arrival_blast `{MathLib} :
  (forall start target : Point.t,
      InterceptorMissile.speed (InterceptorMissile.new start target) = 400 /\
      InterceptorMissile.target (InterceptorMissile.new start target) = target /\
      InterceptorMissile.pos (InterceptorMissile.new start target) = start) /\
  (forall (m : InterceptorMissile.t) (dt : Q),
      InterceptorMissile.speed (fst (InterceptorMissile.update m dt))
        = InterceptorMissile.speed m /\
      InterceptorMissile.target (fst (InterceptorMissile.update m dt))
        = InterceptorMissile.target m /\
      (snd (InterceptorMissile.update m dt) = false <->
       dist (InterceptorMissile.target m) (InterceptorMissile.pos m) < 5)) /\
  (forall (m : InterceptorMissile.t) (dt : Q),
      InterceptorMissile.speed m = 400 ->
      snd (InterceptorMissile.update m dt) = true ->
      (Point.x (InterceptorMissile.pos (fst (InterceptorMissile.update m dt)))
       - Point.x (InterceptorMissile.pos m))
        * dist (InterceptorMissile.target m) (InterceptorMissile.pos m)
        == (Point.x (InterceptorMissile.target m) - Point.x (InterceptorMissile.pos m))
           * (400 * dt) /\
      (Point.y (InterceptorMissile.pos (fst (InterceptorMissile.update m dt)))
       - Point.y (InterceptorMissile.pos m))
        * dist (InterceptorMissile.target m) (InterceptorMissile.pos m)
        == (Point.y (InterceptorMissile.target m) - Point.y (InterceptorMissile.pos m))
           * (400 * dt)) /\
  (forall (dt : Q) (ms : list InterceptorMissile.t) (exps : list Explosion.t),
      let dead := filter (fun m => negb (snd (InterceptorMissile.update m dt))) ms in
      let alive := filter (fun m => snd (InterceptorMissile.update m dt)) ms in
      updateInterceptors dt ms exps =
        (map (fun m => fst (InterceptorMissile.update m dt)) alive,
         exps ++ map (fun m => {| Explosion.pos := InterceptorMissile.target m;
                                  Explosion.radius := 0;
                                  Explosion.maxRadius := 45;
                                  Explosion.growing := true;
                                  Explosion.speed := 60 |}) dead)) /\
  (forall (time : Q) (d : Dice) (a : App),
      status (hooks a) = PLAYING \/ status (hooks a) = ROUND_END ->
      interceptors (stateRef (loop time d a))
        = map (fun m => fst (InterceptorMissile.update m (frameStep time a)))
              (filter (fun m => snd (InterceptorMissile.update m (frameStep time a)))
                      (interceptors (stateRef a))) /\
      explosions (stateRef (loop time d a))
        = map (fun e => fst (Explosion.update e (frameStep time a)))
              (filter (fun e => snd (Explosion.update e (frameStep time a)))
                      (explosions (stateRef a)
                       ++ map (fun m => Explosion.new (InterceptorMissile.target m))
                              (filter (fun m => negb (snd (InterceptorMissile.update
                                                             m (frameStep time a))))
                                      (interceptors (stateRef a)))))
          ++ map (fun e => Explosion.new (EnemyRocket.pos e))
                 (frameArrivals (frameStep time a) a) /\
      (forall m : InterceptorMissile.t,
          In m (interceptors (stateRef a)) ->
          snd (InterceptorMissile.update m (frameStep time a)) = false ->
          0 < frameStep time a ->
          In (fst (Explosion.update (Explosion.new (InterceptorMissile.target m))
                                    (frameStep time a)))
             (explosions (stateRef (loop time d a))) /\
          Explosion.pos (fst (Explosion.update
                                (Explosion.new (InterceptorMissile.target m))
                                (frameStep time a)))
            = InterceptorMissile.target m)) /\
  (forall a : App,
      reachable a ->
      Forall (fun m => InterceptorMissile.speed m = 400) (interceptors (stateRef a))).
Proof.
  split; [|split; [|split; [|split; [|split]]]].
  - intros start target. repeat split.
  - intros m dt.
    destruct (InterceptorMissile_update_fields m dt) as [Hs Ht].
    repeat split; try assumption; apply InterceptorMissile_update_dead.
  - intros m dt Hspeed Halive.
    destruct (InterceptorMissile_update_moves m dt Halive) as (_ & Hx & Hy).
    rewrite Hspeed in Hx, Hy. split; assumption.
  - intros dt ms exps. apply updateInterceptors_spec.
  - intros time d a Hs. split; [exact (loop_interceptors time d a Hs)|].
    split; [exact (proj2 (proj2 (loop_arrivals time d a Hs)))|].
    intros m Hin Hdead Hdt. split; [|reflexivity].
    exact (loop_blast_at_target time d a m Hs Hin Hdead Hdt).
  - intros a Hreach. exact (proj1 (reachable_entities a Hreach)).
Qed.

Lemma interceptor_speed_arrival_blast_witness :
  InterceptorMissile.pos arrivingInterceptor = Point.mk 12 100 /\
  InterceptorMissile.target arrivingInterceptor = Point.mk 10 100 /\
  interceptors (stateRef interceptApp) = [arrivingInterceptor] /\
  interceptors (stateRef (@loop IntegerSqrt 100 someDice interceptApp)) = [] /\
  map Explosion.pos (explosions (stateRef (@loop IntegerSqrt 100 someDice interceptApp)))
    = [Point.mk 10 100].
Proof.
  destruct (proj1 (proj2 (proj2 (proj2 (proj2 (@interceptor_speed_arrival_blast IntegerSqrt)))))
              100 someDice interceptApp (or_introl eq_refl)) as (Hms & Hexps & _).
  do 3 (split; [reflexivity|]). split.
  - rewrite Hms. vm_compute. reflexivity.
  - rewrite Hexps. vm_compute. reflexivity.
Defined.

(** ** The end of a game *)

(** C5, as the code has it.  While the status is PLAYING the effect sets it
    to GAME_OVER when every battery is destroyed, whatever the score, and to
    WIN when the score is at least 1000 and some battery is left; otherwise,
    and in every other status, it changes nothing.  So after a PLAYING frame
    that leaves an enemy to spawn or in flight, with the score and the
    batteries as the frame leaves them, the status is GAME_OVER when every
    battery is destroyed, else WIN when the score is at least 1000, else
    PLAYING.  The effect has run after every step, so that in a state of a
    run whose status is PLAYING the score is below 1000 and some battery is
    left. *)
Theorem win_loss_checks `{MathLib} :
  (forall h : Hooks,
      (status h <> PLAYING -> winLossEffect h = h) /\
      (status h = PLAYING -> forallb negb (batteries h) = true ->
         winLossEffect h = setStatus GAME_OVER h) /\
      (status h = PLAYING -> forallb negb (batteries h) = false ->
         (1000 <= score h)%Z -> winLossEffect h = setStatus WIN h) /\
      (status h = PLAYING -> forallb negb (batteries h) = false ->
         (score h < 1000)%Z -> winLossEffect h = h)) /\
  (forall (time : Q) (d : Dice) (a : App),
      status (hooks a) = PLAYING ->
      ~ (enemiesToSpawn (stateRef (loop time d a)) = 0%Z /\
         enemies (stateRef (loop time d a)) = []) ->
      score (hooks (loop time d a))
        = (score (hooks a) + 20 * frameKills (frameStep time a) a)%Z /\
      batteries (hooks (loop time d a))
        = batteries (fold_left (fun h e => resolveHit e h)
                               (frameArrivals (frameStep time a) a) (hooks a)) /\
      status (hooks (commit (loop time d a)))
        = (if forallb negb (batteries (hooks (loop time d a))) then GAME_OVER
           else if (1000 <=? score (hooks (loop time d a)))%Z then WIN
           else PLAYING)) /\
  (forall a : App,
      reachable a -> status (hooks a) = PLAYING ->
      (score (hooks a) < 1000)%Z /\ forallb negb (batteries (hooks a)) = false).
Proof.
  assert (Hcases : forall h : Hooks,
      (status h <> PLAYING -> winLossEffect h = h) /\
      (status h = PLAYING -> forallb negb (batteries h) = true ->
         winLossEffect h = setStatus GAME_OVER h) /\
      (status h = PLAYING -> forallb negb (batteries h) = false ->
         (1000 <= score h)%Z -> winLossEffect h = setStatus WIN h) /\
      (status h = PLAYING -> forallb negb (batteries h) = false ->
         (score h < 1000)%Z -> winLossEffect h = h)).
  { intro h. unfold winLossEffect, WIN_SCORE. repeat split.
    - intro Hs. destruct (GameStatus_eqb _ _) eqn:E; [|reflexivity].
      apply GameStatus_eqb_eq in E. contradiction.
    - intros Hs Hb. rewrite Hs, Hb. simpl.
      destruct (1000 <=? score h)%Z; reflexivity.
    - intros Hs Hb Hw. rewrite Hs, Hb. simpl.
      destruct (Z.leb_spec 1000 (score h)); [reflexivity|lia].
    - intros Hs Hb Hw. rewrite Hs, Hb. simpl.
      destruct (Z.leb_spec 1000 (score h)); [lia|reflexivity]. }
  split; [exact Hcases|]. split.
  - intros time d a Hs Hnot.
    split; [exact (proj1 (loop_score time d a (or_introl Hs)))|].
    split; [exact (proj1 (proj2 (loop_arrivals time d a (or_introl Hs))))|].
    exact (loop_verdict time d a Hs Hnot).
  - intros a Hreach Hs.
    pose proof (reachable_effect_done a Hreach) as Hfix.
    destruct (Hcases (hooks a)) as (_ & Hover & Hwin & _).
    destruct (forallb negb (batteries (hooks a))) eqn:B.
    + rewrite (Hover Hs eq_refl) in Hfix.
      apply (f_equal status) in Hfix. simpl in Hfix. congruence.
    + split; [|reflexivity].
      destruct (Z.lt_ge_cases (score (hooks a)) 1000) as [Hlt|Hge]; [exact Hlt|].
      rewrite (Hwin Hs eq_refl Hge) in Hfix.
      apply (f_equal status) in Hfix. simpl in Hfix. congruence.
Qed.

Lemma matchPointApp_playing : status (hooks matchPointApp) = PLAYING.
Proof. vm_compute. reflexivity. Qed.

Lemma win_loss_checks_witness :
  score (hooks matchPointApp) = 980%Z /\
  enemiesToSpawn (stateRef (@loop IntegerSqrt 59850 overhead matchPointApp)) = 1%Z /\
  score (hooks (@loop IntegerSqrt 59850 overhead matchPointApp)) = 1000%Z /\
  status (hooks (commit (@loop IntegerSqrt 59850 overhead matchPointApp))) = WIN.
Proof.
  assert (Hleft :
    enemiesToSpawn (stateRef (@loop IntegerSqrt 59850 overhead matchPointApp)) = 1%Z)
    by (vm_compute; reflexivity).
  assert (Hnot :
    ~ (enemiesToSpawn (stateRef (@loop IntegerSqrt 59850 overhead matchPointApp)) = 0%Z /\
       enemies (stateRef (@loop IntegerSqrt 59850 overhead matchPointApp)) = []))
    by (rewrite Hleft; intros [Hz _]; discriminate).
  destruct (proj1 (proj2 (@win_loss_checks IntegerSqrt))
              59850 overhead matchPointApp matchPointApp_playing Hnot)
    as (Hscore & _ & Hstatus).
  split; [vm_compute; reflexivity|]. split; [exact Hleft|].
  split; [rewrite Hscore | rewrite Hstatus]; vm_compute; reflexivity.
Defined.

(** C5, as stated, fails in two ways.  With a score of 1000 and all three
    batteries destroyed while PLAYING, the effect sets the status to
    GAME_OVER, not WIN, and so does a frame that brings the score from 980
    to 1000 and destroys the last battery.  And a frame that also ends the
    round leaves the status ROUND_END: in the third round of a run, the
    frame in which the last rocket of the round is caught brings the score
    from 980 to 1000 while PLAYING, and the status is then ROUND_END, not
    WIN; in the first round of another run, the frame in which the last
    rocket of the round destroys the last battery leaves the status
    ROUND_END, not GAME_OVER. *)
Lemma score_1000_without_batteries_is_game_over :
  (status wonAndLost = PLAYING /\ (1000 <= score wonAndLost)%Z /\
   status (winLossEffect wonAndLost) = GAME_OVER /\
   status (winLossEffect wonAndLost) <> WIN) /\
  (status (hooks lastStandApp) = PLAYING /\
   score (hooks lastStandApp) = 980%Z /\
   score (hooks (commit (@loop IntegerSqrt 100 someDice lastStandApp))) = 1000%Z /\
   status (hooks (commit (@loop IntegerSqrt 100 someDice lastStandApp))) = GAME_OVER /\
   status (hooks (commit (@loop IntegerSqrt 100 someDice lastStandApp))) <> WIN) /\
  (@reachable IntegerSqrt lastKillApp /\
   status (hooks lastKillApp) = PLAYING /\
   score (hooks lastKillApp) = 980%Z /\
   score (hooks (commit (@loop IntegerSqrt 61050 overhead lastKillApp))) = 1000%Z /\
   batteries (hooks (commit (@loop IntegerSqrt 61050 overhead lastKillApp)))
     = [true; true; true] /\
   status (hooks (commit (@loop IntegerSqrt 61050 overhead lastKillApp))) = ROUND_END /\
   status (hooks (commit (@loop IntegerSqrt 61050 overhead lastKillApp))) <> WIN) /\
  (@reachable IntegerSqrt lastBatteryApp /\
   status (hooks lastBatteryApp) = PLAYING /\
   batteries (hooks lastBatteryApp) = [false; false; true] /\
   batteries (hooks (commit (@loop IntegerSqrt 19800 someDice lastBatteryApp)))
     = [false; false; false] /\
   status (hooks (commit (@loop IntegerSqrt 19800 someDice lastBatteryApp))) = ROUND_END /\
   status (hooks (commit (@loop IntegerSqrt 19800 someDice lastBatteryApp)))
     <> GAME_OVER).
Proof.
  split; [|split; [|split]].
  - repeat split; discriminate.
  - assert (Hover :
      status (hooks (commit (@loop IntegerSqrt 100 someDice lastStandApp))) = GAME_OVER)
      by (vm_compute; reflexivity).
    do 3 (split; [vm_compute; reflexivity|]).
    split; [exact Hover | rewrite Hover; discriminate].
  - assert (Hend :
      status (hooks (commit (@loop IntegerSqrt 61050 overhead lastKillApp))) = ROUND_END)
      by (vm_compute; reflexivity).
    split; [exact lastKillApp_reachable|].
    do 4 (split; [vm_compute; reflexivity|]).
    split; [exact Hend | rewrite Hend; discriminate].
  - assert (Hend :
      status (hooks (commit (@loop IntegerSqrt 19800 someDice lastBatteryApp))) = ROUND_END)
      by (vm_compute; reflexivity).
    split; [exact lastBatteryApp_reachable|].
    do 3 (split; [vm_compute; reflexivity|]).
    split; [exact Hend | rewrite Hend; discriminate].
Qed.
